(** * Azure Resource Manager Portal: the front-end contracts, embedded in Rocq

    The portal's browser code is JavaScript.  This development embeds the
    functions that carry the specification's testable properties:

    - [Utils]: [frontend/js/utils.js] (parameter collection, the three
      cascading dropdowns and their option tables);
    - [Deployments]: the vanilla front end's deployment script
      (validation, [deployTemplate], [monitorDeployment]);
    - [LogViewer]: [frontend-v3/src/components/DeploymentLogViewer.jsx];
    - [DeployPage]: the React deploy page ([handleDeploy]);
    - [UserManagement]: the React user-management page
      ([getRolePermissions]).

    Definitions come first: the JavaScript data they work on ([Js]), the
    five modules above, and the vocabulary of the specification ([Spec]).
    The theorems about them follow, one group per part of the code. *)

From Stdlib Require Import ZArith NArith List Bool Lia.
From stdpp Require Import base option list gmap strings pretty.
Import ListNotations.

Set Default Proof Using "Type".
Set Warnings "-register-all".

(* ===================================================================== *)
(** * JavaScript data: strings, values, completions                      *)
(* ===================================================================== *)

Module Js.

(** A JavaScript string is a sequence of UTF-16 code units; [length] counts
    code units, exactly as [String.prototype.length] does.  Code units are
    kept as [N]; real ones are below 65536, and nothing below depends on
    that bound. *)
Abbreviation CodeUnit := N.
Abbreviation JsString := (list N).

(** Literals of the source are ASCII; [js "abc"] is the code-unit list. *)
Definition js (s : string) : JsString :=
  List.map Ascii.N_of_ascii (String.list_ascii_of_string s).
Arguments js s%_string.

Definition strEq (a b : JsString) : bool := bool_decide (a = b).

(** [WhiteSpace] and [LineTerminator] of ECMAScript: what
    [String.prototype.trim] strips.  All of them are single code units. *)
Definition isWhiteSpace (c : CodeUnit) : bool :=
  ((c =? 0x09) || (c =? 0x0A) || (c =? 0x0B) || (c =? 0x0C) || (c =? 0x0D)
   || (c =? 0x20) || (c =? 0xA0) || (c =? 0x1680)
   || ((0x2000 <=? c) && (c <=? 0x200A))
   || (c =? 0x2028) || (c =? 0x2029) || (c =? 0x202F) || (c =? 0x205F)
   || (c =? 0x3000) || (c =? 0xFEFF))%N.

Fixpoint trimStart (s : JsString) : JsString :=
  match s with
  | [] => []
  | c :: r => if isWhiteSpace c then trimStart r else s
  end.

Definition trimEnd (s : JsString) : JsString := rev (trimStart (rev s)).

Definition trim (s : JsString) : JsString := trimEnd (trimStart s).

Fixpoint startsWith (s p : JsString) : bool :=
  match p, s with
  | [], _ => true
  | _ :: _, [] => false
  | c :: p', d :: s' => (c =? d)%N && startsWith s' p'
  end.

Definition endsWith (s p : JsString) : bool := startsWith (rev s) (rev p).

(** [s.includes(q)]: [q] occurs in [s] as a contiguous run. *)
Fixpoint includes (s q : JsString) : bool :=
  startsWith s q ||
  match s with
  | [] => false
  | _ :: r => includes r q
  end.

(** Values.  Numbers carry only what the modelled code observes of them
    (whether they are zero); objects are property lists with distinct keys,
    in insertion order; [VBuiltin k] is what a plain object inherits from
    [Object.prototype] under the name [k]. *)
Inductive value : Type :=
| VUndefined
| VNull
| VBool (b : bool)
| VNumber (n : Z)
| VString (s : JsString)
| VArray (items : list value)
| VObject (props : list (JsString * value))
| VBuiltin (name : JsString).

Definition truthy (v : value) : bool :=
  match v with
  | VUndefined | VNull => false
  | VBool b => b
  | VNumber n => negb (n =? 0)%Z
  | VString s => negb (bool_decide (s = []))
  | VArray _ | VObject _ | VBuiltin _ => true
  end.

(** [a || b] on values. *)
Definition or_else (a b : value) : value := if truthy a then a else b.

(** [v === 'lit']. *)
Definition isString (v : value) (lit : JsString) : bool :=
  match v with
  | VString s => strEq s lit
  | _ => false
  end.

Inductive JsError : Type := TypeError | SyntaxError.

Inductive completion (A : Type) : Type :=
| Normal (a : A)
| Throw (e : JsError).
Arguments Normal {A} a.
Arguments Throw {A} e.

Definition bind {A B} (c : completion A) (k : A -> completion B) : completion B :=
  match c with
  | Normal a => k a
  | Throw e => Throw e
  end.

(** [try { c } catch { h }]. *)
Definition tryCatch {A} (c : completion A) (h : A) : A :=
  match c with
  | Normal a => a
  | Throw _ => h
  end.

Fixpoint assoc (props : list (JsString * value)) (k : JsString) : option value :=
  match props with
  | [] => None
  | (k', v) :: rest => if strEq k' k then Some v else assoc rest k
  end.

(** The names every plain object inherits from [Object.prototype]. *)
Definition objectPrototypeKeys : list JsString :=
  [ js "constructor"; js "__proto__"; js "hasOwnProperty";
    js "isPrototypeOf"; js "propertyIsEnumerable"; js "toLocaleString";
    js "toString"; js "valueOf"; js "__defineGetter__";
    js "__defineSetter__"; js "__lookupGetter__"; js "__lookupSetter__" ].

Definition inherited (k : JsString) : value :=
  if existsb (strEq k) objectPrototypeKeys then VBuiltin k else VUndefined.

(** [o[k]] on a plain object given by its own properties. *)
Definition lookupProp (props : list (JsString * value)) (k : JsString) : value :=
  match assoc props k with
  | Some v => v
  | None => inherited k
  end.

(** [v.k] for the data names the modelled code reads ([azure], [mode],
    [subscriptionId], ...): reading from [undefined] or [null] throws, a
    plain object answers from its own properties or its prototype, and
    primitives and arrays have no property of such a name. *)
Definition getProp (v : value) (k : JsString) : completion value :=
  match v with
  | VUndefined | VNull => Throw TypeError
  | VObject props => Normal (lookupProp props k)
  | _ => Normal (inherited k)
  end.

(** [v?.k]. *)
Definition getPropOpt (v : value) (k : JsString) : completion value :=
  match v with
  | VUndefined | VNull => Normal VUndefined
  | _ => getProp v k
  end.

(** [v.includes(q)] and [v.trim()] as method calls on an arbitrary value:
    only strings have these methods among the values that reach the calls
    (the receiver of [includes] is a provider type, never an array). *)
Definition callIncludes (v : value) (q : JsString) : completion bool :=
  match v with
  | VString s => Normal (includes s q)
  | _ => Throw TypeError
  end.

Definition callTrim (v : value) : completion JsString :=
  match v with
  | VString s => Normal (trim s)
  | _ => Throw TypeError
  end.

(** [[...new Set(xs)]]: distinct elements, in order of first occurrence. *)
Fixpoint uniq (xs : list JsString) : list JsString :=
  match xs with
  | [] => []
  | x :: r => x :: List.filter (fun y => negb (strEq y x)) (uniq r)
  end.

End Js.
Import Js.

Declare Scope js_scope.
Delimit Scope js_scope with js.
Notation "'let*' x ':=' c 'in' k" := (bind c (fun x => k))
  (at level 10, x name, c at level 100, k at level 200) : js_scope.
Open Scope js_scope.

(* ===================================================================== *)
(** * frontend/js/utils.js                                               *)
(* ===================================================================== *)

Module Utils.

(** ** Parameter collection *)

(** What [collectParameters] reads of the page.  A field is [None] when
    [document.getElementById] finds no element, [Some text] otherwise; the
    form is the list of its [input], [select] and [textarea] elements in
    document order, each with its [name] (empty when it has none) and its
    current [value]. *)
Record FormInput : Type := mkInput {
  input_name : JsString;
  input_value : JsString
}.

Record Document : Type := mkDocument {
  resourceGroupField : option JsString;
  locationField : option JsString;
  subscriptionField : option JsString;
  parametersForm : option (list FormInput)
}.

(** [parameters[name] = v] on the object [collectParameters] builds from
    [{}]: the name [__proto__] reaches the accessor inherited from
    [Object.prototype], which ignores a string; every other name becomes an
    own property. *)
Definition assignParam (parameters : gmap JsString value)
    (name : JsString) (v : value) : gmap JsString value :=
  if strEq name (js "__proto__") then
    match v with
    | VString _ => parameters
    | _ => <[name := v]> parameters
    end
  else <[name := v]> parameters.

Section WithJsonParse.

(** [JSON.parse]: [None] when it throws a [SyntaxError]. *)
Variable JSON_parse : JsString -> option value.

Definition parseJson (text : JsString) : completion value :=
  match JSON_parse text with
  | Some v => Normal v
  | None => Throw SyntaxError
  end.

(** The [tags] branch: the body of the [try], and its [catch]. *)
Definition collectTags (text : JsString) : value :=
  tryCatch
    (let tagsValue := trim text in
     if negb (bool_decide (tagsValue = [])) then
       if startsWith tagsValue (js "{") && endsWith tagsValue (js "}") then
         parseJson tagsValue
       else Normal (VObject [])
     else Normal (VObject []))
    (VObject []).

Definition imageFields : list JsString :=
  [ js "imagePublisher"; js "imageOffer"; js "imageSku" ].

(** The callback of [inputs.forEach]. *)
Definition collectInput (parameters : gmap JsString value)
    (input : FormInput) : gmap JsString value :=
  if negb (bool_decide (input_name input = [])) then
    if strEq (input_name input) (js "tags") then
      <[input_name input := collectTags (input_value input)]> parameters
    else if existsb (strEq (input_name input)) imageFields then
      <[input_name input := VString (input_value input)]> parameters
    else
      assignParam parameters (input_name input) (VString (input_value input))
  else parameters.

Definition collectField (key : JsString) (field : option JsString)
    (parameters : gmap JsString value) : gmap JsString value :=
  match field with
  | Some text => <[key := VString text]> parameters
  | None => parameters
  end.

Definition collectParameters (doc : Document) : gmap JsString value :=
  let parameters := ∅ in
  let parameters := collectField (js "resourceGroupName") (resourceGroupField doc) parameters in
  let parameters := collectField (js "location") (locationField doc) parameters in
  let parameters := collectField (js "subscription") (subscriptionField doc) parameters in
  match parametersForm doc with
  | Some inputs => fold_left collectInput inputs parameters
  | None => parameters
  end.

End WithJsonParse.

(** ** Cascading dropdowns *)

(** A [<select>] element: its options' values and the selected index.
    Option values of the three tables are plain words, so the markup the
    code builds parses back to exactly these options. *)
Record Select : Type := mkSelect {
  options : list JsString;
  selectedIndex : option nat
}.

(** [select.value]: the selected option's value, or the empty string. *)
Definition selectValue (sel : Select) : JsString :=
  match selectedIndex sel with
  | Some i => nth i (options sel) []
  | None => []
  end.

(** [select.innerHTML = opts.map(...).join('')]: the options are replaced;
    a drop-down with options and none marked selected shows its first. *)
Definition setOptions (opts : list JsString) (sel : Select) : Select :=
  {| options := opts;
     selectedIndex := match opts with [] => None | _ :: _ => Some 0 end |}.

Fixpoint indexOf (opts : list JsString) (v : JsString) : option nat :=
  match opts with
  | [] => None
  | o :: rest => if strEq o v then Some 0 else option_map S (indexOf rest v)
  end.

(** [select.value = v]: the first option with that value becomes selected;
    with none, nothing is selected.  [None] is [undefined], which the
    setter turns into the text [undefined]. *)
Definition setValue (v : option JsString) (sel : Select) : Select :=
  {| options := options sel;
     selectedIndex := indexOf (options sel) (default (js "undefined") v) |}.

(** [sel.value || opts[0]]. *)
Definition valueOrFirst (sel : Select) (opts : list JsString) : option JsString :=
  if negb (bool_decide (selectValue sel = [])) then Some (selectValue sel)
  else head opts.

(** A row of an option table compared with a selection that may be
    [undefined] ([x.tier === selectedTier]). *)
Definition matches (cell : JsString) (selected : option JsString) : bool :=
  match selected with
  | Some s => strEq cell s
  | None => false
  end.

(** The three elements a cascade works on. *)
Record Cascade : Type := mkCascade {
  parentSelect : Select;
  childSelect : Select;
  leafSelect : Select
}.

Record AppServicePlan : Type := mkPlan { os : JsString; tier : JsString; sku : JsString }.

Definition APP_SERVICE_PLANS : list AppServicePlan :=
  [ mkPlan (js "Windows") (js "Free") (js "F1");
    mkPlan (js "Windows") (js "Basic") (js "B1");
    mkPlan (js "Windows") (js "Standard") (js "S1");
    mkPlan (js "Windows") (js "PremiumV2") (js "P1v2");
    mkPlan (js "Linux") (js "Basic") (js "B1");
    mkPlan (js "Linux") (js "Standard") (js "S1");
    mkPlan (js "Linux") (js "PremiumV3") (js "P1v3") ].

Record SqlEdition : Type := mkSql { edition : JsString; compute : JsString; version : JsString }.

Definition SQL_EDITIONS : list SqlEdition :=
  [ mkSql (js "Basic") (js "5 DTUs") (js "12.0");
    mkSql (js "Standard") (js "S0") (js "12.0");
    mkSql (js "Standard") (js "S1") (js "12.0");
    mkSql (js "Premium") (js "P1") (js "12.0");
    mkSql (js "Premium") (js "P2") (js "12.0");
    mkSql (js "GeneralPurpose") (js "Gen5") (js "12.0");
    mkSql (js "BusinessCritical") (js "Gen5") (js "12.0") ].

Record StorageAccount : Type := mkStorage { kind : JsString; replication : JsString; performance : JsString }.

Definition STORAGE_ACCOUNTS : list StorageAccount :=
  [ mkStorage (js "StorageV2") (js "LRS") (js "Standard");
    mkStorage (js "StorageV2") (js "GRS") (js "Standard");
    mkStorage (js "StorageV2") (js "ZRS") (js "Standard");
    mkStorage (js "StorageV2") (js "LRS") (js "Premium");
    mkStorage (js "BlobStorage") (js "LRS") (js "Standard");
    mkStorage (js "FileStorage") (js "LRS") (js "Premium") ].

(** [updateAppServicePlanDropdowns], given the three elements (the
    function returns at once when one is missing) and the table
    [window.APP_SERVICE_PLANS]. *)
Definition updateAppServicePlanDropdowns (plans : list AppServicePlan)
    (dom : Cascade) : Cascade :=
  let osSelect := parentSelect dom in
  let tierSelect := childSelect dom in
  let skuSelect := leafSelect dom in
  let selectedOs := selectValue osSelect in
  let filteredByOs := List.filter (fun x => strEq (os x) selectedOs) plans in
  let tiers := uniq (List.map tier filteredByOs) in
  let tierSelect := setOptions tiers tierSelect in
  let selectedTier := valueOrFirst tierSelect tiers in
  let filteredByTier := List.filter (fun x => matches (tier x) selectedTier) filteredByOs in
  let skus := uniq (List.map sku filteredByTier) in
  let skuSelect := setOptions skus skuSelect in
  let tierSelect := setValue selectedTier tierSelect in
  let skuSelect := setValue (head skus) skuSelect in
  {| parentSelect := osSelect; childSelect := tierSelect; leafSelect := skuSelect |}.

Definition updateSqlDropdowns (editions : list SqlEdition)
    (dom : Cascade) : Cascade :=
  let editionSelect := parentSelect dom in
  let computeSelect := childSelect dom in
  let versionSelect := leafSelect dom in
  let selectedEdition := selectValue editionSelect in
  let filteredByEdition := List.filter (fun x => strEq (edition x) selectedEdition) editions in
  let computes := uniq (List.map compute filteredByEdition) in
  let computeSelect := setOptions computes computeSelect in
  let selectedCompute := valueOrFirst computeSelect computes in
  let filteredByCompute := List.filter (fun x => matches (compute x) selectedCompute) filteredByEdition in
  let versions := uniq (List.map version filteredByCompute) in
  let versionSelect := setOptions versions versionSelect in
  let computeSelect := setValue selectedCompute computeSelect in
  let versionSelect := setValue (head versions) versionSelect in
  {| parentSelect := editionSelect; childSelect := computeSelect; leafSelect := versionSelect |}.

Definition updateStorageDropdowns (accounts : list StorageAccount)
    (dom : Cascade) : Cascade :=
  let kindSelect := parentSelect dom in
  let replicationSelect := childSelect dom in
  let performanceSelect := leafSelect dom in
  let selectedKind := selectValue kindSelect in
  let filteredByKind := List.filter (fun x => strEq (kind x) selectedKind) accounts in
  let replications := uniq (List.map replication filteredByKind) in
  let replicationSelect := setOptions replications replicationSelect in
  let selectedReplication := valueOrFirst replicationSelect replications in
  let filteredByReplication := List.filter (fun x => matches (replication x) selectedReplication) filteredByKind in
  let performances := uniq (List.map performance filteredByReplication) in
  let performanceSelect := setOptions performances performanceSelect in
  let replicationSelect := setValue selectedReplication replicationSelect in
  let performanceSelect := setValue (head performances) performanceSelect in
  {| parentSelect := kindSelect; childSelect := replicationSelect; leafSelect := performanceSelect |}.

End Utils.

(* ===================================================================== *)
(** * The vanilla front end's deployment script                          *)
(* ===================================================================== *)

Module Deployments.

Import Utils.

(** ** Validation *)

(** [/^[a-zA-Z0-9._-]+$/]: the class, then the whole pattern (no flags:
    [^] and [$] are the ends of the input). *)
Definition rgNameClass (c : CodeUnit) : bool :=
  (((0x61 <=? c) && (c <=? 0x7A)) || ((0x41 <=? c) && (c <=? 0x5A))
   || ((0x30 <=? c) && (c <=? 0x39))
   || (c =? 0x2E) || (c =? 0x5F) || (c =? 0x2D))%N.

Definition rgNamePattern_test (s : JsString) : bool :=
  match s with
  | [] => false
  | _ :: _ => forallb rgNameClass s
  end.

Definition msgSelectTemplate : JsString := js "Please select a template first".
Definition msgRgRequired : JsString := js "Resource Group Name is required".
Definition msgLocationRequired : JsString := js "Location is required".
Definition msgRgCharset : JsString :=
  js "Resource Group Name can only contain letters, numbers, periods, underscores, and hyphens".
Definition msgRgLength : JsString :=
  js "Resource Group Name must be 90 characters or less".

(** [parameters.key] on the object built by [collectParameters]. *)
Definition param (parameters : gmap JsString value) (key : JsString) : value :=
  match parameters !! key with
  | Some v => v
  | None => VUndefined
  end.

(** [if (c) errors.push(m)]. *)
Definition pushIf (c : bool) (m : JsString) (errors : list JsString) : list JsString :=
  if c then errors ++ [m] else errors.

(** [validateDeploymentParameters]; the global [selectedTemplate] is an
    argument.  A [trim] call on a value that is not a string throws. *)
Definition validateDeploymentParameters (selectedTemplate : value)
    (parameters : gmap JsString value) : completion (list JsString) :=
  let errors := [] in
  let errors := pushIf (negb (truthy selectedTemplate)) msgSelectTemplate errors in
  let resourceGroupName := or_else (param parameters (js "resourceGroupName")) (VString []) in
  let* rg := callTrim resourceGroupName in
  let errors := pushIf (bool_decide (rg = [])) msgRgRequired errors in
  let location := or_else (param parameters (js "location")) (VString []) in
  let* loc := callTrim location in
  let errors := pushIf (bool_decide (loc = [])) msgLocationRequired errors in
  let errors :=
    if negb (bool_decide (rg = [])) then
      let errors := pushIf (negb (rgNamePattern_test rg)) msgRgCharset errors in
      pushIf (90 <? length rg) msgRgLength errors
    else errors in
  Normal errors.

(** A form field as the live validation sees it: its text, its class
    list, and the [invalid-feedback] message shown next to it, if any. *)
Record Field : Type := mkField {
  field_value : JsString;
  classList : list JsString;
  feedback : option JsString
}.

Definition classRemove (names : list JsString) (f : Field) : Field :=
  {| field_value := field_value f;
     classList := List.filter (fun c => negb (existsb (strEq c) names)) (classList f);
     feedback := feedback f |}.

Definition classAdd (name : JsString) (f : Field) : Field :=
  {| field_value := field_value f;
     classList := if existsb (strEq name) (classList f) then classList f
                  else classList f ++ [name];
     feedback := feedback f |}.

Definition hideFieldError (f : Field) : Field :=
  {| field_value := field_value f; classList := classList f; feedback := None |}.

Definition showFieldError (f : Field) (message : JsString) : Field :=
  let f := hideFieldError f in
  {| field_value := field_value f; classList := classList f; feedback := Some message |}.

Definition validateResourceGroupName (field : Field) : Field :=
  let value := trim (field_value field) in
  let field := classRemove [js "is-invalid"; js "is-valid"] field in
  if bool_decide (value = []) then
    showFieldError (classAdd (js "is-invalid") field) (js "Resource Group Name is required")
  else if negb (rgNamePattern_test value) then
    showFieldError (classAdd (js "is-invalid") field)
      (js "Only letters, numbers, periods, underscores, and hyphens allowed")
  else if 90 <? length value then
    showFieldError (classAdd (js "is-invalid") field) (js "Must be 90 characters or less")
  else
    hideFieldError (classAdd (js "is-valid") field).

(** ** Submission *)

Record DeploymentData : Type := mkDeploymentData {
  template_name : value;
  subscription_id : value;
  resource_group : value;
  location : value;
  parameters : gmap JsString value
}.

(** What [fetch('/deploy', ...)] comes back with: a rejection, or a
    response with its [ok] flag, its text, and its JSON body (or the
    message of the error [response.json()] throws). *)
Inductive FetchOutcome : Type :=
| Rejected (message : JsString)
| Response (ok : bool) (text : JsString) (json : JsString + value).

(** What [deployTemplate] does to the page and the network, in order. *)
Inductive Effect : Type :=
| ShowError (message : JsString)
| HighlightValidationErrors (errors : list JsString)
| DeployButtonBusy
| ShowLoading (text : JsString)
| Fetch (url : JsString) (method : JsString) (body : DeploymentData)
| ConsoleError
| HideLoading
| ShowSuccess (message : JsString)
| MonitorDeployment (deploymentId : value) (templateName : value)
    (* the call is not awaited: its status requests are its own *)
| StartDeploymentPolling
| HideParametersModal
| ReloadDeploymentsLater
| DeployButtonReset.

(** [errors.join(sep)]. *)
Fixpoint join (sep : JsString) (items : list JsString) : JsString :=
  match items with
  | [] => []
  | [x] => x
  | x :: rest => x ++ sep ++ join sep rest
  end.

Definition bullet : JsString := [0x0A; 0x2022; 0x20]%N.

Section WithEnvironment.

Variable JSON_parse : JsString -> option value.
(** The network, and the message text the engine gives a [TypeError]. *)
Variable network : DeploymentData -> FetchOutcome.
Variable typeErrorMessage : JsString.
(** Whether [bootstrap.Modal.getInstance] finds an instance for the
    parameters modal. *)
Variable parametersModal : bool.

(** The [try] block of [deployTemplate] up to the request. *)
Definition deploymentData (selectedTemplate : value)
    (parameters : gmap JsString value) : DeploymentData :=
  let subscriptionId := or_else (param parameters (js "subscription")) (VString []) in
  let resourceGroupName := or_else (param parameters (js "resourceGroupName")) (VString []) in
  let location := or_else (param parameters (js "location")) (VString []) in
  let templateParameters :=
    delete (js "location") (delete (js "resourceGroupName")
      (delete (js "subscription") parameters)) in
  {| template_name := selectedTemplate;
     subscription_id := subscriptionId;
     resource_group := resourceGroupName;
     location := location;
     parameters := templateParameters |}.

(** The rest of the [try] block, with its [catch]; [failed m] is what the
    [catch] does with an error whose message is [m]. *)
Definition afterFetch (selectedTemplate : value) (outcome : FetchOutcome)
    : list Effect :=
  let failed (m : JsString) :=
    [ConsoleError; HideLoading; ShowError (js "Deployment failed: " ++ m)] in
  match outcome with
  | Rejected m => failed m
  | Response false text _ => failed (js "Deployment failed: " ++ text)
  | Response true _ (inl m) => failed m
  | Response true _ (inr result) =>
      match getProp result (js "deployment_id") with
      | Throw _ => [HideLoading; ShowSuccess
                      (js "Deployment initiated successfully! Monitoring deployment progress...")]
                   ++ failed typeErrorMessage
      | Normal deploymentId =>
          [HideLoading; ShowSuccess
             (js "Deployment initiated successfully! Monitoring deployment progress...")]
          ++ (if truthy deploymentId
              then [MonitorDeployment deploymentId selectedTemplate] else [])
          ++ [StartDeploymentPolling]
          ++ (if parametersModal then [HideParametersModal] else [])
          ++ [ReloadDeploymentsLater]
      end
  end.

(** [deployTemplate]: the effects, in order; [Throw] when the function's
    promise rejects (validation threw before the [try]).  The deploy
    button is taken to be on the page. *)
Definition deployTemplate (selectedTemplate : value) (doc : Document)
    : completion (list Effect) :=
  let parameters := collectParameters JSON_parse doc in
  let* validationErrors := validateDeploymentParameters selectedTemplate parameters in
  if 0 <? length validationErrors then
    Normal [ ShowError (js "Please fix the following errors:" ++ bullet
                         ++ join bullet validationErrors);
             HighlightValidationErrors validationErrors ]
  else
    let data := deploymentData selectedTemplate parameters in
    Normal ([DeployButtonBusy;
             ShowLoading (js "Deploying template... This may take several minutes.");
             Fetch (js "/deploy") (js "POST") data]
            ++ afterFetch selectedTemplate (network data)
            ++ [DeployButtonReset]).

End WithEnvironment.

Definition isFetch (e : Effect) : bool :=
  match e with
  | Fetch _ _ _ => true
  | _ => false
  end.

(** ** The parameter form *)

(** A parameter of a template's schema, as [showTemplateParameters]
    reads it: its [type], its [allowedValues] (empty when there are
    none) and whether it has a [defaultValue]. *)
Record TemplateParameter : Type := mkParameter {
  param_type : value;
  allowedValues : list JsString;
  defaultValue : value
}.

(** The control [showTemplateParameters] builds for a parameter. *)
Inductive Control : Type :=
| SelectControl (choices : list JsString)
| CheckboxControl
| ArrayEditor
| ObjectEditor
| TextControl.

Definition controlFor (name : JsString) (p : TemplateParameter) : Control :=
  match allowedValues p with
  | _ :: _ => SelectControl (allowedValues p)
  | [] =>
      if isString (param_type p) (js "bool") then CheckboxControl
      else if isString (param_type p) (js "array") then ArrayEditor
      else if isString (param_type p) (js "object") || strEq name (js "tags")
      then ObjectEditor
      else TextControl
  end.

(** ** Monitoring *)

(** The answer to one request for [/deployments/<id>/status]: the
    request fails, or a response arrives with its [ok] flag and what
    [response.json()] yields. *)
Inductive StatusReply : Type :=
| StatusRejected
| StatusResponse (ok : bool) (json : completion value).

Inductive Notice : Type :=
| FetchStatus
| NoticeSuccess (message : JsString)
| NoticeError (message : JsString)
| NoticeWarning (message : JsString)
| LoadDeployments
| ConsoleLog
| ConsoleErr
| SetInterval
| ClearInterval.

Record Monitor : Type := mkMonitor {
  attempts : nat;
  trace : list Notice
}.

Definition maxAttempts : nat := 20.

Definition msgTimeout : JsString :=
  js "Deployment monitoring timed out. Please check deployment history manually.".

Definition emit (ns : list Notice) (m : Monitor) : Monitor :=
  {| attempts := attempts m; trace := trace m ++ ns |}.

(** What the [try] block of [checkStatus] does with a reply: [inl ns]
    when it returns [true] after the notices [ns]; [inr logged] when
    control reaches the code after the [try], with what the console got
    on the way. *)
Definition tryCheck (templateName : JsString) (reply : StatusReply)
    : list Notice + list Notice :=
  match reply with
  | StatusRejected => inr [ConsoleErr]
  | StatusResponse false _ => inr []
  | StatusResponse true (Throw _) => inr [ConsoleErr]
  | StatusResponse true (Normal status) =>
      match getProp status (js "provisioningState") with
      | Throw _ => inr [ConsoleErr]
      | Normal state =>
          if isString state (js "Succeeded") then
            inl [NoticeSuccess (js "Deployment of '" ++ templateName
                                  ++ js "' completed successfully!");
                 LoadDeployments]
          else if isString state (js "Failed") then
            inl [NoticeError (js "Deployment of '" ++ templateName
                    ++ js "' failed. Check deployment history for details.");
                 LoadDeployments]
          else inr [ConsoleLog]
      end
  end.

(** [fetch(...)] in [checkStatus]: the request goes out, and the check
    waits for its answer. *)
Definition requestStatus (m : Monitor) : Monitor := emit [FetchStatus] m.

(** The rest of [checkStatus], run when the answer is there: the flag
    the check resolves to, and the monitor afterwards.  [attempts] is
    counted here, after the answer, not when the request goes out. *)
Definition settleStatus (templateName : JsString) (reply : StatusReply)
    (m : Monitor) : bool * Monitor :=
  match tryCheck templateName reply with
  | inl ns => (true, emit ns m)
  | inr logged =>
      let m := emit logged m in
      let m := {| attempts := S (attempts m); trace := trace m |} in
      if maxAttempts <=? attempts m then
        (true, emit [NoticeWarning msgTimeout] m)
      else (false, m)
  end.

(** [checkStatus] from its request to its result, when nothing else
    runs while it waits. *)
Definition checkStatus (templateName : JsString) (reply : StatusReply)
    (m : Monitor) : bool * Monitor :=
  settleStatus templateName reply (requestStatus m).

(** Where a run of [monitorDeployment] stands: the initial check waits
    for its answer; it said stop and the function returned without
    setting the interval; the interval is set; the interval was cleared.
    The interval's callback is [async] and the timer does not wait for
    it, so a check whose answer takes longer than the interval is still
    waiting when the next one starts: [inFlight] counts the interval's
    checks that wait for their answer. *)
Inductive Phase : Type :=
| FirstCheck
| Returned
| Polling (inFlight : nat)
| Stopped (inFlight : nat).

Record Run : Type := mkRun {
  monitor : Monitor;
  phase : Phase
}.

(** What the event loop brings next: the interval fires, or a waiting
    check gets its answer. *)
Inductive Event : Type :=
| Tick
| Answer (reply : StatusReply).

(** One turn of the event loop.  The interval fires only while it is
    set and not cleared; a check that was waiting goes on to its end when
    its answer arrives, also after the interval was cleared, and then
    calls [clearInterval] when it says stop. *)
Definition step (templateName : JsString) (run : Run) (ev : Event) : Run :=
  match phase run, ev with
  | FirstCheck, Answer reply =>
      let '(shouldStop, m) := settleStatus templateName reply (monitor run) in
      if shouldStop then {| monitor := m; phase := Returned |}
      else {| monitor := emit [SetInterval] m; phase := Polling 0 |}
  | Polling inFlight, Tick =>
      {| monitor := requestStatus (monitor run); phase := Polling (S inFlight) |}
  | Polling (S inFlight), Answer reply =>
      let '(shouldStop, m) := settleStatus templateName reply (monitor run) in
      if shouldStop then {| monitor := emit [ClearInterval] m; phase := Stopped inFlight |}
      else {| monitor := m; phase := Polling inFlight |}
  | Stopped (S inFlight), Answer reply =>
      let '(shouldStop, m) := settleStatus templateName reply (monitor run) in
      if shouldStop then {| monitor := emit [ClearInterval] m; phase := Stopped inFlight |}
      else {| monitor := m; phase := Stopped inFlight |}
  | _, _ => run
  end.

(** [monitorDeployment]: the call sends the initial check's request, and
    the events that follow take the run on. *)
Definition monitorDeployment (templateName : JsString) (events : list Event) : Run :=
  fold_left (step templateName) events
    {| monitor := requestStatus {| attempts := 0; trace := [] |}; phase := FirstCheck |}.

(** The events of a run in which every answer arrives before the
    interval fires again: [replies k] answers the [k]-th request. *)
Definition timely (replies : nat -> StatusReply) (ticks : nat) : list Event :=
  Answer (replies 0) :: flat_map (fun k => [Tick; Answer (replies k)]) (seq 1 ticks).

Definition isFetchStatus (n : Notice) : bool :=
  match n with
  | FetchStatus => true
  | _ => false
  end.

(** The number of status checks a run performed. *)
Definition checks (m : Monitor) : nat := length (List.filter isFetchStatus (trace m)).

End Deployments.

(* ===================================================================== *)
(** * frontend-v3/src/components/DeploymentLogViewer.jsx                 *)
(* ===================================================================== *)

Module LogViewer.

(** A log entry, as [onmessage] builds it: every field is what the
    event carried (level and phase with their defaults), of whatever
    type. *)
Record LogEntry : Type := mkLog {
  timestamp : value;
  level : value;
  phase : value;
  message : value;
  details : value
}.

(** The component's state, and whether its event source is still open. *)
Record State : Type := mkState {
  logs : list LogEntry;
  filteredLogs : list LogEntry;
  levelFilter : JsString;
  phaseFilter : JsString;
  searchQuery : JsString;
  eventSourceOpen : bool
}.

Definition setLogs (f : list LogEntry -> list LogEntry) (st : State) : State :=
  {| logs := f (logs st); filteredLogs := filteredLogs st;
     levelFilter := levelFilter st; phaseFilter := phaseFilter st;
     searchQuery := searchQuery st; eventSourceOpen := eventSourceOpen st |}.

Definition setFilteredLogs (l : list LogEntry) (st : State) : State :=
  {| logs := logs st; filteredLogs := l;
     levelFilter := levelFilter st; phaseFilter := phaseFilter st;
     searchQuery := searchQuery st; eventSourceOpen := eventSourceOpen st |}.

Definition closeEventSource (st : State) : State :=
  {| logs := logs st; filteredLogs := filteredLogs st;
     levelFilter := levelFilter st; phaseFilter := phaseFilter st;
     searchQuery := searchQuery st; eventSourceOpen := false |}.

(** The object literal of [onmessage], from the parsed [event.data]. *)
Definition entryOf (data : value) : completion LogEntry :=
  let* timestamp := getProp data (js "timestamp") in
  let* level := getProp data (js "level") in
  let* phase := getProp data (js "phase") in
  let* message := getProp data (js "message") in
  let* details := getProp data (js "details") in
  Normal {| timestamp := timestamp;
            level := or_else level (VString (js "INFO"));
            phase := or_else phase (VString (js "unknown"));
            message := message;
            details := details |}.

Section WithParser.

(** [JSON.parse] on an event's data; [None] when it throws. *)
Variable JSON_parse : JsString -> option value.

(** The body of [eventSource.onmessage] after the parse. *)
Definition handle (data : value) (st : State) : completion State :=
  let* type := getProp data (js "type") in
  if isString type (js "log") then
    let* entry := entryOf data in
    Normal (setLogs (fun prevLogs => prevLogs ++ [entry]) st)
  else if isString type (js "complete") || isString type (js "done") then
    Normal (closeEventSource st)
  else Normal st.

(** [eventSource.onmessage].  When the handler throws ([JSON.parse] on
    text that is not JSON, [data.type] on [null]) it ends there and the
    state is as before. *)
Definition onmessage (event_data : JsString) (st : State) : State :=
  match JSON_parse event_data with
  | None => st
  | Some data => tryCatch (handle data st) st
  end.

End WithParser.

(** [list.filter(p)] with a callback that may throw: the elements are
    tested in order, and the first throw ends the call. *)
Fixpoint filterM {A : Type} (p : A -> completion bool) (l : list A)
    : completion (list A) :=
  match l with
  | [] => Normal []
  | x :: rest =>
      let* keep := p x in
      let* kept := filterM p rest in
      Normal (if keep then x :: kept else kept)
  end.

Section WithCaseMapping.

(** [String.prototype.toUpperCase] and [toLowerCase]: the Unicode case
    mappings, taken as given. *)
Variable toUpperCase : JsString -> JsString.
Variable toLowerCase : JsString -> JsString.

(** [v.toUpperCase()] and [v.toLowerCase()]: only a text has the
    methods. *)
Definition callToUpperCase (v : value) : completion JsString :=
  match v with
  | VString s => Normal (toUpperCase s)
  | _ => Throw TypeError
  end.

Definition callToLowerCase (v : value) : completion JsString :=
  match v with
  | VString s => Normal (toLowerCase s)
  | _ => Throw TypeError
  end.

(** The callbacks of the three [filter] calls. *)
Definition levelMatches (levelFilter : JsString) (log : LogEntry) : completion bool :=
  Normal (isString (level log) levelFilter).

Definition phaseMatches (phaseFilter : JsString) (log : LogEntry) : completion bool :=
  let* upper := callToUpperCase (phase log) in
  Normal (strEq upper phaseFilter).

Definition searchMatches (query : JsString) (log : LogEntry) : completion bool :=
  let* message := callToLowerCase (message log) in
  if includes message query then Normal true
  else
    let* level := callToLowerCase (level log) in
    if includes level query then Normal true
    else
      let* phase := callToLowerCase (phase log) in
      Normal (includes phase query).

(** The three steps of the filter effect, each on the list so far. *)
Definition filterLevel (levelFilter : JsString) (filtered : list LogEntry)
    : completion (list LogEntry) :=
  if negb (strEq levelFilter (js "ALL")) then
    filterM (levelMatches levelFilter) filtered
  else Normal filtered.

Definition filterPhase (phaseFilter : JsString) (filtered : list LogEntry)
    : completion (list LogEntry) :=
  if negb (strEq phaseFilter (js "ALL")) then
    filterM (phaseMatches phaseFilter) filtered
  else Normal filtered.

Definition filterSearch (searchQuery : JsString) (filtered : list LogEntry)
    : completion (list LogEntry) :=
  if negb (bool_decide (searchQuery = [])) then
    let query := toLowerCase searchQuery in
    filterM (searchMatches query) filtered
  else Normal filtered.

(** The filter effect: it runs whenever the logs or a filter change.
    [Throw]: a callback threw, and [setFilteredLogs] was not reached. *)
Definition applyFilters (st : State) : completion State :=
  let filtered := logs st in
  let* filtered := filterLevel (levelFilter st) filtered in
  let* filtered := filterPhase (phaseFilter st) filtered in
  let* filtered := filterSearch (searchQuery st) filtered in
  Normal (setFilteredLogs filtered st).

End WithCaseMapping.

End LogViewer.

(* ===================================================================== *)
(** * The orders of the three filter steps                               *)
(* ===================================================================== *)

Module FilterOrders.
Import LogViewer.

(** A filter step takes the list so far to the next one, or throws. *)
Definition Step : Type := list LogEntry -> completion (list LogEntry).

Definition andThen (first next : Step) : Step :=
  fun l => let* filtered := first l in next filtered.

(** The three steps of the effect, applied in each of the six orders;
    the first is the effect's own. *)
Definition orders (toUpperCase toLowerCase : JsString -> JsString)
    (lf pf q : JsString) : list Step :=
  let byLevel := filterLevel lf in
  let byPhase := filterPhase toUpperCase pf in
  let bySearch := filterSearch toLowerCase q in
  [ andThen byLevel (andThen byPhase bySearch);
    andThen byLevel (andThen bySearch byPhase);
    andThen byPhase (andThen byLevel bySearch);
    andThen byPhase (andThen bySearch byLevel);
    andThen bySearch (andThen byLevel byPhase);
    andThen bySearch (andThen byPhase byLevel) ].

Definition isText (v : value) : bool :=
  match v with
  | VString _ => true
  | _ => false
  end.

(** An entry as the stream's format has it: level, phase and message
    are text. *)
Definition textEntry (log : LogEntry) : bool :=
  isText (level log) && isText (phase log) && isText (message log).

(** The callback keeps the element: it answers, and the answer is yes. *)
Definition sure {A : Type} (p : A -> completion bool) (x : A) : bool :=
  match p x with
  | Normal keep => keep
  | Throw _ => false
  end.

(** The callback answers on the element, rather than throwing. *)
Definition answers {A : Type} (p : A -> completion bool) (x : A) : Prop :=
  exists keep, p x = Normal keep.

(** The element passes a step: the step is off, or its callback keeps
    the element. *)
Definition passes {A : Type} (on : bool) (p : A -> completion bool) (x : A) : Prop :=
  on = true -> p x = Normal true.

(** The shape of each of the three steps: a [filter] call under a
    condition on the filter's setting. *)
Definition stepWhen {A : Type} (on : bool) (p : A -> completion bool) (l : list A)
    : completion (list A) :=
  if on then LogViewer.filterM p l else Normal l.

(** The three steps' conditions and callbacks. *)
Definition levelOn (lf : JsString) : bool := negb (strEq lf (js "ALL")).
Definition phaseOn (pf : JsString) : bool := negb (strEq pf (js "ALL")).
Definition searchOn (q : JsString) : bool := negb (bool_decide (q = [])).

End FilterOrders.

(* ===================================================================== *)
(** * The React deploy page                                              *)
(* ===================================================================== *)

Module DeployPage.

Record Template : Type := mkTemplate {
  name : value;
  cloud_provider : JsString
}.

Definition providerTypeMap : list (JsString * value) :=
  [ (js "azure", VString (js "terraform-azure"));
    (js "gcp", VString (js "terraform-gcp")) ].

(** [providerTypeMap[cloud_provider] || cloud_provider]. *)
Definition providerTypeOf (selectedTemplate : Template) : value :=
  or_else (lookupProp providerTypeMap (cloud_provider selectedTemplate))
          (VString (cloud_provider selectedTemplate)).

(** The names the destructuring takes out of the form data. *)
Definition coreFields : list JsString :=
  [ js "subscription_id"; js "project_id"; js "resource_group";
    js "resource_group_name"; js "location"; js "region"; js "zone" ].

(** [...templateParameters]: the remaining own properties. *)
Definition restOf (formData : list (JsString * value)) : list (JsString * value) :=
  List.filter (fun kv => negb (existsb (strEq (fst kv)) coreFields)) formData.

(** [storage.getItem(key)]. *)
Definition getItem (storage : gmap JsString JsString) (key : JsString) : value :=
  match storage !! key with
  | Some text => VString text
  | None => VNull
  end.

Section WithJsonParse.

Variable JSON_parse : JsString -> option value.

Definition parseSettings (savedSettings : value) : completion value :=
  match savedSettings with
  | VString text =>
      match JSON_parse text with
      | Some v => Normal v
      | None => Throw SyntaxError
      end
  | _ => Throw SyntaxError
  end.

(** [providerType.includes(cloud) && settings[cloud]?.mode === 'custom']. *)
Definition customMode (providerType settings : value) (cloud : JsString)
    : completion bool :=
  let* named := callIncludes providerType cloud in
  if named then
    let* section := getProp settings cloud in
    let* mode := getPropOpt section (js "mode") in
    Normal (isString mode (js "custom"))
  else Normal false.

(** The body of the inner [try]: the value assigned to
    [customSubscriptionId], or [null] when no branch assigns. *)
Definition readCustomCredential (providerType savedSettings : value)
    : completion value :=
  let* settings := parseSettings savedSettings in
  let* azureCustom := customMode providerType settings (js "azure") in
  if azureCustom then
    let* section := getProp settings (js "azure") in
    getProp section (js "subscriptionId")
  else
    let* gcpCustom := customMode providerType settings (js "gcp") in
    if gcpCustom then
      let* section := getProp settings (js "gcp") in
      getProp section (js "projectId")
    else Normal VNull.

(** [handleDeploy] up to the request: [Normal payload] when
    [axios.post] is called with [payload], [Throw] when an error reaches
    the outer [catch] before any request is made. *)
Definition handleDeploy (sessionStorage localStorage : gmap JsString JsString)
    (selectedTemplate : Template) (formData : list (JsString * value))
    : completion (list (JsString * value)) :=
  let providerType := providerTypeOf selectedTemplate in
  let resource_group := lookupProp formData (js "resource_group") in
  let resource_group_name := lookupProp formData (js "resource_group_name") in
  let location := lookupProp formData (js "location") in
  let region := lookupProp formData (js "region") in
  let zone := lookupProp formData (js "zone") in
  let templateParameters := restOf formData in
  let coreResourceGroup :=
    or_else (or_else resource_group resource_group_name) (VString []) in
  let coreLocation := or_else (or_else (or_else location region) zone) (VString []) in
  let* coreResourceGroup :=
    if negb (truthy coreResourceGroup) then
      let* gcp := callIncludes providerType (js "gcp") in
      Normal (if gcp then VString (js "default") else coreResourceGroup)
    else Normal coreResourceGroup in
  let savedSettings :=
    or_else (getItem sessionStorage (js "cloudCredentials"))
            (getItem localStorage (js "cloudCredentials")) in
  let customSubscriptionId :=
    if truthy savedSettings then
      tryCatch (readCustomCredential providerType savedSettings) VNull
    else VNull in
  Normal
    ([ (js "provider_type", providerType);
       (js "template_name", name selectedTemplate) ]
     ++ (if truthy customSubscriptionId
         then [ (js "subscription_id", customSubscriptionId) ] else [])
     ++ [ (js "resource_group", coreResourceGroup);
          (js "location", coreLocation);
          (js "parameters", VObject templateParameters) ]).

End WithJsonParse.

End DeployPage.

(* ===================================================================== *)
(** * The React user-management page                                     *)
(* ===================================================================== *)

Module UserManagement.

Definition permissions : list (JsString * value) :=
  [ (js "admin", VArray [VString (js "read"); VString (js "write");
                         VString (js "delete"); VString (js "manage_users")]);
    (js "user", VArray [VString (js "read"); VString (js "write")]);
    (js "viewer", VArray [VString (js "read")]) ].

(** [permissions[role] || []]. *)
Definition getRolePermissions (role : JsString) : value :=
  or_else (lookupProp permissions role) (VArray []).

End UserManagement.

(* ===================================================================== *)
(** * The specification's vocabulary                                     *)
(* ===================================================================== *)

(** Definitions that follow the specification's words, to state its
    claims against the code above. *)
Module Spec.
Import Utils Deployments DeployPage.

(** The character set as the specification writes it. *)
Definition rgNameCharset : JsString :=
  js "ABCDEFGHIJKLMNOPQRSTUVWXYZabcdefghijklmnopqrstuvwxyz0123456789._-".

(** The specification's [[A-Za-z0-9._-]{1,90}]. *)
Definition specRgName (s : JsString) : Prop :=
  Forall (fun c => c ∈ rgNameCharset) s /\ 1 <= length s <= 90.

(** The live validation accepts a field when it marks it [is-valid]. *)
Definition accepted (f : Field) : bool := existsb (strEq (js "is-valid")) (classList f).

(** An error of [validateDeploymentParameters] is about the resource
    group when it names it (the test [highlightValidationErrors] uses). *)
Definition rgError (e : JsString) : bool := includes e (js "Resource Group Name").

(** An empty or white-space-only text, or no value at all. *)
Definition blank (v : value) : Prop :=
  v = VUndefined \/ exists s, v = VString s /\ trim s = [].

(** The permission names in the array a role is given. *)
Definition permissionNames (v : value) : list JsString :=
  match v with
  | VArray items =>
      omap (fun item => match item with VString s => Some s | _ => None end) items
  | _ => []
  end.

(** [v.k] as data: the property [k] of an object, [undefined] where
    there is none. *)
Definition field (v : value) (k : JsString) : value :=
  match v with
  | VObject props =>
      match assoc props k with
      | Some x => x
      | None => VUndefined
      end
  | _ => VUndefined
  end.

(** A reply reports a terminal provisioning state: the response is [ok]
    and its body's [provisioningState] is [Succeeded] or [Failed]. *)
Definition terminalState (reply : StatusReply) : bool :=
  match reply with
  | StatusResponse true (Normal status) =>
      isString (field status (js "provisioningState")) (js "Succeeded")
      || isString (field status (js "provisioningState")) (js "Failed")
  | _ => false
  end.

Definition isWarning (n : Notice) : bool :=
  match n with
  | NoticeWarning _ => true
  | _ => false
  end.

(** The number of timeout warnings a run showed. *)
Definition warnings (m : Monitor) : nat := length (List.filter isWarning (trace m)).

(** A provider type names a cloud when it is a text that contains the
    cloud's name: [terraform-azure], [terraform-gcp], [gcp], ... *)
Definition names (providerType : value) (cloud : JsString) : bool :=
  match providerType with
  | VString s => includes s cloud
  | _ => false
  end.

(** The stored cloud-credential settings: the session's, else the
    browser's, when the text is there and is JSON. *)
Definition storedSettings (JSON_parse : JsString -> option value)
    (sessionStorage localStorage : gmap JsString JsString) : option value :=
  let text :=
    match sessionStorage !! js "cloudCredentials" with
    | Some (c :: r) => Some (c :: r)
    | Some [] | None => localStorage !! js "cloudCredentials"
    end in
  match text with
  | Some (c :: r) => JSON_parse (c :: r)
  | Some [] | None => None
  end.

(** A cloud's section of the settings is in custom mode. *)
Definition customModeOf (settings : value) (cloud : JsString) : bool :=
  isString (field (field settings cloud) (js "mode")) (js "custom").

Definition present (credential : value) : option value :=
  if truthy credential then Some credential else None.

(** The custom credential the settings hold for the selected provider:
    the Azure subscription for an Azure provider type whose section is in
    custom mode, the GCP project for a GCP one.  (A provider type naming
    both clouds is looked up as Azure first.) *)
Definition customCredential (providerType settings : value) : option value :=
  if names providerType (js "azure") && customModeOf settings (js "azure") then
    present (field (field settings (js "azure")) (js "subscriptionId"))
  else if names providerType (js "gcp") && customModeOf settings (js "gcp") then
    present (field (field settings (js "gcp")) (js "projectId"))
  else None.

(** The three cascade functions are one function over the columns of
    their tables: [parent], [child] and [leaf] read a row's three cells. *)
Definition cascadeUpdate {R : Type} (parent child leaf : R -> JsString)
    (table : list R) (dom : Cascade) : Cascade :=
  let selectedParent := selectValue (parentSelect dom) in
  let filteredByParent := List.filter (fun x => strEq (parent x) selectedParent) table in
  let children := uniq (List.map child filteredByParent) in
  let childSel := setOptions children (childSelect dom) in
  let selectedChild := valueOrFirst childSel children in
  let filteredByChild := List.filter (fun x => matches (child x) selectedChild) filteredByParent in
  let leaves := uniq (List.map leaf filteredByChild) in
  let leafSel := setOptions leaves (leafSelect dom) in
  {| parentSelect := parentSelect dom;
     childSelect := setValue selectedChild childSel;
     leafSelect := setValue (head leaves) leafSel |}.

(** The cascade invariant of the specification, for a table with columns
    [parent], [child], [leaf] and the elements after an update: each
    child's selected value is one of its options, the options are the
    values the table allows under the selection upstream, and each child
    shows the first of its options. *)
Definition cascadeInvariant {R : Type} (parent child leaf : R -> JsString)
    (table : list R) (dom : Cascade) : Prop :=
  let p := selectValue (parentSelect dom) in
  let c := selectValue (childSelect dom) in
  let l := selectValue (leafSelect dom) in
  (forall v, v ∈ options (childSelect dom) <->
             exists row, row ∈ table /\ parent row = p /\ child row = v) /\
  (forall v, v ∈ options (leafSelect dom) <->
             exists row, row ∈ table /\ parent row = p /\ child row = c /\ leaf row = v) /\
  c ∈ options (childSelect dom) /\
  l ∈ options (leafSelect dom) /\
  head (options (childSelect dom)) = Some c /\
  head (options (leafSelect dom)) = Some l.

(** The case mappings on ASCII text, to run the filters on examples. *)
Definition asciiUpper (s : JsString) : JsString :=
  List.map (fun c => if ((0x61 <=? c) && (c <=? 0x7A))%N then (c - 32)%N else c) s.

Definition asciiLower (s : JsString) : JsString :=
  List.map (fun c => if ((0x41 <=? c) && (c <=? 0x5A))%N then (c + 32)%N else c) s.

(** A filter step that is switched on or off by a condition on the
    filter's setting: the shape of each of the three steps of the log
    viewer's filter effect. *)
Definition filterWhen {A : Type} (on : bool) (keep : A -> bool) (l : list A) : list A :=
  if on then List.filter keep l else l.

End Spec.

(* ===================================================================== *)
(** * DeploymentLogViewer.jsx: the event source                          *)
(* ===================================================================== *)

Module LogStream.
Import LogViewer.

(** What the event source delivers: a message with its data, or an
    error. *)
Inductive StreamEvent : Type :=
| MessageEvent (event_data : JsString)
| ErrorEvent.

(** [eventSource.onerror]: the error goes to the console, the source is
    closed. *)
Definition onerror (st : State) : State := closeEventSource st.

Section WithParser.

Variable JSON_parse : JsString -> option value.

(** An event source fires its handlers only while it is open: once
    [close] has been called nothing more is dispatched. *)
Definition dispatch (st : State) (ev : StreamEvent) : State :=
  if eventSourceOpen st then
    match ev with
    | MessageEvent event_data => onmessage JSON_parse event_data st
    | ErrorEvent => onerror st
    end
  else st.

(** The events of a stream, in order of arrival. *)
Definition receive (events : list StreamEvent) (st : State) : State :=
  fold_left dispatch events st.

End WithParser.

(** The list the filter effect computes from a log list under given
    filter settings: its three steps, in the effect's order. *)
Definition viewOf (toUpperCase toLowerCase : JsString -> JsString)
    (lf pf q : JsString) (l : list LogEntry) : completion (list LogEntry) :=
  let* filtered := filterLevel lf l in
  let* filtered := filterPhase toUpperCase pf filtered in
  filterSearch toLowerCase q filtered.

End LogStream.

(* ===================================================================== *)
(** * The React authentication context, the route guard and the routes   *)
(* ===================================================================== *)

Module Auth.
Import DeployPage.

(** The context's state. *)
Record AuthState : Type := mkAuth {
  user : value;
  token : value;
  loading : bool;
  isAuthenticated : bool
}.

(** The state a freshly loaded page starts from. *)
Definition initialState : AuthState :=
  {| user := VNull; token := VNull; loading := true; isAuthenticated := false |}.

Definition setLoading (b : bool) (st : AuthState) : AuthState :=
  {| user := user st; token := token st; loading := b;
     isAuthenticated := isAuthenticated st |}.

(** What an API call comes back with: a response, or the error the
    promise rejects with. *)
Inductive ApiOutcome : Type :=
| Fulfilled (response : value)
| RejectedWith (error : value).

(** [logout]: both items leave the storage, the state is cleared. *)
Definition logout (localStorage : gmap JsString JsString) (st : AuthState)
    : gmap JsString JsString * AuthState :=
  (delete (js "auth_user") (delete (js "auth_token") localStorage),
   {| user := VNull; token := VNull; loading := loading st; isAuthenticated := false |}).

(** [a?.b] where the rest of an optional chain is skipped with [a]:
    [None] is the chain already cut short. *)
Definition chain (v : option value) (k : JsString) : completion (option value) :=
  match v with
  | None => Normal None
  | Some (VUndefined | VNull) => Normal None
  | Some w => let* x := getProp w k in Normal (Some x)
  end.

Definition chained (v : option value) : value := default VUndefined v.

(** [error.response?.data?.key]. *)
Definition responseData (error : value) (key : JsString) : completion value :=
  let* response := getProp error (js "response") in
  let* data := chain (Some response) (js "data") in
  let* x := chain data key in
  Normal (chained x).

(** [error.response?.status]. *)
Definition responseStatus (error : value) : completion value :=
  let* response := getProp error (js "response") in
  let* status := chain (Some response) (js "status") in
  Normal (chained status).

(** The error a failing step inside a [try] block throws: an [Error]
    object of the engine, which has a message and no [response]. *)
Definition engineError (message : JsString) : value :=
  VObject [ (js "message", VString message) ].

(** The own enumerable properties an object spread copies. *)
Definition indexKey (i : nat) : JsString := js (pretty i).

Definition spread (v : value) : list (JsString * value) :=
  match v with
  | VObject props => props
  | VArray items => imap (fun i x => (indexKey i, x)) items
  | VString s => imap (fun i c => (indexKey i, VString [c])) s
  | _ => []
  end.

(** A property set in an object literal after a spread: an existing key
    keeps its place and takes the new value, a new key goes last. *)
Fixpoint setProp (props : list (JsString * value)) (k : JsString) (v : value)
    : list (JsString * value) :=
  match props with
  | [] => [ (k, v) ]
  | (k', v') :: rest =>
      if strEq k' k then (k', v) :: rest else (k', v') :: setProp rest k v
  end.

Section WithJson.

Variable JSON_parse : JsString -> option value.
(** [JSON.stringify] (a text, or [undefined]), and [String] on values
    that are not text. *)
Variable JSON_stringify : value -> value.
Variable String_of : value -> JsString.
(** The message of the engine's [TypeError]. *)
Variable typeErrorMessage : JsString.

(** [localStorage.setItem(key, v)]: the value is stored as text. *)
Definition toText (v : value) : JsString :=
  match v with
  | VString s => s
  | _ => String_of v
  end.

Definition setItem (localStorage : gmap JsString JsString) (key : JsString)
    (v : value) : gmap JsString JsString :=
  <[key := toText v]> localStorage.

(** The effect run when the provider mounts: the session is read back
    from the storage. *)
Definition mountEffect (localStorage : gmap JsString JsString) (st : AuthState)
    : gmap JsString JsString * AuthState :=
  let storedToken := getItem localStorage (js "auth_token") in
  let storedUser := getItem localStorage (js "auth_user") in
  let '(localStorage, st) :=
    if truthy storedToken && truthy storedUser then
      match storedUser with
      | VString text =>
          match JSON_parse text with
          | Some parsedUser =>
              (localStorage,
               {| user := parsedUser; token := storedToken; loading := loading st;
                  isAuthenticated := true |})
          | None => logout localStorage st
          end
      | _ => logout localStorage st
      end
    else (localStorage, st) in
  (localStorage, setLoading false st).

(** An API outcome as the [try] block sees it: the response, or the
    error that reaches the [catch]. *)
Definition failWith {A : Type} (c : completion A) : A + value :=
  match c with
  | Normal a => inl a
  | Throw _ => inr (engineError typeErrorMessage)
  end.

(** What [login] resolves to, with the storage and the state after it;
    [Throw] when the [catch] block itself throws. *)
Definition loginFailure (error : value) (fallback : JsString) : completion value :=
  let* detail := responseData error (js "detail") in
  let* message :=
    if truthy detail then Normal detail else responseData error (js "message") in
  Normal (VObject [ (js "success", VBool false);
                    (js "error", or_else message (VString fallback)) ]).

Definition login (outcome : ApiOutcome)
    (localStorage : gmap JsString JsString) (st : AuthState)
    : completion (gmap JsString JsString * AuthState * value) :=
  let attempt : (gmap JsString JsString * AuthState * value) + value :=
    match outcome with
    | RejectedWith error => inr error
    | Fulfilled response =>
        failWith
          (let* data := getProp response (js "data") in
           let* success := getProp data (js "success") in
           if truthy success then
             let* inner := getProp data (js "data") in
             let* access_token := getProp inner (js "access_token") in
             let* userData := getProp inner (js "user") in
             let localStorage := setItem localStorage (js "auth_token") access_token in
             let localStorage :=
               setItem localStorage (js "auth_user") (JSON_stringify userData) in
             Normal (localStorage,
                     {| user := userData; token := access_token;
                        loading := loading st; isAuthenticated := true |},
                     VObject [ (js "success", VBool true); (js "user", userData) ])
           else
             let* message := getProp data (js "message") in
             Normal (localStorage, st,
                     VObject [ (js "success", VBool false);
                               (js "error", or_else message (VString (js "Login failed"))) ]))
    end in
  match attempt with
  | inl done => Normal done
  | inr error =>
      let* result := loginFailure error (js "Login failed") in
      Normal (localStorage, st, result)
  end.

(** [getCurrentUser]: the storage and state after it, what it resolves
    to, and whether the API was called at all. *)
Definition getCurrentUser (outcome : ApiOutcome)
    (localStorage : gmap JsString JsString) (st : AuthState)
    : completion (gmap JsString JsString * AuthState * value * bool) :=
  if negb (truthy (token st)) then Normal (localStorage, st, VNull, false)
  else
    let attempt : (gmap JsString JsString * AuthState * value) + value :=
      match outcome with
      | RejectedWith error => inr error
      | Fulfilled response =>
          failWith
            (let* data := getProp response (js "data") in
             let* success := getProp data (js "success") in
             if truthy success then
               let* inner := getProp data (js "data") in
               let* userData := getProp inner (js "user") in
               let* inner' := getProp data (js "data") in
               let* permissions := getProp inner' (js "permissions") in
               let userWithPermissions :=
                 VObject (setProp (spread userData) (js "permissions") permissions) in
               let localStorage :=
                 setItem localStorage (js "auth_user") (JSON_stringify userWithPermissions) in
               Normal (localStorage,
                       {| user := userWithPermissions; token := token st;
                          loading := loading st; isAuthenticated := isAuthenticated st |},
                       userWithPermissions)
             else Normal (localStorage, st, VNull))
      end in
    match attempt with
    | inl (localStorage, st, result) => Normal (localStorage, st, result, true)
    | inr error =>
        let* status := responseStatus error in
        match status with
        | VNumber 401 =>
            let '(localStorage, st) := logout localStorage st in
            Normal (localStorage, st, VNull, true)
        | _ => Normal (localStorage, st, VNull, true)
        end
    end.

End WithJson.

(** [hasPermission]: [user.permissions.includes(permission)] finds the
    permission in an array, or in a text as a part of it; anything else
    that is truthy has no [includes] to call. *)
Definition hasPermission (st : AuthState) (permission : JsString) : completion bool :=
  if negb (truthy (user st)) then Normal false
  else
    let* permissions := getProp (user st) (js "permissions") in
    if negb (truthy permissions) then Normal false
    else
      match permissions with
      | VArray items => Normal (existsb (fun item => isString item permission) items)
      | VString s => Normal (includes s permission)
      | _ => Throw TypeError
      end.

(** [user?.role === 'admin']. *)
Definition isAdmin (st : AuthState) : bool :=
  match user st with
  | VUndefined | VNull => false
  | u => match getProp u (js "role") with
         | Normal role => isString role (js "admin")
         | Throw _ => false
         end
  end.

(** What [ProtectedRoute] renders. *)
Inductive Rendered : Type :=
| LoadingState
| NavigateTo (path : JsString)
| Children.

(** [ProtectedRoute]; [requiredPermission] is [None] for [null]. *)
Definition ProtectedRoute (st : AuthState) (requireAuth : bool)
    (requiredPermission : option JsString) : completion Rendered :=
  if loading st then Normal LoadingState
  else if requireAuth && negb (isAuthenticated st) then Normal (NavigateTo (js "/login"))
  else
    match requiredPermission with
    | Some (c :: r) =>
        let* has := hasPermission st (c :: r) in
        if negb has then Normal (NavigateTo (js "/")) else Normal Children
    | Some [] | None => Normal Children
    end.

(** The protected routes of the application, each with the permission
    it asks for; all of them leave [requireAuth] at its default. *)
Definition protectedRoutes : list (JsString * option JsString) :=
  [ (js "/", None);
    (js "/deploy", Some (js "write"));
    (js "/deploy/:provider/:template", Some (js "write"));
    (js "/deployments", None);
    (js "/deployments/:id", None);
    (js "/users", Some (js "manage_users"));
    (js "/settings", None) ].

End Auth.

(* ===================================================================== *)
(** * More of the vanilla front end's deployment script                  *)
(* ===================================================================== *)

Module DeploymentsPage.
Import Utils Deployments.

(** ** Live validation of the location *)

Definition validateLocation (field : Field) : Field :=
  let value := trim (field_value field) in
  let field := classRemove [js "is-invalid"; js "is-valid"] field in
  if bool_decide (value = []) then
    showFieldError (classAdd (js "is-invalid") field) (js "Location is required")
  else
    hideFieldError (classAdd (js "is-valid") field).

(** An error of [validateDeploymentParameters] is about the location when
    it names it (the test [highlightValidationErrors] uses). *)
Definition locationError (e : JsString) : bool := includes e (js "Location").

(** ** Polling for deployment updates *)

(** The window's interval timers: the handles of those that are set, and
    the handle the next [setInterval] returns.  Handles are positive and
    never handed out twice. *)
Record Timers : Type := mkTimers {
  active : gset nat;
  nextHandle : nat
}.

Definition setInterval (t : Timers) : nat * Timers :=
  (nextHandle t,
   {| active := {[nextHandle t]} ∪ active t; nextHandle := S (nextHandle t) |}).

Definition clearInterval (handle : nat) (t : Timers) : Timers :=
  {| active := active t ∖ {[handle]}; nextHandle := nextHandle t |}.

(** The timers are well formed: every handle in use is positive and
    below the next one. *)
Definition timersOk (t : Timers) : Prop :=
  0 < nextHandle t /\ forall h, h ∈ active t -> 0 < h < nextHandle t.

(** The script's global [deploymentPollingInterval] ([None] is [null])
    and the timers. *)
Record Polling : Type := mkPolling {
  deploymentPollingInterval : option nat;
  timers : Timers
}.

(** [if (deploymentPollingInterval)]: a handle that is not zero. *)
Definition isSet (handle : option nat) : bool :=
  match handle with
  | Some (S _) => true
  | Some O | None => false
  end.

Definition startDeploymentPolling (p : Polling) : Polling :=
  let timers :=
    match deploymentPollingInterval p with
    | Some handle => if isSet (Some handle) then clearInterval handle (timers p) else timers p
    | None => timers p
    end in
  let '(handle, timers) := setInterval timers in
  {| deploymentPollingInterval := Some handle; timers := timers |}.

Definition stopDeploymentPolling (p : Polling) : Polling :=
  match deploymentPollingInterval p with
  | Some handle =>
      if isSet (Some handle) then
        {| deploymentPollingInterval := None; timers := clearInterval handle (timers p) |}
      else p
  | None => p
  end.

Inductive PollingCall : Type := Start | Stop.

Definition call (p : Polling) (c : PollingCall) : Polling :=
  match c with
  | Start => startDeploymentPolling p
  | Stop => stopDeploymentPolling p
  end.

(** What holds of the polling state after any calls, relative to the
    timers [base] that were set before the first one. *)
Definition pollingInv (base : gset nat) (p : Polling) : Prop :=
  timersOk (timers p) /\
  (forall h, h ∈ base -> h < nextHandle (timers p)) /\
  match deploymentPollingInterval p with
  | Some h => 0 < h /\ (h ∉ base) /\ active (timers p) = base ∪ {[h]}
  | None => active (timers p) = base
  end.

(** ** Template cards *)

Definition templateIcons : list (JsString * value) :=
  [ (js "storage account", VString (js "bi-hdd-stack"));
    (js "web app", VString (js "bi-globe"));
    (js "virtual machine", VString (js "bi-pc-display"));
    (js "virtual machine ss", VString (js "bi-pc-display-horizontal"));
    (js "virtual network", VString (js "bi-diagram-3"));
    (js "function app", VString (js "bi-code-slash"));
    (js "sql", VString (js "bi-server"));
    (js "cosmos db", VString (js "bi-server"));
    (js "keyvault", VString (js "bi-lock"));
    (js "key vault", VString (js "bi-key"));
    (js "load balancer", VString (js "bi-share"));
    (js "public ip", VString (js "bi-globe"));
    (js "nsg", VString (js "bi-shield-check"));
    (js "network security group", VString (js "bi-shield-check"));
    (js "aks", VString (js "bi-boxes"));
    (js "log analytics", VString (js "bi-graph-up-arrow"));
    (js "diagnostic settings", VString (js "bi-activity"));
    (js "default", VString (js "bi-file-earmark")) ].

(** [s.replace(/\s+/g, '')]: the class [\s] is the white space [trim]
    strips. *)
Definition removeWhiteSpace (s : JsString) : JsString :=
  List.filter (fun c => negb (isWhiteSpace c)) s.

Section WithCaseMapping.

Variable toLowerCase : JsString -> JsString.

Definition callToLowerCase (v : value) : completion JsString :=
  match v with
  | VString s => Normal (toLowerCase s)
  | _ => Throw TypeError
  end.

(** The icon class [loadTemplates] gives the card of a template, an
    element of the array the server sent; [Throw] when computing it
    throws (the whole list then fails to load). *)
Definition iconClassOf (template : value) : completion JsString :=
  let* name := getProp template (js "template") in
  let* lower := callToLowerCase name in
  let templateNameClean := removeWhiteSpace lower in
  let* icon := getProp template (js "icon") in
  let iconClass :=
    or_else (or_else (or_else icon (lookupProp templateIcons templateNameClean))
                     (lookupProp templateIcons lower))
            (VString (js "bi-file-earmark")) in
  match iconClass with
  | VString s => Normal (if negb (startsWith s (js "bi-")) then js "bi-" ++ s else s)
  | _ => Throw TypeError
  end.

End WithCaseMapping.

End DeploymentsPage.

(* ===================================================================== *)
(** * The change listeners of the cascading dropdowns (utils.js)         *)
(* ===================================================================== *)

Module CascadeListeners.
Import Utils.

(** The user picks [choice] in the child drop-down (the tier, the
    compute size, the replication): the element takes that value, and its
    [change] event fires. *)
Definition chooseChild (choice : JsString) (dom : Cascade) : Cascade :=
  {| parentSelect := parentSelect dom;
     childSelect := setValue (Some choice) (childSelect dom);
     leafSelect := leafSelect dom |}.

(** [setupAppServicePlanDropdownListeners], [setupSqlDropdownListeners]
    and [setupStorageDropdownListeners] register the update itself as the
    [change] listener of the child element. *)
Definition onTierChange (plans : list AppServicePlan)
    (choice : JsString) (dom : Cascade) : Cascade :=
  updateAppServicePlanDropdowns plans (chooseChild choice dom).

Definition onComputeChange (editions : list SqlEdition)
    (choice : JsString) (dom : Cascade) : Cascade :=
  updateSqlDropdowns editions (chooseChild choice dom).

Definition onReplicationChange (accounts : list StorageAccount)
    (choice : JsString) (dom : Cascade) : Cascade :=
  updateStorageDropdowns accounts (chooseChild choice dom).

End CascadeListeners.

(* ===================================================================== *)
(** * The deploy page's form                                             *)
(* ===================================================================== *)

Module DeployForm.

(** The names of the form's two credential fields. *)
Definition credentialFields : list JsString :=
  [ js "subscription_id"; js "project_id" ].

(** A form without its credential fields. *)
Definition withoutCredentials (formData : list (JsString * value))
    : list (JsString * value) :=
  List.filter (fun kv => negb (existsb (strEq (fst kv)) credentialFields)) formData.

End DeployForm.

(* ===================================================================== *)
(** * The deploy page after the request                                  *)
(* ===================================================================== *)

Module DeployOutcome.
Import Deployments Auth.

(** The page's state: the [deploying] flag, the deployment whose logs
    are shown, the error banner, and the toasts raised so far (message
    and kind). *)
Record PageState : Type := mkPage {
  deploying : bool;
  deploymentId : value;
  error : value;
  toasts : list (value * JsString)
}.

(** [typeof v === 'object']. *)
Definition typeofObject (v : value) : bool :=
  match v with
  | VNull | VArray _ | VObject _ => true
  | VBuiltin k => strEq k (js "__proto__")
  | _ => false
  end.

(** [typeof v === 'string']. *)
Definition typeofString (v : value) : bool :=
  match v with
  | VString _ => true
  | _ => false
  end.

Definition isArray (v : value) : bool :=
  match v with
  | VArray _ => true
  | _ => false
  end.

(** [v === n] for a number literal [n]. *)
Definition isNumber (v : value) (n : Z) : bool :=
  match v with
  | VNumber m => (m =? n)%Z
  | _ => false
  end.

Fixpoint mapM {A B : Type} (f : A -> completion B) (l : list A) : completion (list B) :=
  match l with
  | [] => Normal []
  | x :: rest =>
      let* y := f x in
      let* ys := mapM f rest in
      Normal (y :: ys)
  end.

Section WithConversions.

(** [String(v)] on a value that is not a text; it throws on an object
    that cannot be converted.  [JSON.stringify] gives a text, or
    [undefined]. *)
Variable String_of : value -> completion JsString.
Variable JSON_stringify : value -> value.
(** The message of the engine's [TypeError]. *)
Variable typeErrorMessage : JsString.

Definition toText (v : value) : completion JsString :=
  match v with
  | VString s => Normal s
  | _ => String_of v
  end.

(** An element of an array as [join] writes it. *)
Definition joinElement (v : value) : completion JsString :=
  match v with
  | VUndefined | VNull => Normal []
  | _ => toText v
  end.

(** [v?.join(sep)]: arrays have the method. *)
Definition callJoinOpt (v : value) (sep : JsString) : completion value :=
  match v with
  | VUndefined | VNull => Normal VUndefined
  | VArray items =>
      let* texts := mapM joinElement items in
      Normal (VString (join sep texts))
  | _ => Throw TypeError
  end.

(** The callback of [detail.map]: one validation error, as text. *)
Definition describe (error : value) : completion JsString :=
  let* loc := getProp error (js "loc") in
  let* joined := callJoinOpt loc (js ".") in
  let field := or_else joined (VString (js "unknown")) in
  let* fieldText := toText field in
  let* msg := getProp error (js "msg") in
  let* msgText := toText msg in
  Normal (fieldText ++ js ": " ++ msgText).

(** The message the [catch] block of [handleDeploy] works out for the
    error it caught; [Throw] when working it out throws.  Reading a
    property of data has no effect and, past the first read of [err],
    does not throw, so each is read once here. *)
Definition errorMessageOf (err : value) : completion value :=
  let errorMessage := VString (js "Failed to create deployment") in
  let* status := responseStatus err in
  let* detail := responseData err (js "detail") in
  if isNumber status 422 && isArray detail then
    match detail with
    | VArray items =>
        let* validationErrors := mapM describe items in
        Normal (VString (js "Validation Error: " ++ join (js ", ") validationErrors))
    | _ => Throw TypeError
    end
  else
    let* error := responseData err (js "error") in
    if truthy error then
      if typeofObject error then
        let* message := getProp error (js "message") in
        let* details := getProp error (js "details") in
        Normal (or_else (or_else message details) (JSON_stringify error))
      else Normal error
    else
      let* message := responseData err (js "message") in
      if truthy message then Normal message
      else if truthy detail && typeofString detail then Normal detail
      else
        let* message := getProp err (js "message") in
        if truthy message then Normal message else Normal errorMessage.

(** [handleDeploy] from the request on.  [attempt] is what the [try]
    block came to: the payload's request and its outcome, or an error
    thrown before any request.  [Throw]: the [catch] block itself threw,
    and the promise of [handleDeploy] rejects. *)
Definition settle (attempt : completion ApiOutcome) (st : PageState)
    : completion PageState :=
  let st := {| deploying := true; deploymentId := deploymentId st;
               error := VNull; toasts := toasts st |} in
  let tried : PageState + value :=
    match attempt with
    | Throw _ => inr (engineError typeErrorMessage)
    | Normal (RejectedWith err) => inr err
    | Normal (Fulfilled response) =>
        failWith typeErrorMessage
          (let* data := getProp response (js "data") in
           let* success := getProp data (js "success") in
           if truthy success then
             let* inner := getProp data (js "data") in
             let* newDeploymentId := getProp inner (js "deployment_id") in
             Normal {| deploying := deploying st; deploymentId := newDeploymentId;
                       error := error st;
                       toasts := toasts st ++
                         [ (VString (js "Deployment created successfully! Starting deployment..."),
                            js "success") ] |}
           else Normal st)
    end in
  match tried with
  | inl st => Normal st
  | inr err =>
      let* errorMessage := errorMessageOf err in
      Normal {| deploying := false; deploymentId := deploymentId st;
                error := errorMessage;
                toasts := toasts st ++ [ (errorMessage, js "error") ] |}
  end.

End WithConversions.

End DeployOutcome.

(* ===================================================================== *)
(** * What a monitoring run leaves behind                                *)
(* ===================================================================== *)

Module MonitorTrace.
Import Deployments.

Definition isSetInterval (n : Notice) : bool :=
  match n with
  | SetInterval => true
  | _ => false
  end.

Definition isClearInterval (n : Notice) : bool :=
  match n with
  | ClearInterval => true
  | _ => false
  end.

(** The toasts that tell the user how monitoring ended. *)
Definition isVerdict (n : Notice) : bool :=
  match n with
  | NoticeSuccess _ | NoticeError _ | NoticeWarning _ => true
  | _ => false
  end.

Definition isLoadDeployments (n : Notice) : bool :=
  match n with
  | LoadDeployments => true
  | _ => false
  end.

Definition count (kind : Notice -> bool) (m : Monitor) : nat :=
  length (List.filter kind (trace m)).

(** The interval was set; it is still running; it was cleared; the
    function returned without setting it. *)
Definition intervalSet (p : Phase) : bool :=
  match p with
  | Polling _ | Stopped _ => true
  | FirstCheck | Returned => false
  end.

Definition intervalRunning (p : Phase) : bool :=
  match p with
  | Polling _ => true
  | _ => false
  end.

Definition intervalCleared (p : Phase) : bool :=
  match p with
  | Stopped _ => true
  | _ => false
  end.

Definition returned (p : Phase) : bool :=
  match p with
  | Returned => true
  | _ => false
  end.

(** The trace of a run agrees with where the run stands. *)
Definition accounts (run : Run) : Prop :=
  count isSetInterval (monitor run) = (if intervalSet (phase run) then 1 else 0) /\
  (0 <? count isClearInterval (monitor run)) = intervalCleared (phase run) /\
  count isVerdict (monitor run)
  = count isClearInterval (monitor run) + (if returned (phase run) then 1 else 0) /\
  count isLoadDeployments (monitor run) + Spec.warnings (monitor run)
  = count isVerdict (monitor run).

End MonitorTrace.

(* ===================================================================== *)
(** * The deploy page's credentials indicator                            *)
(* ===================================================================== *)

Module CredentialsInfo.
Import DeployPage.

(** What the indicator shows. *)
Record Info : Type := mkInfo {
  provider : JsString;
  type : JsString;
  id : value
}.

(** [v?.substring(0, 8) + '...']: texts have the method; without a value
    the sum is made with [undefined]. *)
Definition shortId (v : value) : completion value :=
  match v with
  | VUndefined | VNull => Normal (VString (js "undefined..."))
  | VString s => Normal (VString (firstn 8 s ++ js "..."))
  | _ => Throw TypeError
  end.

(** [settings[cloud]?.mode === 'custom']. *)
Definition customSection (settings : value) (cloud : JsString) : completion bool :=
  let* section := getProp settings cloud in
  let* mode := getPropOpt section (js "mode") in
  Normal (isString mode (js "custom")).

Section WithJsonParse.

Variable JSON_parse : JsString -> option value.

(** The body of the [try] block: what it returns, [None] when control
    leaves it without a [return]. *)
Definition readInfo (provider savedSettings : value) : completion (option Info) :=
  let* settings := parseSettings JSON_parse savedSettings in
  let* azureCustom :=
    if isString provider (js "azure") then customSection settings (js "azure")
    else Normal false in
  if azureCustom then
    let* section := getProp settings (js "azure") in
    let* subscriptionId := getProp section (js "subscriptionId") in
    let* id := shortId subscriptionId in
    Normal (Some {| provider := js "Azure"; type := js "Custom"; id := id |})
  else
    let* gcpCustom :=
      if isString provider (js "gcp") then customSection settings (js "gcp")
      else Normal false in
    if gcpCustom then
      let* section := getProp settings (js "gcp") in
      let* projectId := getProp section (js "projectId") in
      Normal (Some {| provider := js "GCP"; type := js "Custom"; id := projectId |})
    else Normal None.

(** [getCredentialsInfo]; [None] is [null]. *)
Definition getCredentialsInfo (sessionStorage localStorage : gmap JsString JsString)
    (selectedTemplate : option Template) : option Info :=
  let savedSettings :=
    or_else (getItem sessionStorage (js "cloudCredentials"))
            (getItem localStorage (js "cloudCredentials")) in
  if negb (truthy savedSettings) then None
  else
    let provider :=
      match selectedTemplate with
      | Some template => VString (cloud_provider template)
      | None => VUndefined
      end in
    tryCatch (readInfo provider savedSettings) None.

End WithJsonParse.

End CredentialsInfo.

(* ===================================================================== *)
(** * frontend-v3/src/pages/DeploymentDetails.jsx                        *)
(* ===================================================================== *)

Module DeploymentDetails.
Import Utils Deployments Auth.

(** ** Display names *)

(** [name.split('-')]. *)
Fixpoint split (sep : CodeUnit) (s : JsString) : list JsString :=
  match s with
  | [] => [ [] ]
  | c :: rest =>
      if (c =? sep)%N then [] :: split sep rest
      else
        match split sep rest with
        | word :: words => (c :: word) :: words
        | [] => [ [c] ]
        end
  end.

Definition dash : CodeUnit := 0x2D%N.

Section WithCaseMapping.

Variable toUpperCase : JsString -> JsString.

(** [word.charAt(0).toUpperCase() + word.slice(1)]. *)
Definition capitalize (word : JsString) : JsString :=
  toUpperCase (firstn 1 word) ++ skipn 1 word.

(** [formatTemplateName]; a name that is not a text has no [split]. *)
Definition formatTemplateName (name : value) : completion value :=
  if negb (truthy name) then Normal name
  else
    match name with
    | VString s => Normal (VString (join (js " ") (List.map capitalize (split dash s))))
    | _ => Throw TypeError
    end.

End WithCaseMapping.

(** The provider types the backend uses. *)
Definition backendProviderTypes : list JsString :=
  [ js "bicep"; js "terraform-azure"; js "azure"; js "terraform-gcp"; js "gcp" ].

Definition formatProviderType (providerType : value) : value :=
  if negb (truthy providerType) then VString (js "Unknown")
  else if isString providerType (js "bicep")
          || isString providerType (js "terraform-azure")
          || isString providerType (js "azure")
  then VString (js "Azure")
  else if isString providerType (js "terraform-gcp") || isString providerType (js "gcp")
  then VString (js "Google Cloud")
  else providerType.

(** ** Loading the deployment *)

Record DetailsState : Type := mkDetails {
  deployment : value;
  loading : bool;
  error : value;
  taskInfo : value
}.

Definition setDeployment (v : value) (st : DetailsState) : DetailsState :=
  {| deployment := v; loading := loading st; error := error st; taskInfo := taskInfo st |}.

Definition setLoading (b : bool) (st : DetailsState) : DetailsState :=
  {| deployment := deployment st; loading := b; error := error st; taskInfo := taskInfo st |}.

Definition setError (v : value) (st : DetailsState) : DetailsState :=
  {| deployment := deployment st; loading := loading st; error := v; taskInfo := taskInfo st |}.

Definition setTaskInfo (v : value) (st : DetailsState) : DetailsState :=
  {| deployment := deployment st; loading := loading st; error := error st; taskInfo := v |}.

(** [status === 'pending' || status === 'running']. *)
Definition inProgress (status : value) : bool :=
  isString status (js "pending") || isString status (js "running").

Section WithEngine.

(** The message of the engine's [TypeError]. *)
Variable typeErrorMessage : JsString.

(** The inner [try]: the task status is fetched and, when the answer
    says [success], kept; a failure is logged and nothing more. *)
Definition fetchTaskInfo (taskStatus : ApiOutcome) (st : DetailsState) : DetailsState :=
  match taskStatus with
  | RejectedWith _ => st
  | Fulfilled taskResponse =>
      tryCatch
        (let* data := getProp taskResponse (js "data") in
         let* success := getProp data (js "success") in
         if truthy success then
           let* info := getProp data (js "data") in
           Normal (setTaskInfo info st)
         else Normal st)
        st
  end.

(** The outer [catch]: [Throw] when reading the error throws. *)
Definition caught (err : value) (st : DetailsState) : completion DetailsState :=
  let* error := responseData err (js "error") in
  let* detail := responseData err (js "detail") in
  let* message := getProp err (js "message") in
  Normal (setError (or_else (or_else (or_else error detail) message)
                            (VString (js "Failed to fetch deployment"))) st).

(** [fetchDeployment]: the state it leaves, and whether its promise is
    rejected (the [catch] block threw).  [getById] is what the first
    request comes to, [getTaskStatus] what the second would come to for a
    task id. *)
Definition fetchDeployment (getById : ApiOutcome) (getTaskStatus : value -> ApiOutcome)
    (st : DetailsState) : DetailsState * bool :=
  let tried : DetailsState * option value :=
    match getById with
    | RejectedWith err => (st, Some err)
    | Fulfilled response =>
        match (let* data := getProp response (js "data") in getProp data (js "data")) with
        | Throw _ => (st, Some (engineError typeErrorMessage))
        | Normal deploymentData =>
            let st := setDeployment deploymentData st in
            match (let* taskId := getProp deploymentData (js "celery_task_id") in
                   let* status := getProp deploymentData (js "status") in
                   Normal (taskId, status)) with
            | Throw _ => (st, Some (engineError typeErrorMessage))
            | Normal (taskId, status) =>
                let st :=
                  if truthy taskId && inProgress status
                  then fetchTaskInfo (getTaskStatus taskId) st
                  else st in
                (setError VNull st, None)
            end
        end
    end in
  match tried with
  | (st, None) => (setLoading false st, false)
  | (st, Some err) =>
      match caught err st with
      | Normal st => (setLoading false st, false)
      | Throw _ => (setLoading false st, true)
      end
  end.

End WithEngine.

(** ** The phase steps *)

Definition phaseSteps : list JsString :=
  [ js "initializing"; js "validating"; js "planning"; js "applying"; js "finalizing" ].

Definition phasesAfter : list JsString :=
  [ js "validating"; js "planning"; js "applying"; js "finalizing"; js "completed" ].

(** [list.indexOf(v)]. *)
Definition indexOfValue (list : list JsString) (v : value) : Z :=
  match v with
  | VString s =>
      match indexOf list s with
      | Some i => Z.of_nat i
      | None => (-1)%Z
      end
  | _ => (-1)%Z
  end.

(** [taskInfo?.phase === name]. *)
Definition isActive (taskInfo : value) (name : JsString) : bool :=
  match getPropOpt taskInfo (js "phase") with
  | Normal phase => isString phase name
  | Throw _ => false
  end.

(** [taskInfo && phasesAfter.indexOf(taskInfo.phase) > phaseSteps.indexOf(name)],
    as a condition. *)
Definition isCompleted (taskInfo : value) (name : JsString) : bool :=
  truthy taskInfo &&
  match getProp taskInfo (js "phase") with
  | Normal phase =>
      (indexOfValue phaseSteps (VString name) <? indexOfValue phasesAfter phase)%Z
  | Throw _ => false
  end.

Inductive StepLook : Type := ActiveLook | CompletedLook | PendingLook.

(** The circle and the label of a step; its icon. *)
Definition circleOf (taskInfo : value) (name : JsString) : StepLook :=
  if isActive taskInfo name then ActiveLook
  else if isCompleted taskInfo name then CompletedLook
  else PendingLook.

Definition iconOf (taskInfo : value) (name : JsString) : StepLook :=
  if isCompleted taskInfo name then CompletedLook
  else if isActive taskInfo name then ActiveLook
  else PendingLook.

End DeploymentDetails.

(* ===================================================================== *)
(** * frontend-v3/src/components/ServiceCatalog.jsx                      *)
(* ===================================================================== *)

Module ServiceCatalog.

(** A category: its key in [CATEGORIES] and the template names it lists
    for each cloud. *)
Record Category : Type := mkCategory {
  key : JsString;
  azure : list JsString;
  gcp : list JsString
}.

Definition CATEGORIES : list Category :=
  [ mkCategory (js "compute")
      [ js "virtual-machine"; js "aks-cluster"; js "container-instances";
        js "container-registry"; js "vm-scale-set"; js "function-app"; js "web-app" ]
      [ js "compute-instance"; js "gke-cluster"; js "cloud-run"; js "cloud-function" ];
    mkCategory (js "storage")
      [ js "storage-account"; js "sql-database"; js "cosmos-db"; js "redis-cache" ]
      [ js "storage-bucket"; js "cloud-sql"; js "bigquery" ];
    mkCategory (js "networking")
      [ js "virtual-network"; js "network-security-group"; js "load-balancer";
        js "application-gateway"; js "vpn-gateway"; js "public-ip" ]
      [ js "vpc-network"; js "load-balancer"; js "cloud-cdn"; js "cloud-dns";
        js "cloud-armor" ];
    mkCategory (js "messaging") [ js "service-bus" ] [ js "pub-sub" ];
    mkCategory (js "management")
      [ js "key-vault"; js "log-analytics"; js "api-management"; js "data-factory" ]
      [] ].

(** A template of the catalog, as the component reads it. *)
Record Template : Type := mkTemplate {
  name : JsString;
  display_name : JsString
}.

(** The [for ... of] loop of [getTemplateCategory] over the entries that
    are left. *)
Fixpoint categoryAmong (categories : list Category) (provider templateName : JsString)
    : JsString :=
  match categories with
  | [] => js "other"
  | category :: rest =>
      let providerTemplates :=
        if strEq provider (js "azure") then azure category else gcp category in
      if existsb (strEq templateName) providerTemplates then key category
      else categoryAmong rest provider templateName
  end.

Definition getTemplateCategory (provider templateName : JsString) : JsString :=
  categoryAmong CATEGORIES provider templateName.

Section WithCaseMapping.

Variable toLowerCase : JsString -> JsString.

Definition matchesSearch (searchQuery : JsString) (template : Template) : bool :=
  includes (toLowerCase (name template)) (toLowerCase searchQuery)
  || includes (toLowerCase (display_name template)) (toLowerCase searchQuery).

Definition filteredTemplates (provider searchQuery selectedCategory : JsString)
    (templates : list Template) : list Template :=
  List.filter
    (fun template =>
       if strEq selectedCategory (js "all") then matchesSearch searchQuery template
       else matchesSearch searchQuery template
            && strEq (getTemplateCategory provider (name template)) selectedCategory)
    templates.

End WithCaseMapping.

(** [groups[category]] on the object the grouping builds. *)
Fixpoint groupOf (groups : list (JsString * list Template)) (category : JsString)
    : option (list Template) :=
  match groups with
  | [] => None
  | (k, members) :: rest => if strEq k category then Some members else groupOf rest category
  end.

(** The callback of [filteredTemplates.forEach]: the template is pushed
    to its category's array, which is made first when it is not there. *)
Fixpoint pushTo (groups : list (JsString * list Template)) (category : JsString)
    (template : Template) : list (JsString * list Template) :=
  match groups with
  | [] => [ (category, [template]) ]
  | (k, members) :: rest =>
      if strEq k category then (k, members ++ [template]) :: rest
      else (k, members) :: pushTo rest category template
  end.

Definition groupedTemplates (provider : JsString) (filtered : list Template)
    : list (JsString * list Template) :=
  fold_left
    (fun groups template =>
       pushTo groups (getTemplateCategory provider (name template)) template)
    filtered [].

(** [CATEGORIES[categoryKey]] is there. *)
Definition isCategory (categoryKey : JsString) : bool :=
  existsb (fun category => strEq (key category) categoryKey) CATEGORIES.

(** The sections of the grid: a group whose key has no entry in
    [CATEGORIES] renders as nothing. *)
Definition sections (groups : list (JsString * list Template))
    : list (JsString * list Template) :=
  List.filter (fun group => isCategory (fst group)) groups.

(** The [No templates found] message is shown. *)
Definition noResults (filtered : list Template) : bool := length filtered =? 0.

End ServiceCatalog.

(* ===================================================================== *)
(** * frontend/js/main.js                                                *)
(* ===================================================================== *)

Module Main.

(** ** The global error boundary *)

(** The toasts of the two global handlers; a detailed one carries what
    is written into its text. *)
Inductive Toast : Type :=
| UnexpectedError (detail : value)
| MultipleErrors
| OperationFailed (detail : value).

Record Boundary : Type := mkBoundary {
  errorCount : nat;
  shown : list Toast
}.

Definition maxErrors : nat := 5.

(** [v?.message || fallback]. *)
Definition messageOr (v : value) (fallback : JsString) : value :=
  or_else (tryCatch (getPropOpt v (js "message")) VUndefined) (VString fallback).

(** The listener of [error]; [error] is the event's [error]. *)
Definition onError (error : value) (b : Boundary) : Boundary :=
  let errorCount := S (errorCount b) in
  {| errorCount := errorCount;
     shown := shown b ++
       [ if errorCount <=? maxErrors
         then UnexpectedError (messageOr error (js "Unknown error"))
         else MultipleErrors ] |}.

(** The listener of [unhandledrejection]; [reason] is the event's
    [reason]. *)
Definition onUnhandledRejection (reason : value) (b : Boundary) : Boundary :=
  let errorCount := S (errorCount b) in
  {| errorCount := errorCount;
     shown := shown b ++
       (if errorCount <=? maxErrors
        then [ OperationFailed (messageOr reason (js "Network or server error")) ]
        else []) |}.

Definition resetErrorCount (b : Boundary) : Boundary :=
  {| errorCount := 0; shown := shown b |}.

(** What happens on the page, as far as the boundary is concerned: an
    error event, an unhandled rejection, or a tick of the five-minute
    interval. *)
Inductive Happening : Type :=
| ErrorEvent (error : value)
| UnhandledRejection (reason : value)
| ResetTick.

Definition handle (b : Boundary) (h : Happening) : Boundary :=
  match h with
  | ErrorEvent error => onError error b
  | UnhandledRejection reason => onUnhandledRejection reason b
  | ResetTick => resetErrorCount b
  end.

Definition isDetailed (t : Toast) : bool :=
  match t with
  | UnexpectedError _ | OperationFailed _ => true
  | MultipleErrors => false
  end.

Definition isResetTick (h : Happening) : bool :=
  match h with
  | ResetTick => true
  | _ => false
  end.

Definition isErrorEvent (h : Happening) : bool :=
  match h with
  | ErrorEvent _ => true
  | _ => false
  end.

(** ** The network status *)

(** The page as [updateNetworkStatus] sees and changes it: whether the
    body has the class [offline], and the toasts shown. *)
Inductive StatusToast : Type := ConnectionRestored | NoConnection.

Record Network : Type := mkNetwork {
  offline : bool;
  notices : list StatusToast
}.

(** [updateNetworkStatus], with [navigator.onLine] as an argument. *)
Definition updateNetworkStatus (onLine : bool) (n : Network) : Network :=
  if onLine then
    if offline n
    then {| offline := false; notices := notices n ++ [ConnectionRestored] |}
    else n
  else {| offline := true; notices := notices n ++ [NoConnection] |}.

Definition isRestored (t : StatusToast) : bool :=
  match t with
  | ConnectionRestored => true
  | NoConnection => false
  end.

End Main.

(* ===================================================================== *)
(** * frontend/js/resourceGroups.js                                      *)
(* ===================================================================== *)

Module ResourceGroups.
Import Deployments.

(** The fields [createResourceGroup] reads: the three of the modal and
    the subscription of the main form; [None] where the page has no such
    element. *)
Record CreateForm : Type := mkCreateForm {
  newResourceGroupName : option JsString;
  newResourceGroupLocation : option JsString;
  newResourceGroupSubscription : option JsString;
  subscription : option JsString
}.

(** [document.getElementById(id).value]. *)
Definition valueOf (element : option JsString) : completion JsString :=
  match element with
  | Some text => Normal text
  | None => Throw TypeError
  end.

(** What the two functions do to the page and the network, in order. *)
Inductive Action : Type :=
| ShowError (message : JsString)
| ShowSuccess (message : JsString)
| CreateRequest (name location subscription_id : JsString)
| HideModal
| LoadResourceGroups
| ConfirmDialog (rgName : JsString)
| ShowProgressDialog
| CloseProgressDialog
| DeleteRequest (rgName subscription_id : JsString)
| ReloadLater.

(** [element.value = ''] on an element that is there. *)
Definition cleared (element : option JsString) : option JsString :=
  match element with
  | Some _ => Some []
  | None => None
  end.

(** A surrogate code unit: the first or the second of a pair. *)
Definition isHighSurrogate (c : CodeUnit) : bool := ((0xD800 <=? c) && (c <=? 0xDBFF))%N.
Definition isLowSurrogate (c : CodeUnit) : bool := ((0xDC00 <=? c) && (c <=? 0xDFFF))%N.

(** The text is well-formed UTF-16: every surrogate is one of a pair.
    [encodeURIComponent] throws a [URIError] on any other text. *)
Fixpoint wellFormed (s : JsString) : bool :=
  match s with
  | [] => true
  | c :: rest =>
      if isHighSurrogate c then
        match rest with
        | d :: rest' => isLowSurrogate d && wellFormed rest'
        | [] => false
        end
      else if isLowSurrogate c then false
      else wellFormed rest
  end.

Section WithNetwork.

(** The answer to the [POST] for a name, a location and a subscription,
    and to the [DELETE] for a resource group and a subscription. *)
Variable create : JsString -> JsString -> JsString -> FetchOutcome.
Variable delete : JsString -> JsString -> FetchOutcome.
(** The message of the engine's [URIError]. *)
Variable uriErrorMessage : JsString.

(** [createResourceGroup]: what it does and the form afterwards;
    [Throw] when its promise rejects (an element is missing).
    [modalInstance] says whether Bootstrap has an instance of the modal. *)
Definition createResourceGroup (modalInstance : bool) (form : CreateForm)
    : completion (list Action * CreateForm) :=
  let* name := valueOf (newResourceGroupName form) in
  let* location := valueOf (newResourceGroupLocation form) in
  let* subscription := valueOf (newResourceGroupSubscription form) in
  let* subscription :=
    if bool_decide (subscription = []) then valueOf (ResourceGroups.subscription form)
    else Normal subscription in
  if bool_decide (name = []) || bool_decide (location = []) then
    Normal ([ ShowError (js "Please fill in the resource group name and location") ], form)
  else if bool_decide (subscription = []) then
    Normal ([ ShowError (js "Please select a subscription") ], form)
  else
    let failed (message : JsString) :=
      ([ CreateRequest name location subscription;
         ShowError (js "Failed to create resource group: " ++ message) ], form) in
    Normal
      match create name location subscription with
      | Rejected message => failed message
      | Response false text _ => failed (js "Failed to create resource group: " ++ text)
      | Response true _ (inl message) => failed message
      | Response true _ (inr _) =>
          ([ CreateRequest name location subscription;
             ShowSuccess (js "Resource group '" ++ name ++ js "' created successfully!") ]
           ++ (if modalInstance then [ HideModal ] else [])
           ++ [ LoadResourceGroups ],
           {| newResourceGroupName := cleared (newResourceGroupName form);
              newResourceGroupLocation := cleared (newResourceGroupLocation form);
              newResourceGroupSubscription := cleared (newResourceGroupSubscription form);
              subscription := ResourceGroups.subscription form |})
      end.

(** The [click] listener of a [Delete] button; [confirmed] is what the
    confirmation dialog resolves to, [subscriptionElement] the main
    form's subscription.  The request's address is made inside the [try]:
    when [encodeURIComponent] throws on the subscription, no request is
    made and the [catch] reports the [URIError]. *)
Definition deleteClicked (confirmed : bool) (subscriptionElement : option JsString)
    (rgName : JsString) : list Action :=
  ConfirmDialog rgName ::
  if negb confirmed then []
  else
    let subscription := default [] subscriptionElement in
    if bool_decide (subscription = []) then
      [ ShowError (js "Please select a subscription first") ]
    else
      ShowProgressDialog ::
      if negb (wellFormed subscription) then
        [ CloseProgressDialog;
          ShowError (js "Failed to delete resource group: " ++ uriErrorMessage) ]
      else
        DeleteRequest rgName subscription ::
        match delete rgName subscription with
        | Rejected message =>
            [ CloseProgressDialog;
              ShowError (js "Failed to delete resource group: " ++ message) ]
        | Response false text _ =>
            [ CloseProgressDialog;
              ShowError (js "Failed to delete resource group: "
                         ++ js "Failed to delete resource group: " ++ text) ]
        | Response true _ _ =>
            [ CloseProgressDialog;
              ShowSuccess (js "Resource group '" ++ rgName
                           ++ js "' deletion initiated successfully.");
              ReloadLater ]
        end.

End WithNetwork.

Definition isRequest (a : Action) : bool :=
  match a with
  | CreateRequest _ _ _ | DeleteRequest _ _ => true
  | _ => false
  end.

Definition isToast (a : Action) : bool :=
  match a with
  | ShowError _ | ShowSuccess _ => true
  | _ => false
  end.

Definition isSuccess (a : Action) : bool :=
  match a with
  | ShowSuccess _ => true
  | _ => false
  end.

End ResourceGroups.

(* ===================================================================== *)
(** * Loading the subscriptions (utils.js)                               *)
(* ===================================================================== *)

Module Subscriptions.
Import Utils Deployments DeployOutcome.

(** The subscription drop-down: its options' values with the selection,
    and whether it is disabled. *)
Record SubscriptionSelect : Type := mkSubscriptionSelect {
  element : Select;
  disabled : bool
}.

(** [select.innerHTML = '<option value="">...</option>']: one option,
    of empty value, which the drop-down then shows. *)
Definition setPlaceholder (s : SubscriptionSelect) (isDisabled : bool)
    : SubscriptionSelect :=
  {| element := setOptions [ [] ] (element s); disabled := isDisabled |}.

(** [select.appendChild(option)]: the option comes last; the selection
    stays. *)
Definition appendOptions (values : list JsString) (s : SubscriptionSelect)
    : SubscriptionSelect :=
  {| element := {| options := options (element s) ++ values;
                   selectedIndex := selectedIndex (element s) |};
     disabled := disabled s |}.

Section WithConversions.

(** [String(v)] on a value that is not a text, and the message of the
    engine's [TypeError]. *)
Variable String_of : value -> JsString.
Variable typeErrorMessage : JsString.

(** [option.value = sub.id], for each element of the answer; an answer
    that is not an array has no [forEach] to call. *)
Definition optionValues (subscriptions : value) : completion (list JsString) :=
  match subscriptions with
  | VArray items =>
      mapM (fun sub =>
              let* id := getProp sub (js "id") in
              let* _ := getProp sub (js "name") in
              Normal match id with
                     | VString text => text
                     | _ => String_of id
                     end)
           items
  | _ => Throw TypeError
  end.

(** [loadSubscriptions]: the drop-down afterwards ([None] when the page
    has none), what the function resolves to, and the error toasts. *)
Definition loadSubscriptions (outcome : FetchOutcome)
    (selectElement : option SubscriptionSelect)
    : option SubscriptionSelect * value * list JsString :=
  let selectElement := option_map (fun s => setPlaceholder s true) selectElement in
  let caught (message : JsString) :=
    (option_map (fun s => setPlaceholder s false) selectElement, VArray [],
     [ js "Failed to load subscriptions: " ++ message ]) in
  match outcome with
  | Rejected message => caught message
  | Response false _ _ =>
      (option_map (fun s => setPlaceholder s false) selectElement, VArray [], [])
  | Response true _ (inl message) => caught message
  | Response true _ (inr subscriptions) =>
      match selectElement with
      | None => (None, subscriptions, [])
      | Some s =>
          match optionValues subscriptions with
          | Normal values =>
              (Some {| element := element (appendOptions values (setPlaceholder s true));
                       disabled := false |},
               subscriptions, [])
          | Throw _ => caught typeErrorMessage
          end
      end
  end.

End WithConversions.

End Subscriptions.

(* ===================================================================== *)
(** * Theorems                                                           *)
(* ===================================================================== *)

(** ** Strings *)

Lemma strEq_true (a b : JsString) : strEq a b = true <-> a = b.
Proof. unfold strEq. apply bool_decide_eq_true. Qed.

Lemma strEq_false (a b : JsString) : strEq a b = false <-> a <> b.
Proof. unfold strEq. apply bool_decide_eq_false. Qed.

Lemma strEq_refl (a : JsString) : strEq a a = true.
Proof. by apply strEq_true. Qed.

Lemma trimStart_no_ws (c : CodeUnit) (r : JsString) :
  isWhiteSpace c = false -> trimStart (c :: r) = c :: r.
Proof. intros H. simpl. by rewrite H. Qed.

(** A string that neither starts nor ends with white space is its own
    trimmed form. *)
Lemma trim_id (s : JsString) :
  (forall c r, s = c :: r -> isWhiteSpace c = false) ->
  (forall c r, s = r ++ [c] -> isWhiteSpace c = false) ->
  trim s = s.
Proof.
  intros Hfirst Hlast. unfold trim, trimEnd.
  assert (trimStart s = s) as ->.
  { destruct s as [|c r]; [done|]. apply trimStart_no_ws. by eapply Hfirst. }
  destruct (rev s) as [|c r] eqn:E.
  - apply (f_equal (@rev _)) in E. rewrite rev_involutive in E. by subst.
  - assert (s = rev r ++ [c]) as Hs.
    { apply (f_equal (@rev _)) in E. by rewrite rev_involutive in E. }
    rewrite trimStart_no_ws by (by eapply Hlast).
    rewrite Hs. reflexivity.
Qed.

(** ** Resource-group names (C1, C2) *)

Section ValidationFacts.
Import Utils Deployments Spec.

Lemma rgNameClass_charset (c : CodeUnit) :
  rgNameClass c = true <-> c ∈ rgNameCharset.
Proof.
  assert (forall l : JsString, c ∈ l <-> existsb (N.eqb c) l = true) as Hin.
  { intros l. rewrite existsb_exists. split.
    - intros H. exists c. split; [by apply list_elem_of_In | apply N.eqb_refl].
    - intros (x & Hx & Heq). apply N.eqb_eq in Heq. subst. by apply list_elem_of_In. }
  rewrite Hin. clear Hin.
  destruct (N.ltb c 123) eqn:Hlt.
  - apply N.ltb_lt in Hlt.
    assert (forallb (fun n => Bool.eqb (rgNameClass (N.of_nat n))
                                (existsb (N.eqb (N.of_nat n)) rgNameCharset))
              (seq 0 123) = true) as Hall by (vm_compute; reflexivity).
    rewrite forallb_forall in Hall.
    specialize (Hall (N.to_nat c)).
    rewrite N2Nat.id in Hall.
    assert (In (N.to_nat c) (seq 0 123)) as Hc by (apply in_seq; lia).
    specialize (Hall Hc). apply Bool.eqb_prop in Hall. by rewrite Hall.
  - apply N.ltb_ge in Hlt.
    assert (rgNameClass c = false) as ->.
    { unfold rgNameClass.
      repeat match goal with
             | |- context [(?a <=? ?b)%N] =>
                 destruct (N.leb_spec a b); simpl; try lia
             | |- context [(?a =? ?b)%N] =>
                 destruct (N.eqb_spec a b); simpl; try lia
             end; reflexivity. }
    assert (existsb (N.eqb c) rgNameCharset = false) as ->; [|done].
    apply not_true_is_false. rewrite existsb_exists.
    intros (x & Hx & Heq). apply N.eqb_eq in Heq. subst x.
    assert (forallb (fun x => (x <? 123)%N) rgNameCharset = true) as Hall
      by (vm_compute; reflexivity).
    rewrite forallb_forall in Hall. apply Hall in Hx. apply N.ltb_lt in Hx. lia.
Qed.

Lemma rgNamePattern_test_spec (s : JsString) :
  rgNamePattern_test s = true <->
  s <> [] /\ Forall (fun c => c ∈ rgNameCharset) s.
Proof.
  destruct s as [|c r]; simpl.
  - split; [done | intros [? _]; done].
  - change (rgNameClass c && forallb rgNameClass r) with (forallb rgNameClass (c :: r)).
    rewrite forallb_forall, Forall_forall. split.
    + intros H. split; [done|]. intros x Hx. apply rgNameClass_charset, H.
      by apply list_elem_of_In.
    + intros [_ H] x Hx. apply rgNameClass_charset, H. by apply list_elem_of_In.
Qed.

(** The code's three tests on the trimmed text, against the
    specification's pattern. *)
Lemma tests_spec (t : JsString) :
  (bool_decide (t = []) = false /\ rgNamePattern_test t = true /\ (90 <? length t) = false)
  <-> specRgName t.
Proof.
  unfold specRgName. rewrite bool_decide_eq_false, rgNamePattern_test_spec, Nat.ltb_ge.
  split.
  - intros (Hne & (_ & Hall) & Hlen). split; [done|]. destruct t; [done | simpl in *; lia].
  - intros (Hall & Hlen). assert (t <> []) by (destruct t; [simpl in Hlen; lia | done]).
    repeat split; try done. lia.
Qed.

Lemma accepted_add_valid (f : Field) : accepted (classAdd (js "is-valid") f) = true.
Proof.
  unfold accepted, classAdd. cbn [classList].
  destruct (existsb (strEq (js "is-valid")) (classList f)) eqn:E; [done|].
  rewrite existsb_app. cbn [existsb]. rewrite strEq_refl. by rewrite orb_true_r.
Qed.

Lemma accepted_add_invalid (f : Field) :
  accepted (classAdd (js "is-invalid") (classRemove [js "is-invalid"; js "is-valid"] f)) = false.
Proof.
  unfold accepted, classAdd, classRemove. cbn [classList].
  set (kept := List.filter _ (classList f)).
  assert (existsb (strEq (js "is-valid")) kept = false) as Hkept.
  { apply not_true_is_false. rewrite existsb_exists. intros (x & Hx & Heq).
    apply strEq_true in Heq. subst x. unfold kept in Hx. apply filter_In in Hx.
    destruct Hx as [_ Hx]. by vm_compute in Hx. }
  destruct (existsb (strEq (js "is-invalid")) kept); [done|].
  rewrite existsb_app, Hkept. reflexivity.
Qed.

Lemma validateResourceGroupName_accepted (f : Field) :
  accepted (validateResourceGroupName f) = true <-> specRgName (trim (field_value f)).
Proof.
  rewrite <- tests_spec. unfold validateResourceGroupName.
  set (t := trim (field_value f)).
  destruct (bool_decide (t = [])) eqn:E1.
  { change (accepted (showFieldError ?g _)) with (accepted g).
    rewrite accepted_add_invalid. split; [done | intros (? & _); done]. }
  destruct (rgNamePattern_test t) eqn:E2; simpl.
  2:{ change (accepted (showFieldError ?g _)) with (accepted g).
      rewrite accepted_add_invalid. split; [done | intros (_ & ? & _); done]. }
  destruct (90 <? length t) eqn:E3.
  { change (accepted (showFieldError ?g _)) with (accepted g).
    rewrite accepted_add_invalid. split; [done | intros (_ & _ & ?); done]. }
  change (accepted (hideFieldError ?g)) with (accepted g).
  by rewrite accepted_add_valid.
Qed.


Lemma callTrim_text_or_empty (s : JsString) :
  callTrim (or_else (VString s) (VString [])) = Normal (trim s).
Proof. by destruct s. Qed.

Lemma rgError_messages :
  rgError msgSelectTemplate = false /\ rgError msgRgRequired = true /\
  rgError msgLocationRequired = false /\ rgError msgRgCharset = true /\
  rgError msgRgLength = true.
Proof. by vm_compute. Qed.

(** The resource-group errors of a validation run, from the three tests
    on the trimmed name. *)
Lemma validateDeploymentParameters_rg (sel : value)
    (parameters : gmap JsString value) (s : JsString) :
  parameters !! js "resourceGroupName" = Some (VString s) ->
  (forall v, parameters !! js "location" = Some v -> exists l, v = VString l) ->
  exists errs,
    validateDeploymentParameters sel parameters = Normal errs /\
    (List.filter rgError errs = [] <-> specRgName (trim s)).
Proof.
  intros Hrg Hloc. unfold validateDeploymentParameters, param.
  rewrite Hrg, callTrim_text_or_empty. cbn [bind].
  assert (exists l, callTrim (or_else match parameters !! js "location" with
                                      | Some v => v
                                      | None => VUndefined
                                      end (VString [])) = Normal (trim l)) as [l ->].
  { destruct (parameters !! js "location") as [v|] eqn:E.
    - destruct (Hloc v eq_refl) as [l ->]. exists l. apply callTrim_text_or_empty.
    - exists []. reflexivity. }
  cbn [bind]. eexists. split; [reflexivity|].
  rewrite <- tests_spec.
  destruct rgError_messages as (M1 & M2 & M3 & M4 & M5).
  unfold pushIf.
  destruct (truthy sel), (bool_decide (trim s = [])), (bool_decide (trim l = [])),
    (rgNamePattern_test (trim s)), (90 <? length (trim s));
    cbn [negb app List.filter]; rewrite ?M1, ?M2, ?M3, ?M4, ?M5;
    split; try done; intros (? & ? & ?); done.
Qed.

(** C1, as amended.  Both validations work on the name with leading and
    trailing white space removed: the live field validation marks the
    field valid, and [validateDeploymentParameters] reports no
    resource-group error, exactly when the trimmed name consists of
    characters from [A-Za-z0-9._-] only and has between 1 and 90 of them. *)
Theorem resource_group_name_validated_after_trim (s : JsString) :
  (forall cl fb,
     accepted (validateResourceGroupName (mkField s cl fb)) = true
     <-> specRgName (trim s)) /\
  (forall sel parameters,
     parameters !! js "resourceGroupName" = Some (VString s) ->
     (forall v, parameters !! js "location" = Some v -> exists l, v = VString l) ->
     exists errs,
       validateDeploymentParameters sel parameters = Normal errs /\
       (List.filter rgError errs = [] <-> specRgName (trim s))).
Proof.
  split.
  - intros cl fb. apply (validateResourceGroupName_accepted (mkField s cl fb)).
  - intros sel parameters. apply validateDeploymentParameters_rg.
Qed.

(** C1 at the name [my-rg_1.prod]: accepted by both validations. *)
Lemma resource_group_name_validated_after_trim_witness :
  accepted (validateResourceGroupName (mkField (js "my-rg_1.prod") [] None)) = true /\
  exists errs,
    validateDeploymentParameters (VString (js "storage"))
      (<[js "resourceGroupName" := VString (js "my-rg_1.prod")]>
         (<[js "location" := VString (js "westeurope")]> ∅)) = Normal errs /\
    List.filter rgError errs = [].
Proof.
  destruct (resource_group_name_validated_after_trim (js "my-rg_1.prod")) as [Hlive Hsubmit].
  assert (specRgName (trim (js "my-rg_1.prod"))) as Hok.
  { split; [|vm_compute; lia].
    apply Forall_forall. intros c Hc. apply rgNameClass_charset.
    vm_compute in Hc. repeat (apply elem_of_cons in Hc as [-> | Hc]; [reflexivity|]).
    by apply elem_of_nil in Hc. }
  split.
  - by apply Hlive.
  - destruct (Hsubmit (VString (js "storage"))
                (<[js "resourceGroupName" := VString (js "my-rg_1.prod")]>
                   (<[js "location" := VString (js "westeurope")]> ∅)))
      as (errs & Herrs & Hiff).
    + reflexivity.
    + intros v Hv. vm_compute in Hv. injection Hv as <-. by eexists.
    + exists errs. split; [done | by apply Hiff].
Defined.

(** C1 as stated fails at the name [" rg"] (a leading space): the space
    is not in the character set, yet the live validation accepts the
    field and the submission validation reports nothing. *)
Lemma resource_group_name_leading_space_accepted :
  accepted (validateResourceGroupName (mkField (js " rg") [] None)) = true /\
  validateDeploymentParameters (VString (js "storage"))
    (<[js "resourceGroupName" := VString (js " rg")]>
       (<[js "location" := VString (js "westeurope")]> ∅)) = Normal [] /\
  ~ specRgName (js " rg").
Proof.
  split; [by vm_compute|]. split; [by vm_compute|].
  intros [Hall _]. apply Forall_inv in Hall.
  apply rgNameClass_charset in Hall. by vm_compute in Hall.
Qed.

(** For a name that neither starts nor ends with white space the
    validations test the name itself. *)
Lemma resource_group_name_without_outer_space (s : JsString) (cl : list JsString)
    (fb : option JsString) :
  (forall c r, s = c :: r -> isWhiteSpace c = false) ->
  (forall c r, s = r ++ [c] -> isWhiteSpace c = false) ->
  accepted (validateResourceGroupName (mkField s cl fb)) = true <-> specRgName s.
Proof.
  intros Hfirst Hlast. rewrite validateResourceGroupName_accepted.
  cbn [field_value]. by rewrite trim_id.
Qed.

Example trim_example : trim (js "  my rg	 ") = js "my rg".
Proof. reflexivity. Qed.

Example validate_too_long :
  validateDeploymentParameters (VString (js "storage"))
    (<[js "resourceGroupName" := VString (repeat 0x61%N 91)]>
       (<[js "location" := VString (js "westeurope")]> ∅))
  = Normal [msgRgLength].
Proof. by vm_compute. Qed.

Example validate_bad_character :
  validateDeploymentParameters VNull
    (<[js "resourceGroupName" := VString (js "my rg")]> ∅)
  = Normal [msgSelectTemplate; msgLocationRequired; msgRgCharset].
Proof. by vm_compute. Qed.

Lemma callTrim_blank (v : value) :
  blank v -> callTrim (or_else v (VString [])) = Normal [].
Proof.
  intros [-> | (s & -> & Hs)]; [reflexivity|].
  by rewrite callTrim_text_or_empty, Hs.
Qed.

Lemma validateDeploymentParameters_blank (sel : value)
    (parameters : gmap JsString value) :
  truthy sel = true ->
  blank (param parameters (js "resourceGroupName")) ->
  blank (param parameters (js "location")) ->
  validateDeploymentParameters sel parameters
  = Normal [msgRgRequired; msgLocationRequired].
Proof.
  intros Hsel Hrg Hloc. unfold validateDeploymentParameters.
  rewrite (callTrim_blank _ Hrg), (callTrim_blank _ Hloc), Hsel. reflexivity.
Qed.

(** C2.  With a template selected and a resource group name and a
    location that are both empty, white space only, or not collected at
    all, validation returns exactly two errors (resource group required,
    location required), and [deployTemplate] shows them and returns: no
    request is among its effects. *)
Theorem blank_submission_two_errors_no_request
    (JSON_parse : JsString -> option value)
    (network : DeploymentData -> FetchOutcome) (typeErrorMessage : JsString)
    (parametersModal : bool) (sel : value) (doc : Document) :
  truthy sel = true ->
  blank (param (collectParameters JSON_parse doc) (js "resourceGroupName")) ->
  blank (param (collectParameters JSON_parse doc) (js "location")) ->
  exists errors effects,
    validateDeploymentParameters sel (collectParameters JSON_parse doc) = Normal errors /\
    length errors = 2 /\
    errors = [msgRgRequired; msgLocationRequired] /\
    deployTemplate JSON_parse network typeErrorMessage parametersModal sel doc
    = Normal effects /\
    effects = [ ShowError (js "Please fix the following errors:" ++ bullet
                            ++ join bullet errors);
                HighlightValidationErrors errors ] /\
    existsb isFetch effects = false.
Proof.
  intros Hsel Hrg Hloc.
  pose proof (validateDeploymentParameters_blank sel _ Hsel Hrg Hloc) as Hv.
  eexists _, _. split; [exact Hv|]. split; [reflexivity|]. split; [reflexivity|].
  unfold deployTemplate. rewrite Hv. cbn [bind]. split; [reflexivity|].
  split; reflexivity.
Qed.

(** C2 on a page whose resource-group field holds two spaces and whose
    location field is empty. *)
Lemma blank_submission_two_errors_no_request_witness :
  exists errors effects,
    validateDeploymentParameters (VString (js "storage"))
      (collectParameters (fun _ => None)
         (mkDocument (Some (js "  ")) (Some []) None (Some []))) = Normal errors /\
    length errors = 2 /\
    deployTemplate (fun _ => None) (fun _ => Rejected []) [] true
      (VString (js "storage"))
      (mkDocument (Some (js "  ")) (Some []) None (Some [])) = Normal effects /\
    existsb isFetch effects = false.
Proof.
  destruct (blank_submission_two_errors_no_request (fun _ => None)
              (fun _ => Rejected []) [] true (VString (js "storage"))
              (mkDocument (Some (js "  ")) (Some []) None (Some [])))
    as (errors & effects & H1 & H2 & _ & H4 & _ & H6).
  - reflexivity.
  - right. exists (js "  "). split; reflexivity.
  - right. exists []. split; reflexivity.
  - exists errors, effects. repeat split; assumption.
Defined.

(** When validation finds nothing, the request is made: the early return
    is the only way past it. *)
Lemma deployTemplate_requests_when_valid
    (JSON_parse : JsString -> option value)
    (network : DeploymentData -> FetchOutcome) (typeErrorMessage : JsString)
    (parametersModal : bool) (sel : value) (doc : Document) :
  validateDeploymentParameters sel (collectParameters JSON_parse doc) = Normal [] ->
  exists effects,
    deployTemplate JSON_parse network typeErrorMessage parametersModal sel doc
    = Normal effects /\
    existsb isFetch effects = true.
Proof.
  intros Hv. unfold deployTemplate. rewrite Hv. cbn [bind length Nat.ltb Nat.leb].
  eexists. split; [reflexivity|]. reflexivity.
Qed.

End ValidationFacts.

(** ** The log viewer (C3, C10) *)

Section FilterFacts.
Import Spec.

Context {A : Type}.

Lemma filter_filter_comm (p q : A -> bool) (l : list A) :
  List.filter p (List.filter q l) = List.filter q (List.filter p l).
Proof.
  induction l as [|x l IH]; [reflexivity|]. simpl.
  destruct (p x) eqn:Hp, (q x) eqn:Hq; simpl; rewrite ?Hp, ?Hq, IH; reflexivity.
Qed.

Lemma filter_filter_idem (p : A -> bool) (l : list A) :
  List.filter p (List.filter p l) = List.filter p l.
Proof.
  induction l as [|x l IH]; [reflexivity|]. simpl.
  destruct (p x) eqn:Hp; simpl; rewrite ?Hp, IH; reflexivity.
Qed.

Lemma filterWhen_comm (b : bool) (p : A -> bool) (c : bool) (q : A -> bool) (l : list A) :
  filterWhen b p (filterWhen c q l) = filterWhen c q (filterWhen b p l).
Proof. destruct b, c; simpl; [apply filter_filter_comm | done..]. Qed.

Lemma filterWhen_idem (b : bool) (p : A -> bool) (l : list A) :
  filterWhen b p (filterWhen b p l) = filterWhen b p l.
Proof. destruct b; simpl; [apply filter_filter_idem | done]. Qed.

Lemma filterWhen_Forall (P : A -> Prop) (b : bool) (p : A -> bool) (l : list A) :
  Forall P l -> Forall P (filterWhen b p l).
Proof.
  destruct b; [|done]. simpl. induction 1 as [|x l Hx _ IH]; simpl; [constructor|].
  destruct (p x); [by constructor | exact IH].
Qed.

End FilterFacts.

(** [filter] with a callback that may throw, and the steps built on it. *)
Section FilterMFacts.
Import LogViewer FilterOrders Spec.

Context {A : Type}.
Implicit Types (p : A -> completion bool) (l a k : list A).

Lemma filterM_normal p l a :
  filterM p l = Normal a ->
  a = List.filter (sure p) l /\ Forall (answers p) l.
Proof.
  revert a. induction l as [|x l IH]; intros a; simpl.
  - intros [= <-]. split; [reflexivity | constructor].
  - unfold sure at 1, answers at 1. destruct (p x) as [keep|e] eqn:Hp; [|discriminate].
    cbn [bind]. destruct (filterM p l) as [kept|e]; [|discriminate].
    cbn [bind]. intros [= <-]. destruct (IH kept eq_refl) as [-> Hall].
    split; [reflexivity|]. constructor; [|exact Hall].
    unfold answers. rewrite Hp. by eexists.
Qed.

Lemma filterM_complete p l :
  Forall (answers p) l -> filterM p l = Normal (List.filter (sure p) l).
Proof.
  induction 1 as [|x l [keep Hx] _ IH]; simpl; [reflexivity|].
  unfold sure at 1. rewrite Hx, IH. reflexivity.
Qed.

Lemma filterM_fixed p l :
  Forall (fun x => p x = Normal true) l -> filterM p l = Normal l.
Proof.
  induction 1 as [|x l Hx _ IH]; simpl; [reflexivity|]. by rewrite Hx, IH.
Qed.

Lemma filterM_app p l k a :
  filterM p l = Normal a ->
  filterM p (l ++ k) = (let* b := filterM p k in Normal (a ++ b)).
Proof.
  revert a. induction l as [|x l IH]; intros a; simpl.
  - intros [= <-]. by destruct (filterM p k).
  - destruct (p x) as [keep|e]; [|discriminate]. cbn [bind].
    destruct (filterM p l) as [kept|e]; [|discriminate]. cbn [bind].
    intros [= <-]. rewrite (IH kept eq_refl).
    destruct (filterM p k) as [b|e]; [|reflexivity]. cbn [bind].
    by destruct keep.
Qed.

Lemma filter_sure_passes p l :
  Forall (fun x => p x = Normal true) (List.filter (sure p) l).
Proof.
  induction l as [|x l IH]; simpl; [constructor|].
  unfold sure at 1. destruct (p x) as [[|]|e] eqn:Hp; try exact IH.
  by constructor.
Qed.

Lemma stepWhen_normal (on : bool) p l a :
  stepWhen on p l = Normal a -> a = filterWhen on (sure p) l.
Proof.
  destruct on; simpl; [|by intros [= <-]].
  intros H. by apply filterM_normal in H as [-> _].
Qed.

Lemma stepWhen_complete (on : bool) p l :
  Forall (answers p) l -> stepWhen on p l = Normal (filterWhen on (sure p) l).
Proof. destruct on; simpl; [apply filterM_complete | done]. Qed.

Lemma stepWhen_fixed (on : bool) p a :
  Forall (passes on p) a -> stepWhen on p a = Normal a.
Proof.
  destruct on; simpl; [|done]. intros H. apply filterM_fixed.
  eapply Forall_impl; [exact H|]. intros x Hx. by apply Hx.
Qed.

Lemma filterWhen_passes (on : bool) p l :
  Forall (passes on p) (filterWhen on (sure p) l).
Proof.
  destruct on; simpl.
  - eapply Forall_impl; [apply filter_sure_passes|]. by intros x Hx _.
  - apply Forall_forall. by intros x _ [=].
Qed.

Lemma stepWhen_idem (on : bool) p l a :
  stepWhen on p l = Normal a -> stepWhen on p a = Normal a.
Proof.
  intros H. apply stepWhen_normal in H as ->.
  apply stepWhen_fixed, filterWhen_passes.
Qed.

Lemma stepWhen_app (on : bool) p l k a :
  stepWhen on p l = Normal a ->
  stepWhen on p (l ++ k) = (let* b := stepWhen on p k in Normal (a ++ b)).
Proof.
  destruct on; simpl; [apply filterM_app | by intros [= <-]].
Qed.

End FilterMFacts.

Section ChainFacts.
Import LogViewer FilterOrders Spec.

Implicit Types (p : LogEntry -> completion bool) (l a : list LogEntry).

Lemma chain_normal (b1 b2 b3 : bool) p1 p2 p3 l a :
  andThen (stepWhen b1 p1) (andThen (stepWhen b2 p2) (stepWhen b3 p3)) l = Normal a ->
  a = filterWhen b3 (sure p3) (filterWhen b2 (sure p2) (filterWhen b1 (sure p1) l)).
Proof.
  unfold andThen.
  destruct (stepWhen b1 p1 l) as [a1|e] eqn:H1; [|discriminate]. cbn [bind].
  destruct (stepWhen b2 p2 a1) as [a2|e] eqn:H2; [|discriminate]. cbn [bind].
  intros H3.
  apply stepWhen_normal in H1 as ->. apply stepWhen_normal in H2 as ->.
  by apply stepWhen_normal in H3 as ->.
Qed.

Lemma chain_fixed (b1 b2 b3 : bool) p1 p2 p3 a :
  Forall (passes b1 p1) a -> Forall (passes b2 p2) a -> Forall (passes b3 p3) a ->
  andThen (stepWhen b1 p1) (andThen (stepWhen b2 p2) (stepWhen b3 p3)) a = Normal a.
Proof.
  intros H1 H2 H3. unfold andThen.
  rewrite (stepWhen_fixed b1 p1 a H1). cbn [bind].
  rewrite (stepWhen_fixed b2 p2 a H2). cbn [bind].
  exact (stepWhen_fixed b3 p3 a H3).
Qed.

Lemma chain_complete (b1 b2 b3 : bool) p1 p2 p3 l :
  Forall (answers p1) l -> Forall (answers p2) l -> Forall (answers p3) l ->
  andThen (stepWhen b1 p1) (andThen (stepWhen b2 p2) (stepWhen b3 p3)) l
  = Normal (filterWhen b3 (sure p3) (filterWhen b2 (sure p2) (filterWhen b1 (sure p1) l))).
Proof.
  intros H1 H2 H3. unfold andThen.
  rewrite (stepWhen_complete b1 p1 l H1). cbn [bind].
  rewrite (stepWhen_complete b2 p2) by by apply filterWhen_Forall. cbn [bind].
  apply stepWhen_complete. by do 2 apply filterWhen_Forall.
Qed.

End ChainFacts.

Section LogViewerFacts.
Import LogViewer FilterOrders Spec.

Variable toUpperCase : JsString -> JsString.
Variable toLowerCase : JsString -> JsString.

Local Abbreviation byLevel := filterLevel.
Local Abbreviation byPhase := (filterPhase toUpperCase).
Local Abbreviation bySearch := (filterSearch toLowerCase).
Local Abbreviation effect := (applyFilters toUpperCase toLowerCase).
Local Abbreviation anyOrder := (orders toUpperCase toLowerCase).

(** On an entry with text fields each of the three callbacks answers. *)
Lemma textEntry_answers (lf pf query : JsString) (log : LogEntry) :
  textEntry log = true ->
  answers (levelMatches lf) log /\
  answers (phaseMatches toUpperCase pf) log /\
  answers (searchMatches toLowerCase query) log.
Proof.
  unfold textEntry, answers, levelMatches, phaseMatches, searchMatches.
  destruct (level log), (phase log), (message log); try discriminate.
  intros _. cbn [callToUpperCase callToLowerCase bind].
  split; [by eexists|]. split; [by eexists|].
  repeat match goal with
         | |- context [if ?c then _ else _] => destruct c
         end; by eexists.
Qed.

(** The list the three steps give when they complete, in the effect's
    own order. *)
Local Abbreviation kept lf pf q l :=
  (Spec.filterWhen (searchOn q) (sure (searchMatches toLowerCase (toLowerCase q)))
     (Spec.filterWhen (phaseOn pf) (sure (phaseMatches toUpperCase pf))
        (Spec.filterWhen (levelOn lf) (sure (levelMatches lf)) l))) (only parsing).

Lemma orders_shape (lf pf q : JsString) :
  anyOrder lf pf q
  = let byLevel := stepWhen (levelOn lf) (levelMatches lf) in
    let byPhase := stepWhen (phaseOn pf) (phaseMatches toUpperCase pf) in
    let bySearch := stepWhen (searchOn q) (searchMatches toLowerCase (toLowerCase q)) in
    [ andThen byLevel (andThen byPhase bySearch);
      andThen byLevel (andThen bySearch byPhase);
      andThen byPhase (andThen byLevel bySearch);
      andThen byPhase (andThen bySearch byLevel);
      andThen bySearch (andThen byLevel byPhase);
      andThen bySearch (andThen byPhase byLevel) ].
Proof. reflexivity. Qed.

Lemma orders_normal (lf pf q : JsString) (l a : list LogEntry) (f : Step) :
  f ∈ anyOrder lf pf q -> f l = Normal a -> a = kept lf pf q l.
Proof.
  intros Hf Hrun. rewrite orders_shape in Hf. cbv zeta in Hf.
  set (bl := levelOn lf). set (kl := sure (levelMatches lf)).
  set (bp := phaseOn pf). set (kp := sure (phaseMatches toUpperCase pf)).
  set (bs := searchOn q).
  set (ks := sure (searchMatches toLowerCase (toLowerCase q))).
  repeat (apply elem_of_cons in Hf as [-> | Hf]);
    [ .. | by apply elem_of_nil in Hf];
    apply chain_normal in Hrun; rewrite Hrun; fold bl kl bp kp bs ks.
  - reflexivity.
  - by rewrite (filterWhen_comm bp kp bs ks).
  - by rewrite (filterWhen_comm bl kl bp kp).
  - rewrite (filterWhen_comm bl kl bs ks). by rewrite (filterWhen_comm bl kl bp kp).
  - rewrite (filterWhen_comm bl kl bs ks). by rewrite (filterWhen_comm bp kp bs ks).
  - rewrite (filterWhen_comm bp kp bs ks), (filterWhen_comm bl kl bs ks).
    by rewrite (filterWhen_comm bl kl bp kp).
Qed.

Lemma orders_fixed (lf pf q : JsString) (l : list LogEntry) (f : Step) :
  f ∈ anyOrder lf pf q -> f (kept lf pf q l) = Normal (kept lf pf q l).
Proof.
  intros Hf. rewrite orders_shape in Hf. cbv zeta in Hf.
  assert (Forall (passes (searchOn q) (searchMatches toLowerCase (toLowerCase q)))
            (kept lf pf q l)) as HS
    by apply filterWhen_passes.
  assert (Forall (passes (phaseOn pf) (phaseMatches toUpperCase pf)) (kept lf pf q l)) as HP
    by apply filterWhen_Forall, filterWhen_passes.
  assert (Forall (passes (levelOn lf) (levelMatches lf)) (kept lf pf q l)) as HL
    by (do 2 apply filterWhen_Forall; apply filterWhen_passes).
  repeat (apply elem_of_cons in Hf as [-> | Hf]);
    [ .. | by apply elem_of_nil in Hf];
    by apply chain_fixed.
Qed.

Lemma orders_complete (lf pf q : JsString) (l : list LogEntry) (f : Step) :
  forallb textEntry l = true ->
  f ∈ anyOrder lf pf q -> exists a, f l = Normal a.
Proof.
  intros Htext Hf. rewrite orders_shape in Hf. cbv zeta in Hf.
  assert (Forall (fun log => textEntry log = true) l) as Hall.
  { apply Forall_forall. intros log Hin. apply list_elem_of_In in Hin.
    by apply (proj1 (forallb_forall _ _) Htext). }
  assert (Forall (answers (levelMatches lf)) l) as HL.
  { eapply Forall_impl; [exact Hall|]. intros log H.
    apply (textEntry_answers lf pf (toLowerCase q) log H). }
  assert (Forall (answers (phaseMatches toUpperCase pf)) l) as HP.
  { eapply Forall_impl; [exact Hall|]. intros log H.
    apply (textEntry_answers lf pf (toLowerCase q) log H). }
  assert (Forall (answers (searchMatches toLowerCase (toLowerCase q))) l) as HS.
  { eapply Forall_impl; [exact Hall|]. intros log H.
    apply (textEntry_answers lf pf (toLowerCase q) log H). }
  repeat (apply elem_of_cons in Hf as [-> | Hf]);
    [ .. | by apply elem_of_nil in Hf];
    eexists; by apply chain_complete.
Qed.

(** The effect is the three steps in its order, then the write. *)
Lemma applyFilters_chain (st : State) :
  effect st
  = (let* filtered :=
       andThen (byLevel (levelFilter st))
         (andThen (byPhase (phaseFilter st)) (bySearch (searchQuery st))) (logs st) in
     Normal (setFilteredLogs filtered st)).
Proof.
  unfold applyFilters, andThen.
  destruct (byLevel (levelFilter st) (logs st)) as [a1|e]; [|reflexivity]. cbn [bind].
  destruct (byPhase (phaseFilter st) a1) as [a2|e]; reflexivity.
Qed.


End LogViewerFacts.



(** The specification's example: the entry of the event
    [{type: "log", level: "ERROR", phase: "applying", message: "quota
    exceeded"}] is in the filtered view under the level filters [ALL] and
    [ERROR], and not under [WARNING]. *)
Example quota_exceeded_filtered :
  let data := VObject [(js "type", VString (js "log"));
                       (js "level", VString (js "ERROR"));
                       (js "phase", VString (js "applying"));
                       (js "message", VString (js "quota exceeded"))] in
  let entry := LogViewer.mkLog VUndefined (VString (js "ERROR")) (VString (js "applying"))
                 (VString (js "quota exceeded")) VUndefined in
  let view lf :=
    LogViewer.applyFilters Spec.asciiUpper Spec.asciiLower
      (LogViewer.mkState [entry] [] lf (js "ALL") [] true) in
  LogViewer.entryOf data = Normal entry /\
  view (js "ALL") = Normal (LogViewer.mkState [entry] [entry] (js "ALL") (js "ALL") [] true) /\
  view (js "ERROR") = Normal (LogViewer.mkState [entry] [entry] (js "ERROR") (js "ALL") [] true) /\
  view (js "WARNING") = Normal (LogViewer.mkState [entry] [] (js "WARNING") (js "ALL") [] true).
Proof. by vm_compute. Qed.

Example phase_and_search_filtered :
  let entry := LogViewer.mkLog VUndefined (VString (js "ERROR")) (VString (js "applying"))
                 (VString (js "Quota exceeded")) VUndefined in
  let view pf q :=
    LogViewer.applyFilters Spec.asciiUpper Spec.asciiLower
      (LogViewer.mkState [entry] [] (js "ALL") pf q true) in
  view (js "APPLYING") (js "QUOTA")
  = Normal (LogViewer.mkState [entry] [entry] (js "ALL") (js "APPLYING") (js "QUOTA") true) /\
  view (js "PLANNING") []
  = Normal (LogViewer.mkState [entry] [] (js "ALL") (js "PLANNING") [] true) /\
  view (js "ALL") (js "timeout")
  = Normal (LogViewer.mkState [entry] [] (js "ALL") (js "ALL") (js "timeout") true).
Proof. by vm_compute. Qed.

Section StreamFacts.
Import LogViewer.

Variable JSON_parse : JsString -> option value.

(** Reading a property of the parsed event, once its [type] was read. *)
Lemma getProp_after_type (data : value) (lit k : JsString) :
  getProp data (js "type") = Normal (VString lit) ->
  exists v, getProp data k = Normal v.
Proof. destruct data; try discriminate; intros _; by eexists. Qed.

(** C10.  A message whose data parses to an event of type [log] appends
    one entry, after the entries already there, and changes nothing else;
    the entry has the event's time stamp, message and details, the event's
    level and phase when it carries them, [INFO] for a missing (or empty)
    level and [unknown] for a missing (or empty) phase.  An event of type
    [complete] or [done] leaves the log list as it is and closes the
    event source. *)
Theorem stream_event_handling (event_data : JsString) (data : value)
    (st : State) :
  JSON_parse event_data = Some data ->
  (getProp data (js "type") = Normal (VString (js "log")) ->
   exists entry,
     onmessage JSON_parse event_data st
     = setLogs (fun prevLogs => prevLogs ++ [entry]) st /\
     logs (onmessage JSON_parse event_data st) = logs st ++ [entry] /\
     filteredLogs (onmessage JSON_parse event_data st) = filteredLogs st /\
     eventSourceOpen (onmessage JSON_parse event_data st) = eventSourceOpen st /\
     getProp data (js "timestamp") = Normal (timestamp entry) /\
     getProp data (js "message") = Normal (message entry) /\
     getProp data (js "details") = Normal (details entry) /\
     (forall v, getProp data (js "level") = Normal v ->
        level entry = if truthy v then v else VString (js "INFO")) /\
     (getProp data (js "level") = Normal VUndefined \/
      getProp data (js "level") = Normal (VString []) ->
      level entry = VString (js "INFO")) /\
     (forall c r, getProp data (js "level") = Normal (VString (c :: r)) ->
        level entry = VString (c :: r)) /\
     (forall v, getProp data (js "phase") = Normal v ->
        phase entry = if truthy v then v else VString (js "unknown")) /\
     (getProp data (js "phase") = Normal VUndefined \/
      getProp data (js "phase") = Normal (VString []) ->
      phase entry = VString (js "unknown")) /\
     (forall c r, getProp data (js "phase") = Normal (VString (c :: r)) ->
        phase entry = VString (c :: r))) /\
  (getProp data (js "type") = Normal (VString (js "complete")) \/
   getProp data (js "type") = Normal (VString (js "done")) ->
   logs (onmessage JSON_parse event_data st) = logs st /\
   eventSourceOpen (onmessage JSON_parse event_data st) = false /\
   onmessage JSON_parse event_data st = closeEventSource st).
Proof.
  intros Hparse. unfold onmessage. rewrite Hparse. split.
  - intros Htype. unfold handle. rewrite Htype. cbn [bind].
    change (isString (VString (js "log")) (js "log")) with true. cbv iota.
    unfold entryOf.
    destruct (getProp_after_type data _ (js "timestamp") Htype) as [ts Hts].
    destruct (getProp_after_type data _ (js "level") Htype) as [lv Hlv].
    destruct (getProp_after_type data _ (js "phase") Htype) as [ph Hph].
    destruct (getProp_after_type data _ (js "message") Htype) as [msg Hmsg].
    destruct (getProp_after_type data _ (js "details") Htype) as [det Hdet].
    rewrite Hts, Hlv, Hph, Hmsg, Hdet. cbn [bind tryCatch].
    eexists. split; [reflexivity|].
    cbn [setLogs logs filteredLogs eventSourceOpen timestamp level phase message details].
    do 6 (split; [reflexivity|]). unfold or_else.
    split; [by intros v [= ->]|].
    split; [by intros [[= ->] | [= ->]]|].
    split; [by intros c r [= ->]|].
    split; [by intros v [= ->]|].
    split; [by intros [[= ->] | [= ->]]|].
    by intros c r [= ->].
  - intros [Htype | Htype]; unfold handle; rewrite Htype; by vm_compute.
Qed.

End StreamFacts.

(** C10 on the event [{type: "log", message: "quota exceeded"}] without
    level and phase, arriving in an empty viewer. *)
Lemma stream_event_handling_witness :
  exists entry,
    LogViewer.logs
      (LogViewer.onmessage
         (fun _ => Some (VObject [(js "type", VString (js "log"));
                                  (js "message", VString (js "quota exceeded"))]))
         [] (LogViewer.mkState [] [] (js "ALL") (js "ALL") [] true))
    = [entry] /\
    LogViewer.message entry = VString (js "quota exceeded") /\
    LogViewer.level entry = VString (js "INFO") /\
    LogViewer.phase entry = VString (js "unknown").
Proof.
  destruct (stream_event_handling
              (fun _ => Some (VObject [(js "type", VString (js "log"));
                                       (js "message", VString (js "quota exceeded"))]))
              [] _ (LogViewer.mkState [] [] (js "ALL") (js "ALL") [] true) eq_refl)
    as [Hlog _].
  destruct (Hlog eq_refl)
    as (entry & _ & Hlogs & _ & _ & _ & Hm & _ & _ & Hl & _ & _ & Hp & _).
  exists entry. split; [exact Hlogs|].
  split; [by injection Hm as <-|].
  split; [apply Hl | apply Hp]; by left.
Defined.

(** ** Cascading dropdowns (C4) *)

Section CascadeFacts.
Import Utils Spec.

Lemma elem_of_uniq (x : JsString) (l : list JsString) : x ∈ uniq l <-> x ∈ l.
Proof.
  induction l as [|y l IH]; [done|]. simpl.
  rewrite !elem_of_cons, list_elem_of_In, filter_In, <- list_elem_of_In, IH.
  rewrite negb_true_iff, strEq_false.
  destruct (decide (x = y)) as [->|Hne]; [tauto|]. tauto.
Qed.

(** Options replaced by a non-empty list, then its first value set: the
    element shows that first option. *)
Lemma select_first (x : JsString) (l : list JsString) (sel : Select) :
  setValue (Some x) (setOptions (x :: l) sel) = mkSelect (x :: l) (Some 0).
Proof. unfold setValue, setOptions. simpl. by rewrite strEq_refl. Qed.

Lemma updateAppServicePlanDropdowns_cascade plans dom :
  updateAppServicePlanDropdowns plans dom = cascadeUpdate os tier sku plans dom.
Proof. reflexivity. Qed.

Lemma updateSqlDropdowns_cascade editions dom :
  updateSqlDropdowns editions dom = cascadeUpdate edition compute version editions dom.
Proof. reflexivity. Qed.

Lemma updateStorageDropdowns_cascade accounts dom :
  updateStorageDropdowns accounts dom
  = cascadeUpdate kind replication performance accounts dom.
Proof. reflexivity. Qed.

Section Generic.

Context {R : Type} (parent child leaf : R -> JsString) (table : list R).

Lemma elem_of_column (col : R -> JsString) (keep : R -> bool) (v : JsString) :
  v ∈ uniq (List.map col (List.filter keep table)) <->
  exists row, row ∈ table /\ keep row = true /\ col row = v.
Proof.
  rewrite elem_of_uniq, list_elem_of_In, in_map_iff. split.
  - intros (row & Hcol & Hin). apply filter_In in Hin as [Hin Hkeep].
    exists row. by rewrite list_elem_of_In.
  - intros (row & Hin & Hkeep & Hcol). exists row. split; [done|].
    apply filter_In. by rewrite <- list_elem_of_In.
Qed.

(** After an update, with a parent value that occurs in the table, the
    invariant holds. *)
Lemma cascadeUpdate_invariant (dom : Cascade) :
  (exists row, row ∈ table /\ parent row = selectValue (parentSelect dom)) ->
  cascadeInvariant parent child leaf table (cascadeUpdate parent child leaf table dom).
Proof.
  intros (row0 & Hrow0 & Hparent0).
  unfold cascadeInvariant, cascadeUpdate. cbn [parentSelect childSelect leafSelect].
  set (p := selectValue (parentSelect dom)) in *.
  set (byParent := List.filter (fun x => strEq (parent x) p) table).
  destruct (uniq (List.map child byParent)) as [|c0 cs] eqn:Echildren.
  { exfalso. assert (child row0 ∈ uniq (List.map child byParent)) as Hin.
    { apply elem_of_column. exists row0. by rewrite strEq_true. }
    rewrite Echildren in Hin. by apply elem_of_nil in Hin. }
  assert (valueOrFirst (setOptions (c0 :: cs) (childSelect dom)) (c0 :: cs) = Some c0)
    as ->.
  { unfold valueOrFirst, setOptions, selectValue. simpl. by case_bool_decide. }
  rewrite select_first.
  set (byChild := List.filter (fun x => matches (child x) (Some c0)) byParent).
  destruct (uniq (List.map leaf byChild)) as [|l0 ls] eqn:Eleaves.
  { exfalso. assert (c0 ∈ uniq (List.map child byParent)) as Hc0
      by (rewrite Echildren; apply list_elem_of_here).
    apply elem_of_column in Hc0 as (row & Hin & Hp & Hc).
    assert (leaf row ∈ uniq (List.map leaf byChild)) as Hl.
    { apply elem_of_uniq, list_elem_of_In, in_map, filter_In. split.
      - apply filter_In. by rewrite <- list_elem_of_In.
      - simpl. by rewrite strEq_true. }
    rewrite Eleaves in Hl. by apply elem_of_nil in Hl. }
  cbn [head]. rewrite select_first.
  cbn [selectValue selectedIndex options nth head].
  repeat split; try apply list_elem_of_here.
  - rewrite <- Echildren. intros (row & ? & ?%strEq_true & ?)%elem_of_column. eauto.
  - intros (row & ? & ? & ?). rewrite <- Echildren. apply elem_of_column.
    exists row. by rewrite strEq_true.
  - rewrite <- Eleaves. unfold byChild. rewrite elem_of_uniq, list_elem_of_In, in_map_iff.
    intros (row & Hleaf & Hin). apply filter_In in Hin as [Hin Hc].
    apply filter_In in Hin as [Hin Hp]. simpl in Hc.
    apply strEq_true in Hc, Hp. exists row. by rewrite list_elem_of_In.
  - intros (row & Hin & Hp & Hc & Hl). rewrite <- Eleaves.
    apply elem_of_uniq, list_elem_of_In, in_map_iff. exists row. split; [done|].
    apply filter_In. split.
    + apply filter_In. rewrite <- list_elem_of_In. by rewrite strEq_true.
    + simpl. by rewrite strEq_true.
Qed.

(** After an update with a parent value that no row has, both children
    are without options and show nothing. *)
Lemma cascadeUpdate_unknown_parent (dom : Cascade) :
  (forall row, row ∈ table -> parent row <> selectValue (parentSelect dom)) ->
  childSelect (cascadeUpdate parent child leaf table dom) = mkSelect [] None /\
  leafSelect (cascadeUpdate parent child leaf table dom) = mkSelect [] None.
Proof.
  intros Hnone. unfold cascadeUpdate. cbn [childSelect leafSelect].
  assert (List.filter (fun x => strEq (parent x) (selectValue (parentSelect dom))) table
          = []) as ->.
  { induction table as [|row rows IH]; [reflexivity|]. simpl.
    rewrite (proj2 (strEq_false _ _)) by (apply Hnone, list_elem_of_here).
    apply IH. intros r Hr. by apply Hnone, list_elem_of_further. }
  by split.
Qed.

(** The update does not touch the parent element. *)
Lemma cascadeUpdate_parent (dom : Cascade) :
  parentSelect (cascadeUpdate parent child leaf table dom) = parentSelect dom.
Proof. reflexivity. Qed.

End Generic.

Lemma elem_of_map_row {R : Type} (col : R -> JsString) (table : list R) (v : JsString) :
  v ∈ List.map col table -> exists row, row ∈ table /\ col row = v.
Proof.
  rewrite list_elem_of_In, in_map_iff. intros (row & ? & ?). exists row.
  by rewrite list_elem_of_In.
Qed.

Lemma not_elem_of_map_row {R : Type} (col : R -> JsString) (table : list R) (v : JsString) :
  v ∉ List.map col table -> forall row, row ∈ table -> col row <> v.
Proof.
  intros Hnot row Hrow Heq. apply Hnot. subst v.
  apply list_elem_of_In, in_map. by apply list_elem_of_In.
Qed.




End CascadeFacts.

(** ** The deploy page (C5, C9) *)

Section DeployFacts.
Import DeployPage Spec.

Variable JSON_parse : JsString -> option value.

Lemma getPropOpt_field (v : value) (k : JsString) :
  inherited k = VUndefined -> getPropOpt v k = Normal (field v k).
Proof.
  intros Hk. destruct v; simpl; rewrite ?Hk; try reflexivity.
  unfold lookupProp. destruct (assoc props k); by rewrite ?Hk.
Qed.

Lemma getProp_field (v : value) (k : JsString) :
  inherited k = VUndefined ->
  getProp v k = match v with
                | VUndefined | VNull => Throw TypeError
                | _ => Normal (field v k)
                end.
Proof.
  intros Hk. destruct v; simpl; rewrite ?Hk; try reflexivity.
  unfold lookupProp. destruct (assoc props k); by rewrite ?Hk.
Qed.

Lemma callIncludes_names (pt : value) (cloud : JsString) :
  callIncludes pt cloud = match pt with
                          | VString _ => Normal (names pt cloud)
                          | _ => Throw TypeError
                          end.
Proof. by destruct pt. Qed.

Lemma customMode_string (s : JsString) (settings : value) (cloud : JsString) :
  inherited cloud = VUndefined ->
  customMode (VString s) settings cloud
  = if includes s cloud then
      match settings with
      | VUndefined | VNull => Throw TypeError
      | _ => Normal (customModeOf settings cloud)
      end
    else Normal false.
Proof.
  intros Hcloud. unfold customMode, customModeOf. simpl.
  destruct (includes s cloud); [|reflexivity]. simpl.
  rewrite (getProp_field _ _ Hcloud).
  destruct settings; try reflexivity; simpl;
    by rewrite getPropOpt_field by reflexivity.
Qed.

(** A section in custom mode is an object. *)
Lemma customModeOf_section (settings : value) (cloud : JsString) :
  customModeOf settings cloud = true ->
  exists props, field settings cloud = VObject props.
Proof.
  unfold customModeOf. destruct (field settings cloud); try discriminate. eauto.
Qed.

Lemma credential_of_section (settings : value) (cloud key : JsString) :
  inherited cloud = VUndefined -> inherited key = VUndefined ->
  customModeOf settings cloud = true ->
  (let* section := getProp settings cloud in getProp section key)
  = Normal (field (field settings cloud) key).
Proof.
  intros Hcloud Hkey Hmode.
  destruct (customModeOf_section _ _ Hmode) as [props Hsection].
  rewrite (getProp_field _ _ Hcloud).
  destruct settings; try discriminate Hsection.
  cbn [bind]. rewrite Hsection. by rewrite (getProp_field _ _ Hkey).
Qed.

Ltac gcp_branch :=
  let H := fresh "Hgcp" in
  match goal with
  | |- context [customModeOf ?v (js "gcp")] =>
      destruct (customModeOf v (js "gcp")) eqn:H
  end;
  [ first [ by rewrite credential_of_section
          | by vm_compute in H ]
  | reflexivity ].

(** The inner [try] of [handleDeploy], against the specification's
    reading of the stored settings. *)
Lemma readCustomCredential_spec (pt : value) (text : JsString) :
  present (tryCatch (readCustomCredential JSON_parse pt (VString text)) VNull)
  = match JSON_parse text with
    | Some settings => customCredential pt settings
    | None => None
    end.
Proof.
  unfold readCustomCredential, parseSettings.
  destruct (JSON_parse text) as [settings|]; [|reflexivity]. cbn [bind].
  unfold customCredential.
  destruct pt as [| | | |s| | |]; try reflexivity.
  rewrite !customMode_string by reflexivity. cbn [names].
  destruct (includes s (js "azure")) eqn:Hazure; cbn [andb].
  - destruct (customModeOf settings (js "azure")) eqn:Hmode.
    + destruct settings; try (vm_compute in Hmode; discriminate); cbn [bind].
      by rewrite credential_of_section.
    + destruct settings; try reflexivity; cbn [bind];
        (destruct (includes s (js "gcp")); cbn [bind andb]; [|reflexivity]);
        gcp_branch.
  - cbn [bind]. destruct (includes s (js "gcp")); cbn [bind andb]; [|reflexivity].
    destruct settings; try reflexivity; cbn [bind];
      gcp_branch.
Qed.

Lemma savedSettings_spec (sessionStorage localStorage : gmap JsString JsString)
    (pt : value) :
  let savedSettings :=
    or_else (getItem sessionStorage (js "cloudCredentials"))
            (getItem localStorage (js "cloudCredentials")) in
  present (if truthy savedSettings
           then tryCatch (readCustomCredential JSON_parse pt savedSettings) VNull
           else VNull)
  = match storedSettings JSON_parse sessionStorage localStorage with
    | Some settings => customCredential pt settings
    | None => None
    end.
Proof.
  unfold storedSettings, getItem.
  destruct (sessionStorage !! js "cloudCredentials") as [[|c r]|];
    destruct (localStorage !! js "cloudCredentials") as [[|c' r']|];
    cbn -[js readCustomCredential]; try reflexivity;
    apply readCustomCredential_spec.
Qed.

(** The payload's keys, read back. *)
Lemma payload_keys (pt tn custom rg loc params : value) :
  let payload :=
    [ (js "provider_type", pt); (js "template_name", tn) ]
    ++ (if truthy custom then [ (js "subscription_id", custom) ] else [])
    ++ [ (js "resource_group", rg); (js "location", loc); (js "parameters", params) ] in
  assoc payload (js "subscription_id") = present custom /\
  assoc payload (js "resource_group") = Some rg /\
  assoc payload (js "provider_type") = Some pt.
Proof. unfold present. by destruct (truthy custom). Qed.

(** [handleDeploy] reaches the request exactly when the form names a
    resource group or the provider type is a text. *)
Lemma handleDeploy_requests (sessionStorage localStorage : gmap JsString JsString)
    (selectedTemplate : Template) (formData : list (JsString * value)) :
  (exists s, providerTypeOf selectedTemplate = VString s) ->
  exists payload,
    handleDeploy JSON_parse sessionStorage localStorage selectedTemplate formData
    = Normal payload.
Proof.
  intros [s Hs]. unfold handleDeploy. rewrite Hs.
  destruct (negb (truthy _)); cbn [bind callIncludes]; eauto.
Qed.

(** A cloud provider that is not a name inherited from
    [Object.prototype] gives a provider type that is a text. *)
Lemma providerTypeOf_text (selectedTemplate : Template) :
  existsb (strEq (cloud_provider selectedTemplate)) objectPrototypeKeys = false ->
  exists s, providerTypeOf selectedTemplate = VString s.
Proof.
  intros Hown. unfold providerTypeOf, lookupProp, inherited. rewrite Hown.
  cbn [providerTypeMap assoc].
  destruct (strEq (js "azure") _); [by eexists|].
  destruct (strEq (js "gcp") _); by eexists.
Qed.

(** C5.  Whenever [handleDeploy] sends a payload, its [subscription_id]
    is decided by the stored settings alone: with a custom credential
    for the selected provider (Azure section in custom mode with a
    subscription id, for an Azure provider type; GCP section in custom mode
    with a project id, for a GCP one) the key is there and holds that
    credential; in every other case the payload has no such key.  And a
    payload is sent whenever the provider type is a text. *)
Theorem custom_credential_decides_subscription_id
    (sessionStorage localStorage : gmap JsString JsString)
    (selectedTemplate : Template) (formData : list (JsString * value)) :
  ((exists s, providerTypeOf selectedTemplate = VString s) ->
   exists payload,
     handleDeploy JSON_parse sessionStorage localStorage selectedTemplate formData
     = Normal payload) /\
  (forall payload,
     handleDeploy JSON_parse sessionStorage localStorage selectedTemplate formData
     = Normal payload ->
     assoc payload (js "subscription_id")
     = match storedSettings JSON_parse sessionStorage localStorage with
       | Some settings => customCredential (providerTypeOf selectedTemplate) settings
       | None => None
       end).
Proof.
  split; [apply handleDeploy_requests|].
  intros payload. unfold handleDeploy.
  match goal with |- bind ?c _ = _ -> _ => destruct c as [crg|e] end;
    cbn [bind]; [|discriminate].
  intros [= <-].
  rewrite <- savedSettings_spec. cbv zeta. apply payload_keys.
Qed.

(** C9.  Whenever [handleDeploy] sends a payload for a form that gives
    neither [resource_group] nor [resource_group_name] (absent, or empty),
    the payload's [resource_group] is the text [default] when the
    provider type names GCP, and the empty text otherwise.  A payload is
    sent whenever the provider type is a text. *)
Theorem gcp_resource_group_defaults
    (sessionStorage localStorage : gmap JsString JsString)
    (selectedTemplate : Template) (formData : list (JsString * value)) :
  truthy (lookupProp formData (js "resource_group")) = false ->
  truthy (lookupProp formData (js "resource_group_name")) = false ->
  ((exists s, providerTypeOf selectedTemplate = VString s) ->
   exists payload,
     handleDeploy JSON_parse sessionStorage localStorage selectedTemplate formData
     = Normal payload) /\
  (forall payload,
     handleDeploy JSON_parse sessionStorage localStorage selectedTemplate formData
     = Normal payload ->
     assoc payload (js "resource_group")
     = Some (VString (if names (providerTypeOf selectedTemplate) (js "gcp")
                      then js "default" else []))).
Proof.
  intros Hrg Hrgn. split; [apply handleDeploy_requests|].
  intros payload. unfold handleDeploy.
  assert (or_else (or_else (lookupProp formData (js "resource_group"))
                           (lookupProp formData (js "resource_group_name")))
                  (VString []) = VString []) as ->.
  { unfold or_else. by rewrite Hrg, Hrgn. }
  change (negb (truthy (VString []))) with true. cbv iota.
  rewrite callIncludes_names.
  destruct (providerTypeOf selectedTemplate) as [| | | |s| | |] eqn:Hpt;
    cbn [bind]; try discriminate.
  intros [= <-].
  etransitivity; [apply payload_keys|].
  cbn [names]. by destruct (includes s (js "gcp")).
Qed.

End DeployFacts.

(** C5 on an Azure template with a custom subscription stored in the
    browser's settings. *)
Lemma custom_credential_decides_subscription_id_witness :
  let parse := fun _ : JsString =>
    Some (VObject [ (js "azure",
                     VObject [ (js "mode", VString (js "custom"));
                               (js "subscriptionId", VString (js "sub-1")) ]) ]) in
  exists payload,
    DeployPage.handleDeploy parse ∅ {[ js "cloudCredentials" := js "{}" ]}
      (DeployPage.mkTemplate (VString (js "storage")) (js "azure"))
      [ (js "resource_group", VString (js "rg")) ] = Normal payload /\
    assoc payload (js "subscription_id") = Some (VString (js "sub-1")).
Proof.
  intros parse.
  destruct (custom_credential_decides_subscription_id parse
              ∅ {[ js "cloudCredentials" := js "{}" ]}
              (DeployPage.mkTemplate (VString (js "storage")) (js "azure"))
              [ (js "resource_group", VString (js "rg")) ]) as [Hsent Hkey].
  destruct Hsent as [payload Hpayload]; [by eexists|].
  exists payload. split; [exact Hpayload|].
  rewrite (Hkey payload Hpayload). reflexivity.
Defined.

(** C9 on a GCP template and a form that names no resource group. *)
Lemma gcp_resource_group_defaults_witness :
  exists payload,
    DeployPage.handleDeploy (fun _ => None) ∅ ∅
      (DeployPage.mkTemplate (VString (js "bucket")) (js "gcp"))
      [ (js "region", VString (js "europe-west1")) ] = Normal payload /\
    assoc payload (js "resource_group") = Some (VString (js "default")).
Proof.
  destruct (gcp_resource_group_defaults (fun _ => None) ∅ ∅
              (DeployPage.mkTemplate (VString (js "bucket")) (js "gcp"))
              [ (js "region", VString (js "europe-west1")) ] eq_refl eq_refl)
    as [Hsent Hkey].
  destruct Hsent as [payload Hpayload]; [by eexists|].
  exists payload. split; [exact Hpayload|].
  rewrite (Hkey payload Hpayload). reflexivity.
Defined.

(** ** Roles (C6) *)

Section RoleFacts.
Import UserManagement Spec.

(** The three roles' permission sets are nested. *)
Lemma getRolePermissions_nested :
  permissionNames (getRolePermissions (js "viewer"))
    ⊆ permissionNames (getRolePermissions (js "user")) /\
  permissionNames (getRolePermissions (js "user"))
    ⊆ permissionNames (getRolePermissions (js "admin")).
Proof.
  split; intros x Hx; apply (bool_decide_unpack _) ; vm_compute in Hx |- *;
    repeat (apply elem_of_cons in Hx as [-> | Hx]; [reflexivity|]);
    by apply elem_of_nil in Hx.
Qed.

(** A role that is none of the three and not a name inherited from
    [Object.prototype] has no permission. *)
Lemma getRolePermissions_unknown (role : JsString) :
  role <> js "admin" -> role <> js "user" -> role <> js "viewer" ->
  existsb (strEq role) objectPrototypeKeys = false ->
  getRolePermissions role = VArray [].
Proof.
  intros Ha Hu Hv Hown. unfold getRolePermissions, lookupProp, inherited.
  rewrite Hown. cbn [permissions assoc].
  rewrite (proj2 (strEq_false (js "admin") role)) by done.
  rewrite (proj2 (strEq_false (js "user") role)) by done.
  rewrite (proj2 (strEq_false (js "viewer") role)) by done.
  reflexivity.
Qed.

(** C6.  The permission sets of the three roles are as the table gives
    them and nested (viewer within user within admin), and a role that is
    neither one of the three nor a name every object inherits has the empty
    set.  For the role [constructor], outside the three, the lookup finds
    the property inherited from [Object.prototype]: the result is that
    built-in function, not the empty permission list. *)
Theorem getRolePermissions_inherited_role :
  (permissionNames (getRolePermissions (js "viewer"))
     ⊆ permissionNames (getRolePermissions (js "user")) /\
   permissionNames (getRolePermissions (js "user"))
     ⊆ permissionNames (getRolePermissions (js "admin"))) /\
  getRolePermissions (js "guest") = VArray [] /\
  getRolePermissions (js "constructor") = VBuiltin (js "constructor") /\
  getRolePermissions (js "constructor") <> VArray [].
Proof.
  split; [apply getRolePermissions_nested|].
  split; [reflexivity|]. split; [reflexivity|]. discriminate.
Qed.

End RoleFacts.

(** ** Parameter collection (C7) *)

Section CollectFacts.
Import Utils Deployments Spec.

Variable JSON_parse : JsString -> option value.

(** Apart from [tags], whatever is collected is text. *)
Lemma collectParameters_text (doc : Document) (key : JsString) (v : value) :
  key <> js "tags" ->
  collectParameters JSON_parse doc !! key = Some v -> exists text, v = VString text.
Proof.
  intros Hkey. unfold collectParameters.
  set (isText := fun m : gmap JsString value =>
                   forall v, m !! key = Some v -> exists text, v = VString text).
  assert (forall k (f : option JsString) m, isText m -> isText (collectField k f m))
    as Hfield.
  { intros k [text|] m Hm; [|exact Hm]. intros w. unfold collectField.
    destruct (decide (k = key)) as [->|Hne].
    - rewrite lookup_insert_eq. intros [= <-]. eauto.
    - rewrite lookup_insert_ne by done. apply Hm. }
  assert (forall inputs m, isText m -> isText (fold_left (collectInput JSON_parse) inputs m))
    as Hfold.
  { induction inputs as [|input inputs IH]; intros m Hm; [exact Hm|].
    simpl. apply IH. intros w. unfold collectInput, assignParam.
    destruct (decide (input_name input = key)) as [Heq|Hne].
    - rewrite Heq, (proj2 (strEq_false key (js "tags"))) by done.
      repeat match goal with
             | |- context [if ?c then _ else _] => destruct c
             end; rewrite ?lookup_insert_eq; try apply Hm; intros [= <-]; eauto.
    - repeat match goal with
             | |- context [if ?c then _ else _] => destruct c
             end; rewrite ?lookup_insert_ne by done; apply Hm. }
  assert (isText ∅) as Hempty by (intros w; by rewrite lookup_empty).
  intros Hv. destruct (parametersForm doc) as [inputs|];
    [eapply Hfold; [|exact Hv] | eapply Hfield; [|exact Hv]];
    repeat apply Hfield; exact Hempty.
Qed.

(** An input leaves every parameter but its own alone. *)
Lemma collectInput_other (parameters : gmap JsString value) (input : FormInput)
    (key : JsString) :
  input_name input <> key ->
  collectInput JSON_parse parameters input !! key = parameters !! key.
Proof.
  intros Hne. unfold collectInput, assignParam.
  repeat match goal with
         | |- context [if ?c then _ else _] => destruct c
         end; try reflexivity; by rewrite lookup_insert_ne.
Qed.

Lemma collect_later_inputs (inputs : list FormInput)
    (parameters : gmap JsString value) (key : JsString) :
  Forall (fun input => input_name input <> key) inputs ->
  fold_left (collectInput JSON_parse) inputs parameters !! key = parameters !! key.
Proof.
  intros Hall. revert parameters.
  induction Hall as [|input inputs Hne _ IH]; intros parameters; [reflexivity|].
  simpl. by rewrite IH, collectInput_other.
Qed.

(** The value collected under a name is the one its last input gives. *)
Lemma collectParameters_last (doc : Document) (before after : list FormInput)
    (input : FormInput) :
  parametersForm doc = Some (before ++ input :: after) ->
  Forall (fun later => input_name later <> input_name input) after ->
  exists parameters,
    collectParameters JSON_parse doc !! input_name input
    = collectInput JSON_parse parameters input !! input_name input.
Proof.
  intros Hform Hafter. unfold collectParameters. rewrite Hform.
  rewrite fold_left_app. cbn [fold_left].
  eexists. by apply collect_later_inputs.
Qed.

(** What the [tags] branch makes of a text that is blank, is not
    brace-delimited, or is not JSON. *)
Lemma collectTags_fallback (text : JsString) :
  trim text = [] \/
  startsWith (trim text) (js "{") && endsWith (trim text) (js "}") = false \/
  JSON_parse (trim text) = None ->
  collectTags JSON_parse text = VObject [].
Proof.
  unfold collectTags, parseJson.
  intros [-> | [H | H]]; [reflexivity | |].
  - rewrite H. by destruct (bool_decide _).
  - rewrite H. destruct (bool_decide _); [reflexivity|]. by destruct (_ && _).
Qed.

(** What is collected for an input of any other name is its text. *)
Lemma collectInput_text (parameters : gmap JsString value) (name text : JsString) :
  name <> [] -> name <> js "tags" -> name <> js "__proto__" ->
  collectInput JSON_parse parameters (mkInput name text) !! name = Some (VString text).
Proof.
  intros Hne Htags Hproto. unfold collectInput, assignParam. cbn [input_name input_value].
  rewrite (bool_decide_eq_false_2 _ Hne). cbn [negb].
  rewrite (proj2 (strEq_false _ _) Htags), (proj2 (strEq_false _ _) Hproto).
  destruct (existsb _ imageFields); by rewrite lookup_insert_eq.
Qed.

(** C7.  The fallback is there for the parameter named [tags]: when its
    text is blank, is not enclosed in braces, or fails to parse, the
    collected value is the empty object.  It is missing for every other
    JSON editor.  The parameter [subnets] of type [array] and the
    parameter [settings] of type [object] are shown as JSON editors, the
    array editor with the advice to leave it empty for the empty array;
    whatever text they hold, that text is what is collected for them: for
    an editor left empty the empty text, for text that is not JSON that
    text, and never the empty array or the empty object.  The same holds
    of every input whose name is not [tags]. *)
Theorem json_fallback_is_for_tags_only :
  let arrayParameter := mkParameter (VString (js "array")) [] VUndefined in
  let objectParameter := mkParameter (VString (js "object")) [] VUndefined in
  let form text :=
    mkDocument None None None
      (Some [mkInput (js "subnets") text; mkInput (js "settings") text;
             mkInput (js "tags") text]) in
  (controlFor (js "subnets") arrayParameter = ArrayEditor /\
   controlFor (js "settings") objectParameter = ObjectEditor /\
   controlFor (js "tags") objectParameter = ObjectEditor) /\
  (forall text,
     trim text = [] \/
     startsWith (trim text) (js "{") && endsWith (trim text) (js "}") = false \/
     JSON_parse (trim text) = None ->
     collectParameters JSON_parse (form text) !! js "tags" = Some (VObject [])) /\
  (forall text,
     collectParameters JSON_parse (form text) !! js "subnets" = Some (VString text) /\
     collectParameters JSON_parse (form text) !! js "subnets" <> Some (VArray []) /\
     collectParameters JSON_parse (form text) !! js "settings" = Some (VString text) /\
     collectParameters JSON_parse (form text) !! js "settings" <> Some (VObject [])) /\
  (collectParameters JSON_parse (form []) !! js "subnets" = Some (VString []) /\
   collectParameters JSON_parse (form (js "not json")) !! js "subnets"
   = Some (VString (js "not json")) /\
   collectParameters JSON_parse (form (js "not json")) !! js "tags" = Some (VObject [])) /\
  (forall doc before after name text,
     parametersForm doc = Some (before ++ mkInput name text :: after) ->
     Forall (fun later => input_name later <> name) after ->
     name <> [] -> name <> js "tags" -> name <> js "__proto__" ->
     collectParameters JSON_parse doc !! name = Some (VString text)).
Proof.
  intros arrayParameter objectParameter form.
  assert (forall doc before after name text,
            parametersForm doc = Some (before ++ mkInput name text :: after) ->
            Forall (fun later => input_name later <> name) after ->
            name <> [] -> name <> js "tags" -> name <> js "__proto__" ->
            collectParameters JSON_parse doc !! name = Some (VString text)) as Htext.
  { intros doc before after name text Hform Hafter Hne Htags Hproto.
    destruct (collectParameters_last doc before after (mkInput name text) Hform Hafter)
      as [parameters Hlast].
    cbn [input_name] in Hlast. rewrite Hlast. by apply collectInput_text. }
  assert (forall text,
            collectParameters JSON_parse (form text) !! js "subnets" = Some (VString text))
    as Hsubnets.
  { intros text.
    apply (Htext (form text) [] [mkInput (js "settings") text; mkInput (js "tags") text]
             (js "subnets") text); try done.
    repeat constructor; discriminate. }
  assert (forall text,
            collectParameters JSON_parse (form text) !! js "settings" = Some (VString text))
    as Hsettings.
  { intros text.
    apply (Htext (form text) [mkInput (js "subnets") text] [mkInput (js "tags") text]
             (js "settings") text); try done.
    repeat constructor; discriminate. }
  assert (forall text,
            trim text = [] \/
            startsWith (trim text) (js "{") && endsWith (trim text) (js "}") = false \/
            JSON_parse (trim text) = None ->
            collectParameters JSON_parse (form text) !! js "tags" = Some (VObject []))
    as Htags.
  { intros text Hbad.
    destruct (collectParameters_last (form text)
                [mkInput (js "subnets") text; mkInput (js "settings") text] []
                (mkInput (js "tags") text) eq_refl ltac:(constructor))
      as [parameters Hlast].
    cbn [input_name] in Hlast. rewrite Hlast. unfold collectInput.
    cbn [input_name input_value].
    rewrite strEq_refl, (bool_decide_eq_false_2 (js "tags" = [])) by discriminate.
    cbn [negb]. rewrite lookup_insert_eq. by rewrite collectTags_fallback. }
  split; [repeat split|]. split; [exact Htags|]. split; [|split].
  - intros text. rewrite Hsubnets, Hsettings. repeat split; discriminate.
  - split; [apply Hsubnets|]. split; [apply Hsubnets|].
    apply Htags. right. left. reflexivity.
  - exact Htext.
Qed.

(** On collected parameters validation does not throw, so
    [deployTemplate] always runs to its end. *)
Lemma validateDeploymentParameters_collected (sel : value) (doc : Document) :
  exists errors,
    validateDeploymentParameters sel (collectParameters JSON_parse doc) = Normal errors.
Proof.
  unfold validateDeploymentParameters, param.
  assert (forall key, key <> js "tags" ->
            exists t, callTrim (or_else match collectParameters JSON_parse doc !! key with
                                        | Some v => v
                                        | None => VUndefined
                                        end (VString [])) = Normal t) as Htext.
  { intros key Hkey.
    destruct (collectParameters JSON_parse doc !! key) as [v|] eqn:E; [|by eexists].
    destruct (collectParameters_text doc key v Hkey E) as [text ->].
    rewrite callTrim_text_or_empty. by eexists. }
  destruct (Htext (js "resourceGroupName")) as [rg ->]; [discriminate|].
  destruct (Htext (js "location")) as [loc ->]; [discriminate|].
  cbn [bind]. by eexists.
Qed.

Lemma deployTemplate_returns (network : DeploymentData -> FetchOutcome)
    (typeErrorMessage : JsString) (parametersModal : bool) (sel : value) (doc : Document) :
  exists effects,
    deployTemplate JSON_parse network typeErrorMessage parametersModal sel doc
    = Normal effects.
Proof.
  unfold deployTemplate.
  destruct (validateDeploymentParameters_collected sel doc) as [errors ->].
  cbn [bind]. destruct (0 <? length errors); by eexists.
Qed.

End CollectFacts.

(** C7 on the form with all three editors holding [{oops}], which is
    not JSON: the empty object for [tags], the text itself for the array
    parameter. *)
Lemma json_fallback_is_for_tags_only_witness :
  let doc := Utils.mkDocument None None None
               (Some [Utils.mkInput (js "subnets") (js "{oops}");
                      Utils.mkInput (js "settings") (js "{oops}");
                      Utils.mkInput (js "tags") (js "{oops}")]) in
  Utils.collectParameters (fun _ => None) doc !! js "tags" = Some (VObject []) /\
  Utils.collectParameters (fun _ => None) doc !! js "subnets" = Some (VString (js "{oops}")).
Proof.
  intros doc.
  destruct (json_fallback_is_for_tags_only (fun _ => None)) as (_ & Htags & Hother & _).
  split.
  - apply (Htags (js "{oops}")). right. right. reflexivity.
  - apply (Hother (js "{oops}")).
Defined.

(** ** Monitoring (C8) *)

Section MonitorFacts.
Import Deployments Spec.

Variable templateName : JsString.

Lemma checks_emit (ns : list Notice) (m : Monitor) :
  checks (emit ns m) = checks m + length (List.filter isFetchStatus ns).
Proof. unfold checks, emit. simpl. by rewrite List.filter_app, length_app. Qed.

Lemma warnings_emit (ns : list Notice) (m : Monitor) :
  warnings (emit ns m) = warnings m + length (List.filter isWarning ns).
Proof. unfold warnings, emit. simpl. by rewrite List.filter_app, length_app. Qed.

(** The [try] block returns [true] exactly on a terminal state, and
    neither way does it request or warn. *)
Lemma tryCheck_spec (reply : StatusReply) :
  match tryCheck templateName reply with
  | inl ns => terminalState reply = true /\
              List.filter isFetchStatus ns = [] /\ List.filter isWarning ns = []
  | inr logged => terminalState reply = false /\
                  List.filter isFetchStatus logged = [] /\ List.filter isWarning logged = []
  end.
Proof.
  destruct reply as [|[|] [status|e]]; try done. unfold tryCheck, terminalState.
  destruct status; cbn -[js]; try done.
  unfold lookupProp.
  destruct (assoc props (js "provisioningState")) as [state|]; [|done].
  destruct (isString state (js "Succeeded")); [done|].
  by destruct (isString state (js "Failed")).
Qed.

(** One check on a terminal state: the check is counted, the attempts
    are not, monitoring stops, nothing warns. *)
Lemma checkStatus_terminal (reply : StatusReply) (m : Monitor) :
  terminalState reply = true ->
  exists m', checkStatus templateName reply m = (true, m') /\
             checks m' = S (checks m) /\ warnings m' = warnings m /\
             attempts m' = attempts m.
Proof.
  intros Hterm. unfold checkStatus, settleStatus, requestStatus.
  pose proof (tryCheck_spec reply) as Hspec.
  destruct (tryCheck templateName reply) as [ns|logged].
  - destruct Hspec as (_ & Hf & Hw). eexists. split; [reflexivity|].
    rewrite !checks_emit, !warnings_emit, Hf, Hw. simpl. split; [lia|]. split; [lia|done].
  - destruct Hspec as (Hnot & _). congruence.
Qed.

(** One check on anything else: check and attempt are counted;
    monitoring stops, with one warning, exactly when the attempts reach
    the maximum. *)
Lemma checkStatus_pending (reply : StatusReply) (m : Monitor) :
  terminalState reply = false ->
  exists m', checkStatus templateName reply m = (maxAttempts <=? S (attempts m), m') /\
             checks m' = S (checks m) /\ attempts m' = S (attempts m) /\
             warnings m' = warnings m + (if maxAttempts <=? S (attempts m) then 1 else 0) /\
             ((maxAttempts <=? S (attempts m)) = true ->
              exists pre, trace m' = pre ++ [NoticeWarning msgTimeout]).
Proof.
  intros Hterm. unfold checkStatus, settleStatus, requestStatus.
  pose proof (tryCheck_spec reply) as Hspec.
  destruct (tryCheck templateName reply) as [ns|logged].
  - destruct Hspec as (Hyes & _). congruence.
  - destruct Hspec as (_ & Hf & Hw). cbn [attempts emit].
    destruct (maxAttempts <=? S (attempts m)); eexists; (split; [reflexivity|]);
      rewrite ?checks_emit, ?warnings_emit; unfold checks, warnings; cbn [trace attempts emit];
      rewrite !List.filter_app, !length_app, ?Hf, ?Hw; simpl;
      (split; [lia|]); (split; [lia|]); (split; [lia|]); [eauto | discriminate].
Qed.

Variable replies : nat -> StatusReply.

Local Abbreviation go := (fold_left (step templateName)).
Local Abbreviation pairs k ticks :=
  (flat_map (fun i => [Tick; Answer (replies i)]) (seq k ticks)) (only parsing).

(** A tick whose check is answered before the next tick. *)
Lemma go_pairs_S (k ticks : nat) (m : Monitor) :
  go (pairs k (S ticks)) {| monitor := m; phase := Polling 0 |}
  = go (pairs (S k) ticks)
      (let '(shouldStop, m') := checkStatus templateName (replies k) m in
       if shouldStop then {| monitor := emit [ClearInterval] m'; phase := Stopped 0 |}
       else {| monitor := m'; phase := Polling 0 |}).
Proof. reflexivity. Qed.

(** With the interval cleared and no check waiting, nothing happens any
    more; nor after the function returned without setting it. *)
Lemma stopped_idle (events : list Event) (m : Monitor) :
  go events {| monitor := m; phase := Stopped 0 |}
  = {| monitor := m; phase := Stopped 0 |}.
Proof. induction events as [|[|reply] events IH]; [reflexivity | exact IH..]. Qed.

Lemma returned_idle (events : list Event) (m : Monitor) :
  go events {| monitor := m; phase := Returned |}
  = {| monitor := m; phase := Returned |}.
Proof. induction events as [|[|reply] events IH]; [reflexivity | exact IH..]. Qed.

(** The interval, entered with [n] attempts left and answered in time:
    it is cleared within [n] ticks whatever the replies are. *)
Lemma polling_timely (n : nat) :
  forall (k : nat) (m : Monitor),
    attempts m + S n = maxAttempts ->
    exists m',
      (forall ticks, S n <= ticks ->
                     go (pairs k ticks) {| monitor := m; phase := Polling 0 |}
                     = {| monitor := m'; phase := Stopped 0 |}) /\
      checks m' <= checks m + S n /\
      ((forall j, j <= n -> terminalState (replies (k + j)) = false) ->
       checks m' = checks m + S n /\ warnings m' = warnings m + 1 /\
       exists pre, trace m' = pre ++ [NoticeWarning msgTimeout; ClearInterval]) /\
      (forall j, j <= n -> terminalState (replies (k + j)) = true ->
                 (forall i, i < j -> terminalState (replies (k + i)) = false) ->
                 checks m' = checks m + S j /\ warnings m' = warnings m).
Proof.
  induction n as [|n IH]; intros k m Hleft.
  - destruct (terminalState (replies k)) eqn:Hk.
    + destruct (checkStatus_terminal _ m Hk) as (m1 & Hrun & Hc & Hw & _).
      exists (emit [ClearInterval] m1). repeat split.
      * intros [|ticks] Hticks; [lia|]. rewrite go_pairs_S, Hrun. apply stopped_idle.
      * rewrite checks_emit. simpl. lia.
      * specialize (H 0 ltac:(lia)). rewrite Nat.add_0_r in H. congruence.
      * specialize (H 0 ltac:(lia)). rewrite Nat.add_0_r in H. congruence.
      * specialize (H 0 ltac:(lia)). rewrite Nat.add_0_r in H. congruence.
      * assert (j = 0) as -> by lia. rewrite checks_emit. simpl. lia.
      * rewrite warnings_emit. simpl. lia.
    + destruct (checkStatus_pending _ m Hk) as (m1 & Hrun & Hc & Ha & Hw & Hlast).
      assert ((maxAttempts <=? S (attempts m)) = true) as Hstop
        by (apply Nat.leb_le; lia).
      rewrite Hstop in *. destruct (Hlast eq_refl) as [pre Hpre].
      exists (emit [ClearInterval] m1). repeat split.
      * intros [|ticks] Hticks; [lia|]. rewrite go_pairs_S, Hrun. apply stopped_idle.
      * rewrite checks_emit. simpl. lia.
      * rewrite checks_emit. simpl. lia.
      * rewrite warnings_emit. simpl. lia.
      * exists pre. unfold emit. cbn [trace]. rewrite Hpre, <- app_assoc. reflexivity.
      * assert (j = 0) as -> by lia. rewrite Nat.add_0_r in *. congruence.
      * assert (j = 0) as -> by lia. rewrite Nat.add_0_r in *. congruence.
  - destruct (terminalState (replies k)) eqn:Hk.
    + destruct (checkStatus_terminal _ m Hk) as (m1 & Hrun & Hc & Hw & _).
      exists (emit [ClearInterval] m1). repeat split.
      * intros [|ticks] Hticks; [lia|]. rewrite go_pairs_S, Hrun. apply stopped_idle.
      * rewrite checks_emit. simpl. lia.
      * specialize (H 0 ltac:(lia)). rewrite Nat.add_0_r in H. congruence.
      * specialize (H 0 ltac:(lia)). rewrite Nat.add_0_r in H. congruence.
      * specialize (H 0 ltac:(lia)). rewrite Nat.add_0_r in H. congruence.
      * destruct j as [|j]; [rewrite checks_emit; simpl; lia|].
        specialize (H1 0 ltac:(lia)). rewrite Nat.add_0_r in H1. congruence.
      * rewrite warnings_emit. simpl. lia.
    + destruct (checkStatus_pending _ m Hk) as (m1 & Hrun & Hc & Ha & Hw & _).
      assert ((maxAttempts <=? S (attempts m)) = false) as Hgo
        by (apply Nat.leb_gt; lia).
      rewrite Hgo in *.
      destruct (IH (S k) m1 ltac:(lia)) as (m' & Hticks & Hle & Hnone & Hsome).
      exists m'. split; [|split; [|split]].
      * intros [|ticks] Ht; [lia|]. rewrite go_pairs_S, Hrun. apply Hticks. lia.
      * lia.
      * intros Hall. destruct Hnone as (Hc' & Hw' & Htrace).
        { intros j Hj. rewrite Nat.add_succ_l, <- Nat.add_succ_r. apply Hall. lia. }
        split; [lia|]. split; [lia|done].
      * intros [|j] Hj Hterm Hbefore.
        { rewrite Nat.add_0_r in Hterm. congruence. }
        destruct (Hsome j ltac:(lia)) as (Hc' & Hw').
        { by rewrite Nat.add_succ_l, <- Nat.add_succ_r. }
        { intros i Hi. rewrite Nat.add_succ_l, <- Nat.add_succ_r. apply Hbefore. lia. }
        split; lia.
Qed.

(** A run whose answers all arrive in time: the first check's request
    and answer, then the interval. *)
Lemma monitorDeployment_timely (ticks : nat) :
  monitorDeployment templateName (timely replies ticks)
  = go (pairs 1 ticks)
      (let '(shouldStop, m) :=
         checkStatus templateName (replies 0) {| attempts := 0; trace := [] |} in
       if shouldStop then {| monitor := m; phase := Returned |}
       else {| monitor := emit [SetInterval] m; phase := Polling 0 |}).
Proof. reflexivity. Qed.

(** With answers in time the run ends, after at most twenty checks. *)
Lemma timely_run :
  exists m,
    (forall ticks, 19 <= ticks ->
       monitorDeployment templateName (timely replies ticks)
       = {| monitor := m;
            phase := if terminalState (replies 0) then Returned else Stopped 0 |}) /\
    checks m <= maxAttempts /\
    ((forall k, k < maxAttempts -> terminalState (replies k) = false) ->
     checks m = maxAttempts /\ warnings m = 1 /\
     exists pre, trace m = pre ++ [NoticeWarning msgTimeout; ClearInterval]) /\
    (forall k, k < maxAttempts -> terminalState (replies k) = true ->
               (forall i, i < k -> terminalState (replies i) = false) ->
               checks m = S k /\ warnings m = 0).
Proof.
  set (m0 := {| attempts := 0; trace := [] |}).
  assert (checks m0 = 0) as Hc0 by reflexivity.
  assert (warnings m0 = 0) as Hw0 by reflexivity.
  assert (attempts m0 = 0) as Ha0 by reflexivity.
  unfold maxAttempts.
  destruct (terminalState (replies 0)) eqn:H0.
  - destruct (checkStatus_terminal _ m0 H0) as (m1 & Hrun & Hc & Hw & _).
    exists m1. split.
    { intros ticks _. rewrite monitorDeployment_timely. fold m0. rewrite Hrun.
      apply returned_idle. }
    split; [lia|]. split.
    + intros Hall. specialize (Hall 0 ltac:(lia)). congruence.
    + intros [|k] Hk Hterm Hbefore; [split; lia|].
      specialize (Hbefore 0 ltac:(lia)). congruence.
  - destruct (checkStatus_pending _ m0 H0) as (m1 & Hrun & Hc & Ha & Hw & _).
    rewrite Ha0 in *.
    change (maxAttempts <=? 1) with false in *.
    destruct (polling_timely 18 1 (emit [SetInterval] m1))
      as (m & Hticks & Hle & Hnone & Hsome).
    { cbn [attempts emit]. rewrite Ha. reflexivity. }
    rewrite checks_emit, warnings_emit in *.
    cbn [List.filter isFetchStatus isWarning length] in *.
    exists m. split.
    { intros ticks Ht. rewrite monitorDeployment_timely. fold m0. rewrite Hrun.
      by apply Hticks. }
    split; [lia|]. split.
    + intros Hall. destruct Hnone as (Hc' & Hw' & Htrace).
      { intros j Hj. apply Hall. lia. }
      split; [lia|]. split; [lia|done].
    + intros [|k] Hk Hterm Hbefore; [congruence|].
      destruct (Hsome k) as (Hc' & Hw').
      { lia. }
      { exact Hterm. }
      { intros i Hi. apply (Hbefore (S i)). lia. }
      split; lia.
Qed.

Lemma step_tick (inFlight : nat) (m : Monitor) :
  step templateName {| monitor := m; phase := Polling inFlight |} Tick
  = {| monitor := requestStatus m; phase := Polling (S inFlight) |}.
Proof. by destruct inFlight. Qed.

(** While no answer arrives the interval keeps sending requests. *)
Lemma unanswered_ticks (n inFlight : nat) (m : Monitor) :
  go (repeat Tick n) {| monitor := m; phase := Polling inFlight |}
  = {| monitor := emit (repeat FetchStatus n) m; phase := Polling (n + inFlight) |}.
Proof.
  revert inFlight m. induction n as [|n IH]; intros inFlight m.
  - unfold emit. simpl. rewrite app_nil_r. by destruct m.
  - cbn [repeat fold_left]. rewrite step_tick, IH. f_equal.
    + unfold requestStatus, emit. cbn [attempts trace]. by rewrite <- app_assoc.
    + f_equal. lia.
Qed.

(** C8.  When every answer arrives before the interval fires again, the
    run is bounded: it ends after at most twenty status checks; when
    none of the first twenty replies reports a terminal state there are
    exactly twenty checks, and the run ends with the timeout warning
    (shown once) and the interval cleared; when the first terminal state
    ([Succeeded] or [Failed]) comes with check number [k + 1], that check
    is the last one and no warning is shown.  The bound rests on the
    answers being in time, and the code does not see to that: the
    interval's callback is not awaited and [attempts] is counted when an
    answer arrives.  With a deployment that stays [Running] and the
    twentieth answer still outstanding when the interval fires again, a
    twenty-first request goes out, and the warning is shown and
    [clearInterval] called twice; and as long as no answer arrives after
    the first, every tick sends another request and nothing stops the
    interval. *)
Theorem monitoring_stops_within_max_attempts :
  let running :=
    StatusResponse true (Normal (VObject [(js "provisioningState", VString (js "Running"))])) in
  (exists m,
     (forall ticks, 19 <= ticks ->
        monitor (monitorDeployment templateName (timely replies ticks)) = m /\
        phase (monitorDeployment templateName (timely replies ticks))
        = (if terminalState (replies 0) then Returned else Stopped 0)) /\
     checks m <= maxAttempts /\
     ((forall k, k < maxAttempts -> terminalState (replies k) = false) ->
      checks m = maxAttempts /\ warnings m = 1 /\
      exists pre, trace m = pre ++ [NoticeWarning msgTimeout; ClearInterval]) /\
     (forall k, k < maxAttempts -> terminalState (replies k) = true ->
                (forall i, i < k -> terminalState (replies i) = false) ->
                checks m = S k /\ warnings m = 0)) /\
  terminalState running = false /\
  (let late := monitorDeployment templateName
                 (timely (fun _ => running) 18
                  ++ [Tick; Tick; Answer running; Answer running]) in
   checks (monitor late) = 21 /\
   warnings (monitor late) = 2 /\
   phase late = Stopped 0 /\
   exists pre,
     trace (monitor late)
     = pre ++ [FetchStatus; FetchStatus;
               ConsoleLog; NoticeWarning msgTimeout; ClearInterval;
               ConsoleLog; NoticeWarning msgTimeout; ClearInterval]) /\
  (forall n,
     let hanging := monitorDeployment templateName (Answer running :: repeat Tick n) in
     checks (monitor hanging) = S n /\
     warnings (monitor hanging) = 0 /\
     phase hanging = Polling n).
Proof.
  intros running. split; [|split; [|split]].
  - destruct timely_run as (m & Hrun & Hrest). exists m. split; [|exact Hrest].
    intros ticks Hticks. by rewrite (Hrun ticks Hticks).
  - reflexivity.
  - cbv zeta. split; [by vm_compute|]. split; [by vm_compute|]. split; [by vm_compute|].
    match goal with
    | |- exists pre, ?t = _ => exists (firstn 39 t)
    end.
    by vm_compute.
  - intros n. cbv zeta. unfold monitorDeployment. cbn [fold_left].
    change (step templateName _ (Answer running))
      with {| monitor := emit [SetInterval]
                           {| attempts := 1; trace := [FetchStatus; ConsoleLog] |};
              phase := Polling 0 |}.
    rewrite unanswered_ticks. cbn [monitor phase].
    rewrite checks_emit, warnings_emit, Nat.add_0_r.
    split; [|split; [|reflexivity]].
    + assert (List.filter isFetchStatus (repeat FetchStatus n) = repeat FetchStatus n) as ->
        by (induction n as [|n IH]; [reflexivity | simpl; by rewrite IH]).
      rewrite repeat_length. unfold checks. simpl. lia.
    + assert (List.filter isWarning (repeat FetchStatus n) = []) as ->
        by (induction n as [|n IH]; [reflexivity | exact IH]).
      reflexivity.
Qed.

End MonitorFacts.

(** C8 on a status endpoint whose requests all fail, answered in time:
    twenty checks, one warning. *)
Lemma monitoring_stops_within_max_attempts_witness :
  exists m,
    Deployments.monitor
      (Deployments.monitorDeployment (js "storage")
         (Deployments.timely (fun _ => Deployments.StatusRejected) 19)) = m /\
    Deployments.checks m = 20 /\ Spec.warnings m = 1.
Proof.
  destruct (monitoring_stops_within_max_attempts (js "storage")
              (fun _ => Deployments.StatusRejected))
    as ((m & Hrun & _ & Hnone & _) & _).
  exists m. split; [apply (Hrun 19); lia|].
  destruct Hnone as (Hc & Hw & _); [reflexivity|]. by split.
Defined.

(** ** The log stream and its view *)

Section LogStreamFacts.
Import LogViewer LogStream.

Variable JSON_parse : JsString -> option value.

Lemma dispatch_closed (st : State) (ev : StreamEvent) :
  eventSourceOpen st = false -> dispatch JSON_parse st ev = st.
Proof. intros H. unfold dispatch. by rewrite H. Qed.

Lemma receive_closed (events : list StreamEvent) (st : State) :
  eventSourceOpen st = false -> receive JSON_parse events st = st.
Proof.
  intros H. induction events as [|ev events IH]; [reflexivity|].
  unfold receive in *. simpl. by rewrite dispatch_closed.
Qed.

(** One event: the log list keeps what it has and grows by one entry
    at most. *)
Lemma dispatch_logs (st : State) (ev : StreamEvent) :
  logs (dispatch JSON_parse st ev) = logs st \/
  exists entry, logs (dispatch JSON_parse st ev) = logs st ++ [entry].
Proof.
  unfold dispatch. destruct (eventSourceOpen st); [|by left].
  destruct ev as [event_data|]; [|by left].
  unfold onmessage. destruct (JSON_parse event_data) as [data|]; [|by left].
  unfold handle. destruct (getProp data (js "type")) as [type|e]; [|by left].
  cbn [bind]. destruct (isString type (js "log")).
  - destruct (entryOf data) as [entry|e]; [right; by eexists | by left].
  - destruct (_ || _); by left.
Qed.

(** X1.  Whatever the stream delivers, the log list only grows at its
    end: the entries held before are a prefix of the entries held after,
    and each event adds one entry at most.  Once the source is closed the
    state does not change any more; an error event closes it, so nothing
    that arrives after an error is added. *)
Theorem log_stream_is_append_only (events : list StreamEvent) (st : State) :
  logs st `prefix_of` logs (receive JSON_parse events st) /\
  length (logs (receive JSON_parse events st)) <= length (logs st) + length events /\
  (eventSourceOpen st = false -> receive JSON_parse events st = st) /\
  (forall before after,
     events = before ++ ErrorEvent :: after ->
     logs (receive JSON_parse events st) = logs (receive JSON_parse before st) /\
     eventSourceOpen (receive JSON_parse events st) = false).
Proof.
  split; [|split; [|split]].
  - revert st. induction events as [|ev events IH]; intros st; [done|].
    unfold receive in *. simpl. etransitivity; [|apply IH].
    destruct (dispatch_logs st ev) as [-> | [entry ->]]; [done|].
    by apply prefix_app_r.
  - revert st. induction events as [|ev events IH]; intros st; [simpl; lia|].
    unfold receive in *. simpl. etransitivity; [apply IH|].
    destruct (dispatch_logs st ev) as [-> | [entry ->]]; rewrite ?length_app; simpl; lia.
  - apply receive_closed.
  - intros before after ->. unfold receive. rewrite fold_left_app. simpl.
    fold (receive JSON_parse before st). set (mid := receive JSON_parse before st).
    assert (eventSourceOpen (dispatch JSON_parse mid ErrorEvent) = false) as Hclosed.
    { unfold dispatch. by destruct (eventSourceOpen mid) eqn:E. }
    assert (logs (dispatch JSON_parse mid ErrorEvent) = logs mid) as Hlogs.
    { unfold dispatch. by destruct (eventSourceOpen mid). }
    fold (receive JSON_parse after (dispatch JSON_parse mid ErrorEvent)).
    by rewrite receive_closed.
Qed.

End LogStreamFacts.

Section LogViewFacts.
Import LogViewer FilterOrders LogStream Spec.

Variable JSON_parse : JsString -> option value.
Variable toUpperCase : JsString -> JsString.
Variable toLowerCase : JsString -> JsString.

Lemma filter_sublist {A : Type} (p : A -> bool) (l : list A) :
  List.filter p l `sublist_of` l.
Proof.
  induction l as [|x l IH]; simpl; [constructor|].
  destruct (p x); by constructor.
Qed.

Lemma filterWhen_sublist {A : Type} (b : bool) (p : A -> bool) (l : list A) :
  filterWhen b p l `sublist_of` l.
Proof. destruct b; simpl; [apply filter_sublist | done]. Qed.

Lemma forallb_false_elem {A : Type} (p : A -> bool) (l : list A) :
  forallb p l = false -> exists x, x ∈ l /\ p x = false.
Proof.
  induction l as [|x l IH]; simpl; [discriminate|].
  destruct (p x) eqn:Hp.
  - intros H. destruct (IH H) as (y & Hin & Hy). exists y. split; [by right | exact Hy].
  - intros _. exists x. split; [by left | exact Hp].
Qed.

Local Abbreviation viewOf := (LogStream.viewOf toUpperCase toLowerCase).
Local Abbreviation effect := (applyFilters toUpperCase toLowerCase).

Lemma applyFilters_viewOf (st : State) :
  effect st
  = (let* filtered := viewOf (levelFilter st) (phaseFilter st) (searchQuery st) (logs st) in
     Normal (setFilteredLogs filtered st)).
Proof. apply applyFilters_chain. Qed.

(** A view that completes is what the three conditions keep. *)
Lemma viewOf_normal (lf pf q : JsString) (l a : list LogEntry) :
  viewOf lf pf q l = Normal a ->
  a = filterWhen (searchOn q) (sure (searchMatches toLowerCase (toLowerCase q)))
        (filterWhen (phaseOn pf) (sure (phaseMatches toUpperCase pf))
           (filterWhen (levelOn lf) (sure (levelMatches lf)) l)).
Proof.
  apply (chain_normal (levelOn lf) (phaseOn pf) (searchOn q) (levelMatches lf)
           (phaseMatches toUpperCase pf) (searchMatches toLowerCase (toLowerCase q))).
Qed.

Lemma viewOf_sublist (lf pf q : JsString) (l a : list LogEntry) :
  viewOf lf pf q l = Normal a -> a `sublist_of` l.
Proof.
  intros H. rewrite (viewOf_normal _ _ _ _ _ H).
  etransitivity; [apply (filterWhen_sublist _ _ _)|].
  etransitivity; [apply (filterWhen_sublist _ _ _)|].
  apply (filterWhen_sublist _ _ _).
Qed.

(** The view of a list that grew at its end. *)
Lemma viewOf_app (lf pf q : JsString) (l k a : list LogEntry) :
  viewOf lf pf q l = Normal a ->
  viewOf lf pf q (l ++ k) = (let* b := viewOf lf pf q k in Normal (a ++ b)).
Proof.
  unfold LogStream.viewOf.
  change (filterLevel lf) with (stepWhen (levelOn lf) (levelMatches lf)).
  change (filterPhase toUpperCase pf)
    with (stepWhen (phaseOn pf) (phaseMatches toUpperCase pf)).
  change (filterSearch toLowerCase q)
    with (stepWhen (searchOn q) (searchMatches toLowerCase (toLowerCase q))).
  generalize (stepWhen (levelOn lf) (levelMatches lf))
             (stepWhen_app (levelOn lf) (levelMatches lf)).
  generalize (stepWhen (phaseOn pf) (phaseMatches toUpperCase pf))
             (stepWhen_app (phaseOn pf) (phaseMatches toUpperCase pf)).
  generalize (stepWhen (searchOn q) (searchMatches toLowerCase (toLowerCase q)))
             (stepWhen_app (searchOn q) (searchMatches toLowerCase (toLowerCase q))).
  intros s3 H3 s2 H2 s1 H1.
  destruct (s1 l) as [a1|e] eqn:E1; [|discriminate]. cbn [bind].
  destruct (s2 a1) as [a2|e] eqn:E2; [|discriminate]. cbn [bind].
  intros E3. rewrite (H1 l k a1 E1).
  destruct (s1 k) as [b1|e]; [|reflexivity]. cbn [bind].
  rewrite (H2 a1 b1 a2 E2).
  destruct (s2 b1) as [b2|e]; [|reflexivity]. cbn [bind].
  apply (H3 a2 b2 a E3).
Qed.

(** X2.  When the filter effect completes, the view it writes shows
    entries of the log list, each at most once and in their order of
    arrival (it is a sublist), so the count shown is never above the
    total.  With level [ALL], phase [ALL] and no search text the effect
    completes on every log list, and the view is the whole list.  On a
    list whose entries all have a text level, phase and message the
    effect completes under every setting; when it throws, some entry of
    the list is not of that kind. *)
Theorem filtered_view_is_sublist (st : State) :
  (forall st', effect st = Normal st' ->
     filteredLogs st' `sublist_of` logs st /\
     length (filteredLogs st') <= length (logs st) /\
     logs st' = logs st) /\
  (levelFilter st = js "ALL" -> phaseFilter st = js "ALL" -> searchQuery st = [] ->
   effect st = Normal (setFilteredLogs (logs st) st)) /\
  (forallb textEntry (logs st) = true -> exists st', effect st = Normal st') /\
  (forall e, effect st = Throw e ->
     exists log, log ∈ logs st /\ textEntry log = false).
Proof.
  assert (forallb textEntry (logs st) = true -> exists st', effect st = Normal st')
    as Hcomplete.
  { intros Htext. rewrite applyFilters_viewOf.
    destruct (orders_complete toUpperCase toLowerCase (levelFilter st) (phaseFilter st)
                (searchQuery st) (logs st) _ Htext (list_elem_of_here _ _)) as [a Ha].
    exists (setFilteredLogs a st).
    change (viewOf (levelFilter st) (phaseFilter st) (searchQuery st) (logs st))
      with (andThen (filterLevel (levelFilter st))
              (andThen (filterPhase toUpperCase (phaseFilter st))
                 (filterSearch toLowerCase (searchQuery st))) (logs st)).
    by rewrite Ha. }
  split; [|split; [|split]].
  - intros st' Hrun. rewrite applyFilters_viewOf in Hrun.
    destruct (viewOf _ _ _ _) as [a|e] eqn:Ha; [|discriminate].
    cbn [bind] in Hrun. injection Hrun as <-. cbn [setFilteredLogs filteredLogs logs].
    pose proof (viewOf_sublist _ _ _ _ _ Ha) as Hsub.
    split; [exact Hsub|]. split; [by apply sublist_length | reflexivity].
  - intros Hl Hp Hq. unfold applyFilters. rewrite Hl, Hp, Hq. reflexivity.
  - exact Hcomplete.
  - intros e Hthrow. apply forallb_false_elem.
    destruct (forallb textEntry (logs st)); [|reflexivity].
    destruct (Hcomplete eq_refl) as [st' Hrun]. rewrite Hrun in Hthrow. discriminate.
Qed.

(** X3.  The view follows the stream.  A [log] event that arrives on an
    open source appends its entry to the log list.  When the effect had
    completed on the list before, then on the longer list it tests the new
    entry only: it writes the view computed before followed by the new
    entry, if the entry passes the filters, and nothing else; it throws
    exactly when a step throws on the new entry. *)
Theorem filtered_view_follows_stream (event_data : JsString) (data : value)
    (st st' : State) :
  eventSourceOpen st = true ->
  JSON_parse event_data = Some data ->
  getProp data (js "type") = Normal (VString (js "log")) ->
  effect st = Normal st' ->
  exists entry,
    entryOf data = Normal entry /\
    dispatch JSON_parse st (MessageEvent event_data)
    = setLogs (fun prevLogs => prevLogs ++ [entry]) st /\
    effect (dispatch JSON_parse st (MessageEvent event_data))
    = (let* shown := viewOf (levelFilter st) (phaseFilter st) (searchQuery st) [entry] in
       Normal (setFilteredLogs (filteredLogs st' ++ shown)
                 (dispatch JSON_parse st (MessageEvent event_data)))) /\
    (forall shown,
       viewOf (levelFilter st) (phaseFilter st) (searchQuery st) [entry] = Normal shown ->
       shown = [] \/ shown = [entry]).
Proof.
  intros Hopen Hparse Htype Hrun.
  assert (exists entry, entryOf data = Normal entry) as [entry Hentry].
  { unfold entryOf.
    destruct (getProp_after_type data _ (js "timestamp") Htype) as [ts ->].
    destruct (getProp_after_type data _ (js "level") Htype) as [lv ->].
    destruct (getProp_after_type data _ (js "phase") Htype) as [ph ->].
    destruct (getProp_after_type data _ (js "message") Htype) as [msg ->].
    destruct (getProp_after_type data _ (js "details") Htype) as [det ->].
    by eexists. }
  exists entry. split; [exact Hentry|].
  assert (dispatch JSON_parse st (MessageEvent event_data)
          = setLogs (fun prevLogs => prevLogs ++ [entry]) st) as Hdispatch.
  { unfold dispatch, onmessage, handle. rewrite Hopen, Hparse, Htype. cbn [bind].
    change (isString (VString (js "log")) (js "log")) with true. cbv iota.
    by rewrite Hentry. }
  split; [exact Hdispatch|]. split.
  - rewrite Hdispatch, applyFilters_viewOf.
    cbn [setLogs logs levelFilter phaseFilter searchQuery].
    rewrite applyFilters_viewOf in Hrun.
    destruct (viewOf (levelFilter st) (phaseFilter st) (searchQuery st) (logs st))
      as [a|e] eqn:Ha; [|discriminate].
    cbn [bind] in Hrun. injection Hrun as <-. cbn [setFilteredLogs filteredLogs].
    rewrite (viewOf_app _ _ _ _ [entry] a Ha).
    by destruct (viewOf _ _ _ [entry]).
  - intros shown Hshown. apply viewOf_sublist in Hshown.
    apply sublist_cons_r in Hshown as [Hnil | (rest & -> & Hnil)];
      apply sublist_nil_r in Hnil as ->; [by left | by right].
Qed.

End LogViewFacts.

(** X3 on the specification's example event, under the level filter
    [ERROR]. *)
Lemma filtered_view_follows_stream_witness :
  let data := VObject [(js "type", VString (js "log"));
                       (js "level", VString (js "ERROR"));
                       (js "phase", VString (js "applying"));
                       (js "message", VString (js "quota exceeded"))] in
  let entry := LogViewer.mkLog VUndefined (VString (js "ERROR")) (VString (js "applying"))
                 (VString (js "quota exceeded")) VUndefined in
  let st := LogViewer.mkState [] [] (js "ERROR") (js "ALL") [] true in
  LogViewer.applyFilters Spec.asciiUpper Spec.asciiLower
    (LogStream.dispatch (fun _ => Some data) st (LogStream.MessageEvent []))
  = Normal (LogViewer.mkState [entry] [entry] (js "ERROR") (js "ALL") [] true).
Proof.
  intros data entry st.
  destruct (filtered_view_follows_stream (fun _ => Some data) Spec.asciiUpper
              Spec.asciiLower [] data st st eq_refl eq_refl eq_refl eq_refl)
    as (entry' & Hentry & Hdispatch & Hview & _).
  rewrite Hview, Hdispatch. injection Hentry as <-. reflexivity.
Defined.

(** X1 on a stream of a log message, an error and another log message:
    one entry, the second message is not dispatched. *)
Lemma log_stream_is_append_only_witness :
  let data := VObject [(js "type", VString (js "log"));
                       (js "message", VString (js "planning"))] in
  let entry := LogViewer.mkLog VUndefined (VString (js "INFO")) (VString (js "unknown"))
                 (VString (js "planning")) VUndefined in
  let st := LogViewer.mkState [] [] (js "ALL") (js "ALL") [] true in
  let events := [LogStream.MessageEvent []; LogStream.ErrorEvent;
                 LogStream.MessageEvent []] in
  LogViewer.logs (LogStream.receive (fun _ => Some data) events st) = [entry] /\
  LogViewer.eventSourceOpen (LogStream.receive (fun _ => Some data) events st) = false.
Proof.
  intros data entry st events.
  destruct (log_stream_is_append_only (fun _ => Some data) events st)
    as (_ & _ & _ & Herror).
  destruct (Herror [LogStream.MessageEvent []] [LogStream.MessageEvent []] eq_refl)
    as [Hlogs Hclosed].
  split; [rewrite Hlogs; reflexivity | exact Hclosed].
Defined.

(** X2 on two entries with no filter set: both are shown. *)
Lemma filtered_view_is_sublist_witness :
  let e1 := LogViewer.mkLog VUndefined (VString (js "INFO")) (VString (js "planning"))
              (VString (js "plan")) VUndefined in
  let e2 := LogViewer.mkLog VUndefined (VString (js "ERROR")) (VString (js "applying"))
              (VString (js "quota")) VUndefined in
  let st := LogViewer.mkState [e1; e2] [] (js "ALL") (js "ALL") [] true in
  LogViewer.applyFilters Spec.asciiUpper Spec.asciiLower st
  = Normal (LogViewer.mkState [e1; e2] [e1; e2] (js "ALL") (js "ALL") [] true).
Proof.
  intros e1 e2 st.
  destruct (filtered_view_is_sublist Spec.asciiUpper Spec.asciiLower st) as (_ & Hall & _).
  by apply Hall.
Defined.

(** ** The session: storage, reload, route guard *)

Section AuthFacts.
Import DeployPage Auth.

Variable JSON_parse : JsString -> option value.
Variable JSON_stringify : value -> value.
Variable String_of : value -> JsString.
Variable typeErrorMessage : JsString.

Lemma getItem_delete_ne (m : gmap JsString JsString) (k k' : JsString) :
  k <> k' -> getItem (delete k m) k' = getItem m k'.
Proof. intros H. unfold getItem. by rewrite lookup_delete_ne. Qed.

Lemma getItem_delete (m : gmap JsString JsString) (k : JsString) :
  getItem (delete k m) k = VNull.
Proof. unfold getItem. by rewrite lookup_delete_eq. Qed.

(** X4.  [logout] removes the token and the user from the storage and
    nothing else, and clears the state; a page loaded afterwards finds no
    session, leaves the storage as it is, and its route guard sends every
    protected route, whatever permission it asks for, to the login
    page. *)
Theorem logout_ends_the_session (localStorage : gmap JsString JsString)
    (st : AuthState) :
  let localStorage' := fst (logout localStorage st) in
  let st' := snd (logout localStorage st) in
  let reloaded := mountEffect JSON_parse localStorage' initialState in
  localStorage' !! js "auth_token" = None /\
  localStorage' !! js "auth_user" = None /\
  (forall key, key <> js "auth_token" -> key <> js "auth_user" ->
               localStorage' !! key = localStorage !! key) /\
  user st' = VNull /\ token st' = VNull /\ isAuthenticated st' = false /\
  fst reloaded = localStorage' /\
  user (snd reloaded) = VNull /\ isAuthenticated (snd reloaded) = false /\
  forall requiredPermission,
    ProtectedRoute (snd reloaded) true requiredPermission
    = Normal (NavigateTo (js "/login")).
Proof.
  cbn [logout fst snd user token isAuthenticated].
  assert (mountEffect JSON_parse
            (delete (js "auth_user") (delete (js "auth_token") localStorage)) initialState
          = (delete (js "auth_user") (delete (js "auth_token") localStorage),
             setLoading false initialState)) as ->.
  { unfold mountEffect. rewrite getItem_delete_ne by discriminate.
    rewrite getItem_delete. reflexivity. }
  cbn [fst snd]. repeat split.
  - rewrite lookup_delete_ne by discriminate. apply lookup_delete_eq.
  - apply lookup_delete_eq.
  - intros key Htoken Huser. by rewrite !lookup_delete_ne.
Qed.

(** X5.  A stored user text that is not JSON never signs anybody in:
    after the page has loaded, the state has no user and no token, is
    not authenticated, and loading is off.  When a token is stored with
    it (token and user text both non-empty), the parse is tried and
    fails, and both items leave the storage.  Without a token, or with an
    empty token or an empty user text, the parse is not tried, and the
    storage stays as it is, corrupt text included. *)
Theorem corrupt_session_is_cleared (localStorage : gmap JsString JsString)
    (storedUser : JsString) :
  localStorage !! js "auth_user" = Some storedUser ->
  JSON_parse storedUser = None ->
  snd (mountEffect JSON_parse localStorage initialState)
  = {| user := VNull; token := VNull; loading := false; isAuthenticated := false |} /\
  (forall storedToken,
     localStorage !! js "auth_token" = Some storedToken ->
     storedToken <> [] -> storedUser <> [] ->
     fst (mountEffect JSON_parse localStorage initialState)
     = delete (js "auth_user") (delete (js "auth_token") localStorage)) /\
  (localStorage !! js "auth_token" = None \/
   localStorage !! js "auth_token" = Some [] \/
   storedUser = [] ->
   fst (mountEffect JSON_parse localStorage initialState) = localStorage).
Proof.
  intros Huser Hparse. unfold mountEffect, getItem. rewrite Huser.
  split; [|split].
  - destruct (localStorage !! js "auth_token") as [storedToken|]; cbn [truthy andb];
      [|reflexivity].
    destruct (negb (bool_decide (storedToken = [])) && negb (bool_decide (storedUser = [])));
      [|reflexivity].
    by rewrite Hparse.
  - intros storedToken Htoken Hne Hne'. rewrite Htoken. cbn [truthy].
    rewrite !bool_decide_eq_false_2 by done. cbn [negb andb].
    by rewrite Hparse.
  - intros [Hnone | [Hempty | ->]].
    + by rewrite Hnone.
    + by rewrite Hempty.
    + destruct (localStorage !! js "auth_token") as [storedToken|]; cbn [truthy andb];
        [|reflexivity].
      by rewrite andb_false_r.
Qed.

(** X6.  A session survives a reload.  When the login answer reports
    success with a token (a non-empty text) and a user whose JSON text
    parses back to it, [login] reports success, and a page loaded
    afterwards from the storage [login] left is authenticated with the
    same token and the same user. *)
Theorem login_survives_reload (response data inner userData : value)
    (accessToken userText : JsString)
    (localStorage : gmap JsString JsString) (st : AuthState) :
  getProp response (js "data") = Normal data ->
  (exists success, getProp data (js "success") = Normal success /\ truthy success = true) ->
  getProp data (js "data") = Normal inner ->
  getProp inner (js "access_token") = Normal (VString accessToken) ->
  getProp inner (js "user") = Normal userData ->
  accessToken <> [] ->
  JSON_stringify userData = VString userText -> userText <> [] ->
  JSON_parse userText = Some userData ->
  exists localStorage' st',
    login JSON_stringify String_of typeErrorMessage (Fulfilled response) localStorage st
    = Normal (localStorage', st',
              VObject [ (js "success", VBool true); (js "user", userData) ]) /\
    user st' = userData /\ token st' = VString accessToken /\ isAuthenticated st' = true /\
    mountEffect JSON_parse localStorage' initialState
    = (localStorage',
       {| user := userData; token := VString accessToken; loading := false;
          isAuthenticated := true |}).
Proof.
  intros Hdata (success & Hsuccess & Htruthy) Hinner Htoken Huser Hne Htext Hne' Hparse.
  unfold login, failWith. rewrite Hdata. cbn [bind]. rewrite Hsuccess. cbn [bind].
  rewrite Htruthy, Hinner. cbn [bind]. rewrite Htoken. cbn [bind]. rewrite Huser.
  cbn [bind]. eexists _, _. split; [reflexivity|].
  cbn [user token isAuthenticated]. repeat split.
  unfold mountEffect, getItem, setItem. rewrite Htext. cbn [toText].
  rewrite lookup_insert_ne by discriminate. rewrite !lookup_insert_eq.
  cbn [truthy]. rewrite !bool_decide_eq_false_2 by done. cbn [negb andb].
  by rewrite Hparse.
Qed.

(** What [hasPermission] says on a permission list. *)
Lemma hasPermission_array (st : AuthState) (permission : JsString) (items : list value) :
  truthy (user st) = true ->
  getProp (user st) (js "permissions") = Normal (VArray items) ->
  hasPermission st permission = Normal true -> VString permission ∈ items.
Proof.
  intros Huser Hperms. unfold hasPermission. rewrite Huser, Hperms. cbn.
  intros [= Hex]. apply existsb_exists in Hex as (item & Hin & His).
  destruct item; try discriminate. apply strEq_true in His. subst.
  by apply list_elem_of_In.
Qed.

(** X7.  The route guard renders the page of a route that asks for a
    permission only when the context has finished loading, the session is
    authenticated and [hasPermission] grants the permission; with a
    permission list on the stored user, the permission is in that list.
    The user's role plays no part. *)
Theorem guarded_route_needs_permission (st : AuthState) (requireAuth : bool)
    (permission : JsString) :
  permission <> [] ->
  ProtectedRoute st requireAuth (Some permission) = Normal Children ->
  loading st = false /\
  (requireAuth = true -> isAuthenticated st = true) /\
  truthy (user st) = true /\
  hasPermission st permission = Normal true /\
  (forall items, getProp (user st) (js "permissions") = Normal (VArray items) ->
                 VString permission ∈ items).
Proof.
  intros Hne. unfold ProtectedRoute.
  destruct (loading st); [discriminate|].
  destruct (requireAuth && negb (isAuthenticated st)) eqn:Hauth; [discriminate|].
  destruct permission as [|c r]; [done|].
  destruct (hasPermission st (c :: r)) as [[|]|e] eqn:Hhas; cbn [bind negb];
    try discriminate.
  intros _. split; [done|]. split.
  { intros ->. by destruct (isAuthenticated st). }
  assert (truthy (user st) = true) as Huser.
  { unfold hasPermission in Hhas. by destruct (truthy (user st)). }
  split; [done|]. split; [done|].
  intros items Hitems. by eapply hasPermission_array.
Qed.

Lemma responseStatus_engineError (message : JsString) :
  responseStatus (engineError message) = Normal VUndefined.
Proof. reflexivity. Qed.

(** X8.  [getCurrentUser] makes no call without a token.  When the call
    fails with status 401 the session is ended as by [logout]; when it
    fails with any other status, and when an answer arrives that cannot
    be read, storage and state stay as they are.  In all these cases the
    function resolves to [null]. *)
Theorem getCurrentUser_failure (outcome : ApiOutcome)
    (localStorage : gmap JsString JsString) (st : AuthState) :
  (truthy (token st) = false ->
   getCurrentUser JSON_stringify String_of typeErrorMessage outcome localStorage st
   = Normal (localStorage, st, VNull, false)) /\
  (truthy (token st) = true ->
   (forall error,
      outcome = RejectedWith error ->
      responseStatus error = Normal (VNumber 401) ->
      getCurrentUser JSON_stringify String_of typeErrorMessage outcome localStorage st
      = Normal (logout localStorage st, VNull, true)) /\
   (forall error status,
      outcome = RejectedWith error ->
      responseStatus error = Normal status -> status <> VNumber 401 ->
      getCurrentUser JSON_stringify String_of typeErrorMessage outcome localStorage st
      = Normal (localStorage, st, VNull, true)) /\
   (forall response,
      outcome = Fulfilled response ->
      (getProp response (js "data") = Throw TypeError \/
       exists data, getProp response (js "data") = Normal data /\
                    getProp data (js "success") = Throw TypeError) ->
      getCurrentUser JSON_stringify String_of typeErrorMessage outcome localStorage st
      = Normal (localStorage, st, VNull, true))).
Proof.
  split.
  - intros Htoken. unfold getCurrentUser. by rewrite Htoken.
  - intros Htoken. unfold getCurrentUser. rewrite Htoken. cbn [negb].
    split; [|split].
    + intros error -> Hstatus. rewrite Hstatus. cbn [bind]. by destruct (logout _ _).
    + intros error status -> Hstatus Hne. rewrite Hstatus. cbn [bind].
      destruct status as [| | |n| | | |]; try reflexivity.
      destruct n as [|p|p]; try reflexivity.
      do 9 (destruct p as [p|p|]; try reflexivity). done.
    + intros response -> [Hdata | (data & Hdata & Hsuccess)]; unfold failWith;
        rewrite Hdata; cbn [bind]; rewrite ?Hsuccess; cbn [bind];
        rewrite responseStatus_engineError; reflexivity.
Qed.

End AuthFacts.

(** X4 on a storage that holds a session and a settings item: the
    settings item stays. *)
Lemma logout_ends_the_session_witness :
  let localStorage : gmap JsString JsString :=
    <[js "auth_token" := js "t0k3n"]>
      (<[js "auth_user" := js "{}"]> (<[js "cloudCredentials" := js "{}"]> ∅)) in
  let st := Auth.mkAuth (VObject []) (VString (js "t0k3n")) false true in
  fst (Auth.logout localStorage st) !! js "cloudCredentials" = Some (js "{}") /\
  fst (Auth.logout localStorage st) !! js "auth_token" = None.
Proof.
  intros localStorage st.
  destruct (logout_ends_the_session (fun _ => None) localStorage st)
    as (Htoken & _ & Hother & _).
  split; [|exact Htoken].
  rewrite (Hother (js "cloudCredentials")) by discriminate. reflexivity.
Defined.

(** X5 on a stored user text cut off in the middle, with a token and
    without one. *)
Lemma corrupt_session_is_cleared_witness :
  let withToken : gmap JsString JsString :=
    <[js "auth_token" := js "t0k3n"]> (<[js "auth_user" := js "{oops"]> ∅) in
  let withoutToken : gmap JsString JsString := <[js "auth_user" := js "{oops"]> ∅ in
  Auth.isAuthenticated
    (snd (Auth.mountEffect (fun _ => None) withToken Auth.initialState)) = false /\
  fst (Auth.mountEffect (fun _ => None) withToken Auth.initialState) !! js "auth_user"
  = None /\
  fst (Auth.mountEffect (fun _ => None) withoutToken Auth.initialState) !! js "auth_user"
  = Some (js "{oops").
Proof.
  intros withToken withoutToken.
  destruct (corrupt_session_is_cleared (fun _ => None) withToken (js "{oops")
              eq_refl eq_refl) as (Hstate & Hcleared & _).
  destruct (corrupt_session_is_cleared (fun _ => None) withoutToken (js "{oops")
              eq_refl eq_refl) as (_ & _ & Hkept).
  split; [by rewrite Hstate|]. split.
  - rewrite (Hcleared (js "t0k3n")) by (reflexivity || discriminate). reflexivity.
  - rewrite Hkept by (by left). reflexivity.
Defined.

(** X6 on a login answer with the token [t0k3n] and a user with the
    role [user]. *)
Lemma login_survives_reload_witness :
  let userData := VObject [ (js "role", VString (js "user")) ] in
  let inner := VObject [ (js "access_token", VString (js "t0k3n")); (js "user", userData) ] in
  let data := VObject [ (js "success", VBool true); (js "data", inner) ] in
  let response := VObject [ (js "data", data) ] in
  exists localStorage' st' result,
    Auth.login (fun _ => VString (js "{}")) (fun _ => []) [] (Auth.Fulfilled response)
      ∅ Auth.initialState = Normal (localStorage', st', result) /\
    snd (Auth.mountEffect (fun _ => Some userData) localStorage' Auth.initialState)
    = Auth.mkAuth userData (VString (js "t0k3n")) false true.
Proof.
  intros userData inner data response.
  destruct (login_survives_reload (fun _ => Some userData) (fun _ => VString (js "{}"))
              (fun _ => []) [] response data inner userData (js "t0k3n") (js "{}")
              ∅ Auth.initialState)
    as (localStorage' & st' & Hlogin & _ & _ & _ & Hreload);
    try reflexivity; try discriminate.
  - exists (VBool true). by split.
  - eexists localStorage', st', _. split; [exact Hlogin|]. by rewrite Hreload.
Defined.

(** X7 on an authenticated user who may write, at the route [/deploy]. *)
Lemma guarded_route_needs_permission_witness :
  let st := Auth.mkAuth
              (VObject [ (js "permissions",
                          VArray [VString (js "read"); VString (js "write")]) ])
              (VString (js "t0k3n")) false true in
  Auth.ProtectedRoute st true (Some (js "write")) = Normal Auth.Children /\
  Auth.hasPermission st (js "write") = Normal true.
Proof.
  intros st. split; [reflexivity|].
  by destruct (guarded_route_needs_permission st true (js "write") ltac:(discriminate)
                 eq_refl) as (_ & _ & _ & Hhas & _).
Defined.

(** X8 on a call that is answered with status 401. *)
Lemma getCurrentUser_failure_witness :
  let error := VObject [ (js "response", VObject [ (js "status", VNumber 401) ]) ] in
  let localStorage : gmap JsString JsString := <[js "auth_token" := js "t0k3n"]> ∅ in
  let st := Auth.mkAuth (VObject []) (VString (js "t0k3n")) false true in
  Auth.getCurrentUser (fun _ => VUndefined) (fun _ => []) [] (Auth.RejectedWith error)
    localStorage st
  = Normal (Auth.logout localStorage st, VNull, true).
Proof.
  intros error localStorage st.
  destruct (getCurrentUser_failure (fun _ => VUndefined) (fun _ => []) []
              (Auth.RejectedWith error) localStorage st) as [_ Hcalled].
  destruct (Hcalled eq_refl) as (H401 & _).
  by apply (H401 error).
Defined.

(** ** Validation, polling and template cards of the deployment script *)

Section DeploymentsPageFacts.
Import Utils Deployments DeploymentsPage Spec.

Lemma validateLocation_accepted (f : Field) :
  accepted (validateLocation f) = true <-> trim (field_value f) <> [].
Proof.
  unfold validateLocation. destruct (bool_decide (trim (field_value f) = [])) eqn:E.
  - change (accepted (showFieldError ?g _)) with (accepted g).
    rewrite accepted_add_invalid. apply bool_decide_eq_true in E. split; [done|]. done.
  - change (accepted (hideFieldError ?g)) with (accepted g).
    rewrite accepted_add_valid. by apply bool_decide_eq_false in E.
Qed.

Lemma locationError_messages :
  locationError msgSelectTemplate = false /\ locationError msgRgRequired = false /\
  locationError msgLocationRequired = true /\ locationError msgRgCharset = false /\
  locationError msgRgLength = false.
Proof. by vm_compute. Qed.

(** X9.  The validation while typing and the validation at submission
    agree on each field: for the texts of the resource group and the
    location, the live validation marks a field valid exactly when the
    submission validation reports no error that names that field. *)
Theorem live_and_submit_validation_agree (sel : value)
    (parameters : gmap JsString value) (rgText locText : JsString)
    (cl cl' : list JsString) (fb fb' : option JsString) :
  parameters !! js "resourceGroupName" = Some (VString rgText) ->
  parameters !! js "location" = Some (VString locText) ->
  exists errors,
    validateDeploymentParameters sel parameters = Normal errors /\
    (accepted (validateResourceGroupName (mkField rgText cl fb)) = true
     <-> List.filter rgError errors = []) /\
    (accepted (validateLocation (mkField locText cl' fb')) = true
     <-> List.filter locationError errors = []).
Proof.
  intros Hrg Hloc. unfold validateDeploymentParameters, param.
  rewrite Hrg, Hloc, !callTrim_text_or_empty. cbn [bind].
  eexists. split; [reflexivity|].
  rewrite validateResourceGroupName_accepted, validateLocation_accepted. cbn [field_value].
  rewrite <- tests_spec.
  destruct rgError_messages as (M1 & M2 & M3 & M4 & M5).
  destruct locationError_messages as (L1 & L2 & L3 & L4 & L5).
  unfold pushIf.
  destruct (truthy sel);
    destruct (bool_decide (trim rgText = [])) eqn:E1;
    destruct (bool_decide (trim locText = [])) eqn:E2;
    destruct (rgNamePattern_test (trim rgText));
    destruct (90 <? length (trim rgText));
    cbn [negb app List.filter];
    rewrite ?M1, ?M2, ?M3, ?M4, ?M5, ?L1, ?L2, ?L3, ?L4, ?L5;
    try apply bool_decide_eq_true in E2; try apply bool_decide_eq_false in E2;
    (split; [split; [done || (intros (? & ? & ?); done) | done || (intros (? & ? & ?); done)]
            | split; done]).
Qed.

End DeploymentsPageFacts.

(** X9 on a page whose resource-group field holds [my rg], which the
    pattern refuses, and whose location is chosen. *)
Lemma live_and_submit_validation_agree_witness :
  let parameters :=
    Utils.collectParameters (fun _ => None)
      (Utils.mkDocument (Some (js "my rg")) (Some (js "westeurope")) None (Some [])) in
  exists errors,
    Deployments.validateDeploymentParameters (VString (js "storage")) parameters
    = Normal errors /\
    (Spec.accepted (Deployments.validateResourceGroupName
                      (Deployments.mkField (js "my rg") [] None)) = true
     <-> List.filter Spec.rgError errors = []) /\
    (Spec.accepted (DeploymentsPage.validateLocation
                      (Deployments.mkField (js "westeurope") [] None)) = true
     <-> List.filter DeploymentsPage.locationError errors = []).
Proof.
  intros parameters.
  apply (live_and_submit_validation_agree (VString (js "storage")) parameters
           (js "my rg") (js "westeurope") [] [] None None); reflexivity.
Defined.

Section PollingFacts.
Import DeploymentsPage.

Lemma startDeploymentPolling_inv (base : gset nat) (p : Polling) :
  pollingInv base p ->
  pollingInv base (startDeploymentPolling p) /\
  is_Some (deploymentPollingInterval (startDeploymentPolling p)).
Proof.
  intros ((Hpos & Hact) & Hbase & Hvar). unfold startDeploymentPolling.
  destruct (deploymentPollingInterval p) as [h|].
  - destruct Hvar as (Hh & Hfresh & Hset).
    destruct h as [|h]; [lia|]. cbn [isSet setInterval clearInterval nextHandle active].
    split; [|by eexists]. unfold pollingInv, timersOk.
    cbn [timers deploymentPollingInterval nextHandle active].
    split; [split; [lia|] | split; [|split; [lia | split]]].
    + intros x Hx.
      apply elem_of_union in Hx as [Hx%elem_of_singleton | Hx%elem_of_difference].
      * subst. lia.
      * destruct Hx as [Hx _]. specialize (Hact x Hx). lia.
    + intros x Hx. specialize (Hbase x Hx). lia.
    + intros Hin. specialize (Hbase _ Hin). lia.
    + rewrite Hset. clear -Hfresh. apply set_eq. intros x. set_unfold. intuition congruence.
  - cbn [setInterval nextHandle active].
    split; [|by eexists]. unfold pollingInv, timersOk.
    cbn [timers deploymentPollingInterval nextHandle active].
    split; [split; [lia|] | split; [|split; [lia | split]]].
    + intros x Hx.
      apply elem_of_union in Hx as [Hx%elem_of_singleton | Hx].
      * subst. lia.
      * specialize (Hact x Hx). lia.
    + intros x Hx. specialize (Hbase x Hx). lia.
    + intros Hin. specialize (Hbase _ Hin). lia.
    + rewrite Hvar. clear. apply set_eq. intros x. set_unfold. intuition congruence.
Qed.

Lemma stopDeploymentPolling_inv (base : gset nat) (p : Polling) :
  pollingInv base p ->
  pollingInv base (stopDeploymentPolling p) /\
  deploymentPollingInterval (stopDeploymentPolling p) = None.
Proof.
  intros ((Hpos & Hact) & Hbase & Hvar). unfold stopDeploymentPolling.
  destruct (deploymentPollingInterval p) as [h|] eqn:E.
  - destruct Hvar as (Hh & Hfresh & Hset).
    destruct h as [|h]; [lia|]. cbn [isSet]. split; [|reflexivity].
    unfold pollingInv, timersOk.
    cbn [timers clearInterval nextHandle active deploymentPollingInterval].
    split; [split; [lia|] | split].
    + intros x Hx%elem_of_difference. destruct Hx as [Hx _]. by apply Hact.
    + exact Hbase.
    + rewrite Hset. clear -Hfresh. apply set_eq. intros x. set_unfold. intuition congruence.
  - split; [|exact E]. unfold pollingInv. rewrite E. done.
Qed.

(** X10.  Polling never leaks a timer.  Started from a page without a
    polling timer, after any sequence of calls of
    [startDeploymentPolling] and [stopDeploymentPolling] the timers that
    are set are those that were set before plus at most one, the one
    [deploymentPollingInterval] holds; it is set exactly when the last
    call was a start. *)
Theorem polling_keeps_one_timer (calls : list PollingCall) (p0 : Polling) :
  timersOk (timers p0) ->
  deploymentPollingInterval p0 = None ->
  let p := fold_left call calls p0 in
  match deploymentPollingInterval p with
  | Some h => (h ∉ active (timers p0)) /\
              active (timers p) = active (timers p0) ∪ {[h]}
  | None => active (timers p) = active (timers p0)
  end /\
  (is_Some (deploymentPollingInterval p) <-> last calls = Some Start).
Proof.
  intros Hok Hnone.
  assert (pollingInv (active (timers p0)) p0) as Hinv0.
  { split; [exact Hok|]. split; [intros h Hh; by apply Hok|]. by rewrite Hnone. }
  assert (pollingInv (active (timers p0)) (fold_left call calls p0) /\
          (is_Some (deploymentPollingInterval (fold_left call calls p0))
           <-> last calls = Some Start)) as [Hinv Hlast].
  { induction calls as [|c calls IH] using rev_ind.
    - split; [exact Hinv0|]. simpl. rewrite Hnone. split; [intros [? ?]; done | done].
    - rewrite fold_left_app, last_snoc. cbn [fold_left].
      destruct IH as [IH _]. destruct c; cbn [call].
      + destruct (startDeploymentPolling_inv _ _ IH) as [H1 H2]. split; [done|].
        split; done.
      + destruct (stopDeploymentPolling_inv _ _ IH) as [H1 H2]. split; [done|].
        rewrite H2. split; [intros [? ?]; done | done]. }
  cbv zeta. split; [|exact Hlast].
  destruct Hinv as (_ & _ & Hvar).
  destruct (deploymentPollingInterval (fold_left call calls p0)); [|done].
  by destruct Hvar as (_ & ? & ?).
Qed.

End PollingFacts.

(** X10 on a page where the monitoring timer 1 is set: start, start,
    stop leaves that timer alone set. *)
Lemma polling_keeps_one_timer_witness :
  let p0 := DeploymentsPage.mkPolling None (DeploymentsPage.mkTimers {[1]} 2) in
  let p := fold_left DeploymentsPage.call
             [DeploymentsPage.Start; DeploymentsPage.Start; DeploymentsPage.Stop] p0 in
  DeploymentsPage.deploymentPollingInterval p = None /\
  DeploymentsPage.active (DeploymentsPage.timers p) = {[1]}.
Proof.
  cbv zeta.
  destruct (polling_keeps_one_timer
              [DeploymentsPage.Start; DeploymentsPage.Start; DeploymentsPage.Stop]
              (DeploymentsPage.mkPolling None (DeploymentsPage.mkTimers {[1]} 2)))
    as [Hset _].
  - unfold DeploymentsPage.timersOk.
    cbn [DeploymentsPage.timers DeploymentsPage.active DeploymentsPage.nextHandle].
    split; [lia|]. intros h Hh. apply elem_of_singleton in Hh. subst. lia.
  - reflexivity.
  - split; [reflexivity | exact Hset].
Defined.

(** ** Template cards *)

Section TemplateCardFacts.
Import DeploymentsPage.

Variable toLowerCase : JsString -> JsString.

Lemma assoc_In (props : list (JsString * value)) (k : JsString) (v : value) :
  assoc props k = Some v -> exists k', In (k', v) props.
Proof.
  induction props as [|[k' v'] rest IH]; cbn [assoc]; [done|].
  destruct (strEq k' k).
  - intros [= ->]. exists k'. by left.
  - intros (k'' & Hin)%IH. exists k''. by right.
Qed.

Lemma templateIcons_prefixed (k : JsString) (v : value) :
  assoc templateIcons k = Some v ->
  exists s, v = VString s /\ startsWith s (js "bi-") = true.
Proof.
  intros (k' & Hin)%assoc_In.
  assert (Forall (fun kv => exists s, snd kv = VString s /\ startsWith s (js "bi-") = true)
            templateIcons) as Hall.
  { unfold templateIcons. repeat constructor; eexists; split; reflexivity. }
  rewrite Forall_forall in Hall. apply list_elem_of_In in Hin. exact (Hall _ Hin).
Qed.

Lemma startsWith_app (p s : JsString) : startsWith (p ++ s) p = true.
Proof.
  induction p as [|c p IH]; [by destruct s|]. cbn. by rewrite N.eqb_refl, IH.
Qed.

(** X11.  The icon class of a template card always carries the prefix
    [bi-]: whenever [loadTemplates] computes a class for a template, the
    class starts with [bi-]; and it does compute one for every template
    whose name is a text that is not a name plain objects inherit and
    whose [icon] is a text or is missing. *)
Theorem template_icon_has_prefix (template : value) (name : JsString) (icon : value) :
  getProp template (js "template") = Normal (VString name) ->
  getProp template (js "icon") = Normal icon ->
  (icon = VUndefined \/ icon = VNull \/ exists s, icon = VString s) ->
  inherited (toLowerCase name) = VUndefined ->
  inherited (removeWhiteSpace (toLowerCase name)) = VUndefined ->
  (exists s, iconClassOf toLowerCase template = Normal s) /\
  (forall template' s, iconClassOf toLowerCase template' = Normal s ->
                       startsWith s (js "bi-") = true).
Proof.
  intros Hname Hicon Hkind Hlow Hclean. split.
  - unfold iconClassOf. rewrite Hname. cbn [bind callToLowerCase]. rewrite Hicon.
    cbn [bind].
    assert (forall k, inherited k = VUndefined ->
              lookupProp templateIcons k = VUndefined \/
              lookupProp templateIcons k = VNull \/
              exists s, lookupProp templateIcons k = VString s) as Htab.
    { intros k Hk. unfold lookupProp. destruct (assoc templateIcons k) eqn:E.
      - apply templateIcons_prefixed in E as (s & -> & _). right. right. by eexists.
      - by left. }
    assert (forall a b : value,
              (a = VUndefined \/ a = VNull \/ exists s, a = VString s) ->
              (b = VUndefined \/ b = VNull \/ exists s, b = VString s) ->
              or_else a b = VUndefined \/ or_else a b = VNull \/
              exists s, or_else a b = VString s) as Hor.
    { intros a b [-> | [-> | [s ->]]] Hb; try exact Hb.
      unfold or_else. destruct (truthy (VString s)); [|exact Hb].
      right. right. by eexists. }
    pose proof (Hor _ _ (Hor _ _ Hkind (Htab _ Hclean)) (Htab _ Hlow)) as H3.
    pose proof (Hor _ (VString (js "bi-file-earmark")) H3
                  (or_intror (or_intror (ex_intro _ _ eq_refl)))) as H4.
    destruct H4 as [H4 | [H4 | [s H4]]].
    + exfalso. revert H4. unfold or_else at 1.
      destruct (truthy _) eqn:Et; [|done]. intros H4. by rewrite H4 in Et.
    + exfalso. revert H4. unfold or_else at 1.
      destruct (truthy _) eqn:Et; [|done]. intros H4. by rewrite H4 in Et.
    + rewrite H4. by eexists.
  - clear. intros template s. unfold iconClassOf.
    destruct (getProp template (js "template")) as [nm|]; [|done]. cbn [bind].
    destruct (callToLowerCase toLowerCase nm) as [lower|]; [|done]. cbn [bind].
    destruct (getProp template (js "icon")) as [icon|]; [|done]. cbn [bind].
    match goal with
    | |- match ?v with _ => _ end = _ -> _ => destruct v as [| | | |cls| | |]; try done
    end.
    intros [= <-]. destruct (startsWith cls (js "bi-")) eqn:E; cbn [negb].
    + exact E.
    + exact (startsWith_app (js "bi-") cls).
Qed.

End TemplateCardFacts.

(** X11 on the template [Storage Account] sent without an icon. *)
Lemma template_icon_has_prefix_witness :
  exists s,
    DeploymentsPage.iconClassOf Spec.asciiLower
      (VObject [(js "template", VString (js "Storage Account"))]) = Normal s /\
    startsWith s (js "bi-") = true.
Proof.
  destruct (template_icon_has_prefix Spec.asciiLower
              (VObject [(js "template", VString (js "Storage Account"))])
              (js "Storage Account") VUndefined) as [[s Hs] Hall].
  - reflexivity.
  - reflexivity.
  - by left.
  - reflexivity.
  - reflexivity.
  - exists s. split; [exact Hs | exact (Hall _ _ Hs)].
Defined.

(** ** The deployment request *)

Section DeployRequestFacts.
Import Utils Deployments Spec.

Variable JSON_parse : JsString -> option value.
Variable network : DeploymentData -> FetchOutcome.
Variable typeErrorMessage : JsString.
Variable parametersModal : bool.

(** Validation reports nothing only when a template is selected and both
    core fields are texts that pass its tests. *)
Lemma validateDeploymentParameters_clean (sel : value)
    (parameters : gmap JsString value) :
  validateDeploymentParameters sel parameters = Normal [] ->
  truthy sel = true /\
  exists rg loc,
    or_else (param parameters (js "resourceGroupName")) (VString []) = VString rg /\
    or_else (param parameters (js "location")) (VString []) = VString loc /\
    specRgName (trim rg) /\ trim loc <> [].
Proof.
  unfold validateDeploymentParameters.
  destruct (or_else (param parameters (js "resourceGroupName")) (VString []))
    as [| | | |rg| | |]; try done.
  destruct (or_else (param parameters (js "location")) (VString []))
    as [| | | |loc| | |]; try done.
  cbn [callTrim bind]. unfold pushIf. intros Herr.
  destruct (truthy sel), (bool_decide (trim rg = [])) eqn:Erg,
    (bool_decide (trim loc = [])) eqn:Eloc,
    (rgNamePattern_test (trim rg)) eqn:Epat, (90 <? length (trim rg)) eqn:Elen;
    cbn [negb app] in Herr; try discriminate Herr.
  split; [done|]. exists rg, loc. split; [done|]. split; [done|]. split.
  - by apply tests_spec.
  - by apply bool_decide_eq_false in Eloc.
Qed.

Lemma afterFetch_no_request (sel : value) (outcome : FetchOutcome) :
  List.filter isFetch (afterFetch typeErrorMessage parametersModal sel outcome) = [].
Proof.
  unfold afterFetch. destruct outcome as [m | [|] text [m | result]]; try reflexivity.
  destruct (getProp result (js "deployment_id")) as [d|]; [|reflexivity].
  by destruct (truthy d), parametersModal.
Qed.

(** [monitorDeployment] is started only on an [ok] answer that holds a
    truthy [deployment_id]. *)
Lemma afterFetch_monitor (sel : value) (outcome : FetchOutcome)
    (deploymentId templateName : value) :
  In (MonitorDeployment deploymentId templateName)
     (afterFetch typeErrorMessage parametersModal sel outcome) ->
  templateName = sel /\ truthy deploymentId = true /\
  exists text result,
    outcome = Response true text (inr result) /\
    getProp result (js "deployment_id") = Normal deploymentId.
Proof.
  unfold afterFetch. destruct outcome as [m | [|] text [m | result]];
    try (intros [H | [H | [H | []]]]; discriminate H).
  destruct (getProp result (js "deployment_id")) as [d|] eqn:Hd.
  - destruct (truthy d) eqn:Ht, parametersModal; cbn [app];
      repeat (intros [H | Hin]; [try discriminate H | revert Hin]); try (by intros []).
    all: injection H as <- <-; split; [reflexivity|]; split; [exact Ht|];
      by exists text, result.
  - cbn [app]. repeat (intros [H | Hin]; [discriminate H | revert Hin]). by intros [].
Qed.

(** The parameters modal is hidden only through an instance. *)
Lemma afterFetch_hides_instance (sel : value) (outcome : FetchOutcome) :
  In HideParametersModal (afterFetch typeErrorMessage parametersModal sel outcome) ->
  parametersModal = true.
Proof.
  unfold afterFetch. destruct outcome as [m | [|] text [m | result]];
    try (intros [H | [H | [H | []]]]; discriminate H).
  destruct (getProp result (js "deployment_id")) as [d|].
  - destruct (truthy d), parametersModal; cbn [app]; try reflexivity;
      repeat (intros [H | Hin]; [discriminate H | revert Hin]); by intros [].
  - cbn [app]. repeat (intros [H | Hin]; [discriminate H | revert Hin]). by intros [].
Qed.

(** X12.  A deployment is requested with validated data only.  Whenever
    [deployTemplate] sends a request, it is the one [fetch] call of its
    own, a [POST] to [/deploy]; a template is selected; the resource group
    and the location in its body are the collected texts, which pass the
    validation once trimmed (they are sent as collected, not trimmed);
    and the body's parameters are the collected ones without the three
    names that went to the top level.  The status requests of the run are
    those of [monitorDeployment], which is started (and not awaited) only
    after that request was answered [ok] with a [deployment_id] that is
    truthy, for that id and the selected template. *)
Theorem deploy_request_is_validated (sel : value) (doc : Document)
    (effects : list Effect) (url method : JsString) (body : DeploymentData) :
  deployTemplate JSON_parse network typeErrorMessage parametersModal sel doc
  = Normal effects ->
  In (Fetch url method body) effects ->
  List.filter isFetch effects = [Fetch (js "/deploy") (js "POST") body] /\
  (forall deploymentId templateName,
     In (MonitorDeployment deploymentId templateName) effects ->
     templateName = sel /\ truthy deploymentId = true /\
     exists text result,
       network body = Response true text (inr result) /\
       getProp result (js "deployment_id") = Normal deploymentId) /\
  template_name body = sel /\ truthy sel = true /\
  (exists rg loc,
     collectParameters JSON_parse doc !! js "resourceGroupName" = Some (VString rg) /\
     collectParameters JSON_parse doc !! js "location" = Some (VString loc) /\
     resource_group body = VString rg /\ location body = VString loc /\
     specRgName (trim rg) /\ trim loc <> []) /\
  (forall key,
     parameters body !! key =
     if existsb (strEq key) [js "subscription"; js "resourceGroupName"; js "location"]
     then None else collectParameters JSON_parse doc !! key).
Proof.
  unfold deployTemplate.
  destruct (validateDeploymentParameters sel (collectParameters JSON_parse doc))
    as [errors|] eqn:Hv; [|done].
  cbn [bind]. destruct errors as [|e errors]; cbn [length Nat.ltb Nat.leb].
  2:{ intros [= <-] [H | [H | []]]; discriminate H. }
  intros [= <-] Hin.
  assert (body = deploymentData sel (collectParameters JSON_parse doc)) as ->.
  { destruct Hin as [H | [H | [H | Hin]]]; try discriminate H.
    - by injection H.
    - apply in_app_or in Hin as [Hin | [H | []]]; [|discriminate H].
      exfalso. assert (In (Fetch url method body)
                         (List.filter isFetch (afterFetch typeErrorMessage parametersModal sel
                            (network (deploymentData sel (collectParameters JSON_parse doc))))))
        as Hf by (apply filter_In; by split).
      by rewrite afterFetch_no_request in Hf. }
  split.
  { cbn [app List.filter isFetch]. by rewrite List.filter_app, afterFetch_no_request. }
  split.
  { intros deploymentId templateName [H | [H | [H | Hmon]]]; try discriminate H.
    apply in_app_or in Hmon as [Hmon | [H | []]]; [|discriminate H].
    by apply afterFetch_monitor. }
  split; [reflexivity|].
  destruct (validateDeploymentParameters_clean _ _ Hv) as (Hsel & rg & loc & Hrg & Hloc & Hok & Hne).
  split; [exact Hsel|]. split.
  - exists rg, loc.
    assert (forall key s, trim s <> [] ->
              or_else (param (collectParameters JSON_parse doc) key) (VString []) = VString s ->
              collectParameters JSON_parse doc !! key = Some (VString s)) as Hback.
    { intros key s Hs. unfold param.
      destruct (collectParameters JSON_parse doc !! key) as [v|].
      - unfold or_else. destruct (truthy v); [by intros ->|].
        intros [= <-]. by destruct Hs.
      - unfold or_else. cbn [truthy]. intros [= <-]. by destruct Hs. }
    assert (trim rg <> []) as Hrgne.
    { destruct Hok as [_ Hlen]. intros E. rewrite E in Hlen. simpl in Hlen. lia. }
    split; [by apply Hback|]. split; [by apply Hback|].
    split; [exact Hrg|]. split; [exact Hloc|]. split; [exact Hok | exact Hne].
  - intros key. cbn [deploymentData parameters existsb].
    destruct (strEq key (js "subscription")) eqn:E1.
    { apply strEq_true in E1 as ->. cbn [orb].
      rewrite lookup_delete_ne, lookup_delete_ne by discriminate.
      apply lookup_delete_eq. }
    destruct (strEq key (js "resourceGroupName")) eqn:E2.
    { apply strEq_true in E2 as ->. cbn [orb].
      rewrite lookup_delete_ne by discriminate. apply lookup_delete_eq. }
    destruct (strEq key (js "location")) eqn:E3.
    { apply strEq_true in E3 as ->. cbn [orb]. apply lookup_delete_eq. }
    cbn [orb]. apply strEq_false in E1, E2, E3.
    by rewrite !lookup_delete_ne.
Qed.

(** X13.  Whatever the network does, a run that made the button busy
    gives the page back: the run ends by resetting the button, the
    loading indicator is hidden, and the user is told of a failure or
    polling for updates starts, the reload of the deployment list is
    scheduled and the form's modal is hidden when it has an instance.
    Without an instance nothing is hidden.  A response that is not [ok]
    is reported with the prefix twice. *)
Theorem deploy_gives_the_page_back (sel : value) (doc : Document)
    (effects : list Effect) :
  deployTemplate JSON_parse network typeErrorMessage parametersModal sel doc
  = Normal effects ->
  In DeployButtonBusy effects ->
  head effects = Some DeployButtonBusy /\
  last effects = Some DeployButtonReset /\
  In HideLoading effects /\
  ((exists m, In (ShowError (js "Deployment failed: " ++ m)) effects) \/
   (In StartDeploymentPolling effects /\ In ReloadDeploymentsLater effects /\
    (parametersModal = true -> In HideParametersModal effects))) /\
  (In HideParametersModal effects -> parametersModal = true) /\
  (forall text json,
     network (deploymentData sel (collectParameters JSON_parse doc))
     = Response false text json ->
     In (ShowError (js "Deployment failed: Deployment failed: " ++ text)) effects).
Proof.
  unfold deployTemplate.
  destruct (validateDeploymentParameters sel (collectParameters JSON_parse doc))
    as [errors|]; [|done].
  cbn [bind]. destruct (0 <? length errors).
  { intros [= <-] [H | [H | []]]; discriminate H. }
  intros [= <-] _.
  set (data := deploymentData sel (collectParameters JSON_parse doc)).
  split; [reflexivity|]. split.
  { change (?a :: ?b :: ?c :: ?l ++ [DeployButtonReset])
      with ((a :: b :: c :: l) ++ [DeployButtonReset]). apply last_snoc. }
  assert (forall e, In e (afterFetch typeErrorMessage parametersModal sel (network data)) ->
            In e ([DeployButtonBusy;
                   ShowLoading (js "Deploying template... This may take several minutes.");
                   Fetch (js "/deploy") (js "POST") data]
                  ++ afterFetch typeErrorMessage parametersModal sel (network data)
                  ++ [DeployButtonReset])) as Hin.
  { intros e He. apply in_or_app. right. apply in_or_app. by left. }
  assert (forall m, In HideLoading
                      [ConsoleError; HideLoading; ShowError (js "Deployment failed: " ++ m)])
    as Hhide by (intros m; right; by left).
  assert (forall m, In (ShowError (js "Deployment failed: " ++ m))
                      [ConsoleError; HideLoading; ShowError (js "Deployment failed: " ++ m)])
    as Hshow by (intros m; right; right; by left).
  split; [|split; [|split]].
  - apply Hin. unfold afterFetch.
    destruct (network data) as [m | [|] text [m | result]]; try apply Hhide.
    destruct (getProp result (js "deployment_id")); by left.
  - unfold afterFetch in Hin |- *.
    destruct (network data) as [m | [|] text [m | result]].
    + left. exists m. apply Hin, Hshow.
    + left. exists m. apply Hin, Hshow.
    + destruct (getProp result (js "deployment_id")) as [d|].
      * right. repeat split; [| |intros ->]; apply Hin;
          apply in_or_app; right; apply in_or_app; right.
        -- by left.
        -- destruct parametersModal; simpl; auto.
        -- simpl. auto.
      * left. exists typeErrorMessage. apply Hin. apply in_or_app. right. apply Hshow.
    + left. eexists. apply Hin, Hshow.
    + left. eexists. apply Hin, Hshow.
  - intros [H | [H | [H | Hhidden]]]; try discriminate H.
    apply in_app_or in Hhidden as [Hhidden | [H | []]]; [|discriminate H].
    by apply afterFetch_hides_instance in Hhidden.
  - intros text json Hnet. apply Hin. rewrite Hnet.
    replace (js "Deployment failed: Deployment failed: " ++ text)
      with (js "Deployment failed: " ++ (js "Deployment failed: " ++ text))
      by (by rewrite app_assoc).
    apply Hshow.
Qed.

End DeployRequestFacts.

(** X12 on a page with the resource group [rg-1] (a space after it), the
    location [westeurope] and one template parameter. *)
Lemma deploy_request_is_validated_witness :
  let doc := Utils.mkDocument (Some (js "rg-1 ")) (Some (js "westeurope")) None
               (Some [Utils.mkInput (js "sku") (js "B1")]) in
  exists body,
    (forall effects,
       Deployments.deployTemplate (fun _ => None) (fun _ => Deployments.Rejected [])
         [] true (VString (js "web app")) doc = Normal effects ->
       List.filter Deployments.isFetch effects
       = [Deployments.Fetch (js "/deploy") (js "POST") body]) /\
    Deployments.resource_group body = VString (js "rg-1 ") /\
    Deployments.parameters body !! js "sku" = Some (VString (js "B1")) /\
    Deployments.parameters body !! js "location" = None.
Proof.
  intros doc.
  set (body := Deployments.deploymentData (VString (js "web app"))
                 (Utils.collectParameters (fun _ => None) doc)).
  exists body. split; [|by vm_compute].
  intros effects Hrun.
  refine (proj1 (deploy_request_is_validated (fun _ => None)
                   (fun _ => Deployments.Rejected []) [] true (VString (js "web app")) doc
                   effects (js "/deploy") (js "POST") body Hrun _)).
  injection Hrun as <-. right. right. left. reflexivity.
Defined.

(** X13 on the same page with a server that answers 500. *)
Lemma deploy_gives_the_page_back_witness :
  let doc := Utils.mkDocument (Some (js "rg-1")) (Some (js "westeurope")) None
               (Some []) in
  let network := fun _ : Deployments.DeploymentData =>
                   Deployments.Response false (js "boom") (inl []) in
  exists effects,
    Deployments.deployTemplate (fun _ => None) network [] false (VString (js "web app")) doc
    = Normal effects /\
    last effects = Some Deployments.DeployButtonReset /\
    In (Deployments.ShowError (js "Deployment failed: Deployment failed: boom")) effects.
Proof.
  intros doc network. eexists. split; [reflexivity|].
  destruct (deploy_gives_the_page_back (fun _ => None) network [] false
              (VString (js "web app")) doc _ eq_refl) as (_ & Hlast & _ & _ & _ & Hdouble).
  - left. reflexivity.
  - split; [exact Hlast|]. exact (Hdouble (js "boom") (inl []) eq_refl).
Defined.

(** ** The change listeners of the cascading dropdowns *)

Section CascadeListenerFacts.
Import Utils Spec CascadeListeners.

Section Generic.

Context {R : Type} (parent child leaf : R -> JsString) (table : list R).

(** The update reads the parent element only. *)
Lemma cascadeUpdate_reads_parent (dom dom' : Cascade) :
  parentSelect dom = parentSelect dom' ->
  cascadeUpdate parent child leaf table dom
  = cascadeUpdate parent child leaf table dom'.
Proof. unfold cascadeUpdate, valueOrFirst, setOptions. by intros ->. Qed.

Lemma cascadeUpdate_child_first (dom : Cascade) :
  let child' := childSelect (cascadeUpdate parent child leaf table dom) in
  selectValue child' = default [] (head (options child')).
Proof.
  unfold cascadeUpdate. cbn [childSelect].
  destruct (uniq _) as [|x l]; [reflexivity|].
  assert (valueOrFirst (setOptions (x :: l) (childSelect dom)) (x :: l) = Some x) as ->.
  { unfold valueOrFirst, selectValue. cbn [setOptions selectedIndex options nth head].
    by destruct (negb (bool_decide (x = []))). }
  by rewrite select_first.
Qed.

End Generic.

(** X14.  A choice in the child drop-down does not last.  The update is
    also the [change] listener of the child element, and it reads the
    parent only: after the user picks a tier (a compute size, a
    replication), the three elements are what the update had made of them
    before the pick, and the child shows the first of its options again. *)
Theorem child_choice_is_discarded (plans : list AppServicePlan)
    (editions : list SqlEdition) (accounts : list StorageAccount)
    (choice : JsString) (dom : Cascade) :
  (onTierChange plans choice (updateAppServicePlanDropdowns plans dom)
   = updateAppServicePlanDropdowns plans dom /\
   onComputeChange editions choice (updateSqlDropdowns editions dom)
   = updateSqlDropdowns editions dom /\
   onReplicationChange accounts choice (updateStorageDropdowns accounts dom)
   = updateStorageDropdowns accounts dom) /\
  (selectValue (childSelect (onTierChange plans choice dom))
   = default [] (head (options (childSelect (onTierChange plans choice dom)))) /\
   selectValue (childSelect (onComputeChange editions choice dom))
   = default [] (head (options (childSelect (onComputeChange editions choice dom)))) /\
   selectValue (childSelect (onReplicationChange accounts choice dom))
   = default [] (head (options (childSelect (onReplicationChange accounts choice dom))))).
Proof.
  unfold onTierChange, onComputeChange, onReplicationChange.
  rewrite !updateAppServicePlanDropdowns_cascade, !updateSqlDropdowns_cascade,
    !updateStorageDropdowns_cascade.
  split; (split; [|split]);
    first [ by apply cascadeUpdate_reads_parent | apply cascadeUpdate_child_first ].
Qed.

End CascadeListenerFacts.

(** ** The deploy page's payload *)

Section PayloadFacts.
Import DeployPage DeployForm Spec.

Variable JSON_parse : JsString -> option value.

Lemma assoc_filter_names (names : list JsString) (props : list (JsString * value))
    (k : JsString) :
  existsb (strEq k) names = false ->
  assoc (List.filter (fun kv => negb (existsb (strEq (fst kv)) names)) props) k
  = assoc props k.
Proof.
  intros Hk. induction props as [|[k' v] rest IH]; [reflexivity|].
  cbn [List.filter fst assoc]. destruct (strEq k' k) eqn:E.
  - apply strEq_true in E as ->. rewrite Hk. cbn [negb assoc]. by rewrite strEq_refl.
  - destruct (negb (existsb (strEq k') names)); [|exact IH].
    cbn [assoc]. by rewrite E.
Qed.

Lemma filter_filter_weaker {A : Type} (p q : A -> bool) (l : list A) :
  (forall x, p x = true -> q x = true) ->
  List.filter p (List.filter q l) = List.filter p l.
Proof.
  intros Hpq. induction l as [|x l IH]; [reflexivity|]. cbn [List.filter].
  destruct (q x) eqn:Eq; cbn [List.filter].
  - by rewrite IH.
  - destruct (p x) eqn:Ep; [|exact IH]. apply Hpq in Ep. congruence.
Qed.

Lemma handleDeploy_without_credentials
    (sessionStorage localStorage : gmap JsString JsString)
    (selectedTemplate : Template) (formData : list (JsString * value)) :
  handleDeploy JSON_parse sessionStorage localStorage selectedTemplate
    (withoutCredentials formData)
  = handleDeploy JSON_parse sessionStorage localStorage selectedTemplate formData.
Proof.
  unfold handleDeploy, lookupProp, withoutCredentials.
  rewrite !assoc_filter_names by reflexivity.
  unfold restOf. rewrite filter_filter_weaker; [reflexivity|].
  intros [k v]. cbn [fst]. rewrite !negb_true_iff. unfold coreFields, credentialFields. cbn [existsb].
  rewrite !orb_false_iff. tauto.
Qed.

(** X15.  What the form says of the credentials is never sent.  Two
    forms that differ only in their [subscription_id] and [project_id]
    fields give the same payload; and the payload's [parameters] are the
    form's fields whose names are not among the seven core names. *)
Theorem form_credentials_never_sent
    (sessionStorage localStorage : gmap JsString JsString)
    (selectedTemplate : Template) (formData formData' : list (JsString * value))
    (payload : list (JsString * value)) :
  handleDeploy JSON_parse sessionStorage localStorage selectedTemplate formData
  = Normal payload ->
  withoutCredentials formData' = withoutCredentials formData ->
  handleDeploy JSON_parse sessionStorage localStorage selectedTemplate formData'
  = Normal payload /\
  exists templateParameters,
    assoc payload (js "parameters") = Some (VObject templateParameters) /\
    (forall k v, (k, v) ∈ templateParameters <->
                 (k, v) ∈ formData /\ k ∉ coreFields).
Proof.
  intros Hrun Hsame. split.
  - by rewrite <- handleDeploy_without_credentials, Hsame,
         handleDeploy_without_credentials.
  - revert Hrun. unfold handleDeploy.
    match goal with |- bind ?c _ = _ -> _ => destruct c as [crg|e] end;
      cbn [bind]; [|discriminate].
    intros [= <-]. exists (restOf formData). split.
    + match goal with
      | |- context [if ?c then _ else _] => by destruct c
      end.
    + intros k v. unfold restOf.
      rewrite list_elem_of_In, filter_In, <- list_elem_of_In. cbn [fst].
      rewrite negb_true_iff.
      assert (existsb (strEq k) coreFields = false <-> k ∉ coreFields) as ->; [|done].
      rewrite <- not_true_iff_false, existsb_exists. split.
      * intros Hno Hin. apply Hno. exists k. split; [by apply list_elem_of_In|].
        apply strEq_refl.
      * intros Hno (x & Hx & Heq). apply strEq_true in Heq as ->.
        by apply Hno, list_elem_of_In.
Qed.

End PayloadFacts.

(** X15 on a form that names a subscription, against the same form
    without it. *)
Lemma form_credentials_never_sent_witness :
  let template := DeployPage.mkTemplate (VString (js "storage")) (js "azure") in
  let formData := [ (js "subscription_id", VString (js "0000-form"));
                    (js "resource_group", VString (js "rg-1"));
                    (js "sku", VString (js "Standard_LRS")) ] in
  let formData' := [ (js "resource_group", VString (js "rg-1"));
                     (js "sku", VString (js "Standard_LRS")) ] in
  exists payload,
    DeployPage.handleDeploy (fun _ => None) ∅ ∅ template formData = Normal payload /\
    DeployPage.handleDeploy (fun _ => None) ∅ ∅ template formData' = Normal payload /\
    assoc payload (js "parameters")
    = Some (VObject [(js "sku", VString (js "Standard_LRS"))]) /\
    assoc payload (js "subscription_id") = None.
Proof.
  intros template formData formData'. eexists. split; [reflexivity|].
  split; [|split; reflexivity].
  refine (proj1 (form_credentials_never_sent (fun _ => None) ∅ ∅ template
                   formData formData' _ eq_refl eq_refl)).
Defined.

(** ** The deploy page after the request *)

Section DeployOutcomeFacts.
Import Auth DeployOutcome.

Variable String_of : value -> completion JsString.
Variable JSON_stringify : value -> value.
Variable typeErrorMessage : JsString.

(** [JSON.stringify] turns an object or an array into a text, which is
    never empty. *)
Hypothesis JSON_stringify_object :
  forall v, typeofObject v = true -> truthy v = true -> truthy (JSON_stringify v) = true.

Local Abbreviation errorMessageOf := (DeployOutcome.errorMessageOf String_of JSON_stringify).
Local Abbreviation settle := (DeployOutcome.settle String_of JSON_stringify typeErrorMessage).

Lemma getProp_present (v : value) (k : JsString) :
  v <> VUndefined -> v <> VNull -> exists x, getProp v k = Normal x.
Proof. destruct v; try done; intros _ _; by eexists. Qed.

Lemma chain_returns (v : option value) (k : JsString) :
  exists x, chain v k = Normal x.
Proof.
  destruct v as [[]|]; cbn [chain getProp bind]; by eexists.
Qed.

Lemma responseData_returns (err : value) (k : JsString) :
  err <> VUndefined -> err <> VNull -> exists x, responseData err k = Normal x.
Proof.
  intros H1 H2. unfold responseData.
  destruct (getProp_present err (js "response") H1 H2) as [r ->]. cbn [bind].
  destruct (chain_returns (Some r) (js "data")) as [d ->]. cbn [bind].
  destruct (chain_returns d k) as [x ->]. cbn [bind]. by eexists.
Qed.

Lemma responseStatus_returns (err : value) :
  err <> VUndefined -> err <> VNull -> exists x, responseStatus err = Normal x.
Proof.
  intros H1 H2. unfold responseStatus.
  destruct (getProp_present err (js "response") H1 H2) as [r ->]. cbn [bind].
  destruct (chain_returns (Some r) (js "status")) as [d ->]. cbn [bind]. by eexists.
Qed.

Lemma truthy_present (v : value) : truthy v = true -> v <> VUndefined /\ v <> VNull.
Proof. by destruct v. Qed.

Lemma errorMessageOf_truthy (err m : value) :
  errorMessageOf err = Normal m -> truthy m = true.
Proof using Type*.
  unfold DeployOutcome.errorMessageOf.
  destruct (responseStatus err) as [status|]; [|done]. cbn [bind].
  destruct (responseData err (js "detail")) as [detail|]; [|done]. cbn [bind].
  destruct (isNumber status 422 && isArray detail).
  { destruct detail; try done.
    destruct (mapM _ _); [|done]. cbn [bind]. by intros [= <-]. }
  destruct (responseData err (js "error")) as [error|]; [|done]. cbn [bind].
  destruct (truthy error) eqn:Herror.
  { destruct (typeofObject error) eqn:Hobj; [|by intros [= <-]].
    destruct (getProp error (js "message")) as [message|]; [|done]. cbn [bind].
    destruct (getProp error (js "details")) as [details|]; [|done]. cbn [bind].
    intros [= <-].
    assert (forall a b, truthy b = true -> truthy (or_else a b) = true) as Hor.
    { intros a b Hb. unfold or_else. by destruct (truthy a) eqn:E. }
    by apply Hor, JSON_stringify_object. }
  destruct (responseData err (js "message")) as [message|]; [|done]. cbn [bind].
  destruct (truthy message) eqn:E1; [by intros [= <-]|].
  destruct (truthy detail) eqn:E2; cbn [andb].
  { destruct (typeofString detail); [by intros [= <-]|].
    destruct (getProp err (js "message")) as [message'|]; [|done]. cbn [bind].
    destruct (truthy message') eqn:E3; by intros [= <-]. }
  destruct (getProp err (js "message")) as [message'|]; [|done]. cbn [bind].
  destruct (truthy message') eqn:E3; by intros [= <-].
Qed.

Lemma errorMessageOf_returns (err : value) :
  err <> VUndefined -> err <> VNull ->
  (forall status detail,
     responseStatus err = Normal status ->
     responseData err (js "detail") = Normal detail ->
     isNumber status 422 && isArray detail = false) ->
  exists m, errorMessageOf err = Normal m.
Proof.
  intros H1 H2 Hplain. unfold DeployOutcome.errorMessageOf.
  destruct (responseStatus_returns err H1 H2) as [status Hs].
  destruct (responseData_returns err (js "detail") H1 H2) as [detail Hd].
  rewrite Hs. cbn [bind]. rewrite Hd. cbn [bind]. rewrite (Hplain _ _ Hs Hd).
  destruct (responseData_returns err (js "error") H1 H2) as [error ->]. cbn [bind].
  destruct (truthy error) eqn:Herror.
  { destruct (typeofObject error); [|by eexists].
    apply truthy_present in Herror as [E1 E2].
    destruct (getProp_present error (js "message") E1 E2) as [? ->].
    destruct (getProp_present error (js "details") E1 E2) as [? ->].
    cbn [bind]. by eexists. }
  destruct (responseData_returns err (js "message") H1 H2) as [message ->]. cbn [bind].
  destruct (truthy message); [by eexists|].
  destruct (truthy detail && typeofString detail); [by eexists|].
  destruct (getProp_present err (js "message") H1 H2) as [m' ->]. cbn [bind].
  destruct (truthy m'); by eexists.
Qed.

(** X16.  A failure is always shown.  Whenever [handleDeploy] runs to
    its end, the page is in one of two states: the deployment was not
    created, the [deploying] flag is off, and the banner and an error
    toast carry the same message, which is not empty; or the request was
    answered, no error is shown and the page stays in its deploying state,
    with a success toast, or with nothing at all when the answer's
    [success] was not set. *)
Theorem deploy_failure_is_always_shown (attempt : completion ApiOutcome)
    (st st' : PageState) :
  settle attempt st = Normal st' ->
  (deploying st' = false /\ truthy (error st') = true /\
   deploymentId st' = deploymentId st /\
   toasts st' = toasts st ++ [ (error st', js "error") ]) \/
  (deploying st' = true /\ error st' = VNull /\
   exists response, attempt = Normal (Fulfilled response) /\
     ((exists message, toasts st' = toasts st ++ [ (message, js "success") ]) \/
      (toasts st' = toasts st /\ deploymentId st' = deploymentId st /\
       exists data success,
         getProp response (js "data") = Normal data /\
         getProp data (js "success") = Normal success /\ truthy success = false))).
Proof using Type*.
  unfold DeployOutcome.settle.
  assert (forall err,
            (let* errorMessage := errorMessageOf err in
             Normal {| deploying := false; deploymentId := deploymentId st;
                       error := errorMessage;
                       toasts := toasts st ++ [ (errorMessage, js "error") ] |})
            = Normal st' ->
            deploying st' = false /\ truthy (error st') = true /\
            deploymentId st' = deploymentId st /\
            toasts st' = toasts st ++ [ (error st', js "error") ]) as Hfail.
  { intros err. destruct (errorMessageOf err) as [m|] eqn:E; [|done]. cbn [bind].
    intros [= <-]. cbn. by rewrite (errorMessageOf_truthy _ _ E). }
  destruct attempt as [[response | err] | e]; cbn [deploymentId toasts].
  - destruct (getProp response (js "data")) as [data|] eqn:Hdata; cbn [bind failWith];
      [|intros H; left; exact (Hfail _ H)].
    destruct (getProp data (js "success")) as [success|] eqn:Hsuccess; cbn [bind failWith];
      [|intros H; left; exact (Hfail _ H)].
    destruct (truthy success) eqn:Ht.
    + destruct (getProp data (js "data")) as [inner|]; cbn [bind failWith];
        [|intros H; left; exact (Hfail _ H)].
      destruct (getProp inner (js "deployment_id")) as [newId|]; cbn [bind failWith];
        [|intros H; left; exact (Hfail _ H)].
      intros [= <-]. right. cbn. split; [done|]. split; [done|].
      exists response. split; [done|]. left. by eexists.
    + cbn [failWith]. intros [= <-]. right. cbn. split; [done|]. split; [done|].
      exists response. split; [done|]. right. split; [done|]. split; [done|].
      by exists data, success.
  - intros H. left. exact (Hfail _ H).
  - intros H. left. exact (Hfail _ H).
Qed.

(** X17.  The handler of a failure runs to its end, and turns the
    [deploying] flag off, for every error that is an object, save a
    response of status 422 whose [detail] is an array; an error thrown
    before the request is such an error. *)
Theorem deploy_failure_handler_completes (attempt : completion ApiOutcome)
    (st : PageState) :
  match attempt with
  | Throw _ => True
  | Normal (RejectedWith err) =>
      err <> VUndefined /\ err <> VNull /\
      forall status detail,
        responseStatus err = Normal status ->
        responseData err (js "detail") = Normal detail ->
        isNumber status 422 && isArray detail = false
  | Normal (Fulfilled _) => False
  end ->
  exists st', settle attempt st = Normal st' /\ deploying st' = false.
Proof.
  unfold DeployOutcome.settle.
  destruct attempt as [[response | err] | e]; [done | |].
  - intros (H1 & H2 & Hplain).
    destruct (errorMessageOf_returns err H1 H2 Hplain) as [m ->]. cbn [bind].
    by eexists.
  - intros _.
    destruct (errorMessageOf_returns (engineError typeErrorMessage)) as [m ->];
      [done | done | by intros status detail [= <-] [= <-] |].
    cbn [bind]. by eexists.
Qed.

End DeployOutcomeFacts.

(** X16 on a server that answers 200 without [success]: nothing is
    shown, and the page stays in its deploying state. *)
Lemma deploy_failure_is_always_shown_witness :
  let response := VObject [ (js "data", VObject [ (js "success", VBool false) ]) ] in
  let st := DeployOutcome.mkPage false VNull VNull [] in
  exists st',
    DeployOutcome.settle (fun _ => Normal []) (fun _ => VString (js "{}")) []
      (Normal (Auth.Fulfilled response)) st = Normal st' /\
    DeployOutcome.deploying st' = true /\ DeployOutcome.error st' = VNull /\
    DeployOutcome.toasts st' = [].
Proof.
  intros response st. eexists. split; [reflexivity|].
  destruct (deploy_failure_is_always_shown (fun _ => Normal [])
              (fun _ => VString (js "{}")) [] (fun _ _ _ => eq_refl)
              (Normal (Auth.Fulfilled response)) st _ eq_refl)
    as [(Hoff & _) | (Hon & Herr & _)].
  - discriminate Hoff.
  - split; [exact Hon|]. split; [exact Herr | reflexivity].
Defined.

(** X17 on a network error, which has a message and no response. *)
Lemma deploy_failure_handler_completes_witness :
  let err := VObject [ (js "message", VString (js "Network Error")) ] in
  exists st',
    DeployOutcome.settle (fun _ => Normal []) (fun _ => VString (js "{}")) []
      (Normal (Auth.RejectedWith err)) (DeployOutcome.mkPage true VNull VNull [])
    = Normal st' /\
    DeployOutcome.deploying st' = false.
Proof.
  intros err.
  apply (deploy_failure_handler_completes (fun _ => Normal [])
           (fun _ => VString (js "{}")) [] (Normal (Auth.RejectedWith err))).
  split; [discriminate|]. split; [discriminate|].
  intros status detail [= <-] [= <-]. reflexivity.
Defined.

(** ** What a monitoring run leaves behind *)

Section MonitorTraceFacts.
Import Deployments Spec MonitorTrace.

Variable templateName : JsString.

Local Abbreviation go := (fold_left (step templateName)).

Lemma count_emit (kind : Notice -> bool) (ns : list Notice) (m : Monitor) :
  count kind (emit ns m) = count kind m + length (List.filter kind ns).
Proof. unfold count, emit. cbn [trace]. by rewrite List.filter_app, length_app. Qed.

Local Ltac bool_to_order :=
  repeat match goal with
         | H : (0 <? _) = true |- _ => apply Nat.ltb_lt in H
         | H : (0 <? _) = false |- _ => apply Nat.ltb_ge in H
         | |- (0 <? _) = true => apply Nat.ltb_lt
         | |- (0 <? _) = false => apply Nat.ltb_ge
         end.

(** What the end of one check adds to the trace: no request and no timer
    operation; when it says stop, one verdict, which comes with a reload
    of the list unless it is the timeout warning; nothing of the kind
    when monitoring goes on. *)
Lemma settleStatus_counts (reply : StatusReply) (m : Monitor) :
  let '(stop, m') := settleStatus templateName reply m in
  checks m' = checks m /\
  count isSetInterval m' = count isSetInterval m /\
  count isClearInterval m' = count isClearInterval m /\
  count isVerdict m' = count isVerdict m + (if stop then 1 else 0) /\
  count isLoadDeployments m' + warnings m'
  = count isLoadDeployments m + warnings m + (if stop then 1 else 0).
Proof.
  unfold settleStatus.
  assert (match tryCheck templateName reply with
          | inl ns => List.filter isFetchStatus ns = [] /\
                      List.filter isSetInterval ns = [] /\
                      List.filter isClearInterval ns = [] /\
                      length (List.filter isVerdict ns) = 1 /\
                      length (List.filter isLoadDeployments ns) = 1 /\
                      List.filter isWarning ns = []
          | inr logged => List.filter isFetchStatus logged = [] /\
                          List.filter isSetInterval logged = [] /\
                          List.filter isClearInterval logged = [] /\
                          List.filter isVerdict logged = [] /\
                          List.filter isLoadDeployments logged = [] /\
                          List.filter isWarning logged = []
          end) as Htry.
  { destruct reply as [|[|] [status|e]]; try done. unfold tryCheck.
    destruct (getProp status (js "provisioningState")) as [state|]; [|done].
    destruct (isString state (js "Succeeded")); [done|].
    by destruct (isString state (js "Failed")). }
  destruct (tryCheck templateName reply) as [ns|logged].
  - destruct Htry as (H0 & H1 & H2 & H3 & H4 & H5).
    rewrite checks_emit, !count_emit, !warnings_emit, H0, H1, H2, H3, H4, H5. cbn. lia.
  - destruct Htry as (H0 & H1 & H2 & H3 & H4 & H5).
    cbn [attempts emit].
    destruct (maxAttempts <=? S (attempts m)); unfold checks, count, warnings;
      cbn [trace emit];
      rewrite ?List.filter_app, ?length_app, ?H0, ?H1, ?H2, ?H3, ?H4, ?H5; cbn; lia.
Qed.

(** The request of a check adds a request, and nothing else that is
    counted here. *)
Lemma requestStatus_counts (m : Monitor) :
  checks (requestStatus m) = S (checks m) /\
  count isSetInterval (requestStatus m) = count isSetInterval m /\
  count isClearInterval (requestStatus m) = count isClearInterval m /\
  count isVerdict (requestStatus m) = count isVerdict m /\
  count isLoadDeployments (requestStatus m) = count isLoadDeployments m /\
  warnings (requestStatus m) = warnings m.
Proof.
  unfold requestStatus. rewrite checks_emit, !count_emit, warnings_emit. cbn. lia.
Qed.

(** What holds of a run at every moment. *)
Lemma step_accounts (run : Run) (ev : Event) :
  accounts run -> accounts (step templateName run ev).
Proof.
  destruct run as [m p]. unfold accounts, step. cbn [monitor phase].
  intros (Hset & Hclear & Hverdict & Hload).
  pose proof (requestStatus_counts m) as Hreq.
  destruct p as [| |[|n]|[|n]], ev as [|reply];
    cbn [intervalSet intervalCleared returned monitor phase] in *;
    try (repeat split; assumption);
    try (pose proof (settleStatus_counts reply m) as Hone;
         destruct (settleStatus templateName reply m) as [[|] m'];
         cbn [intervalSet intervalCleared returned monitor phase];
         rewrite ?count_emit, ?warnings_emit;
         cbn [List.filter length isSetInterval isClearInterval isVerdict
              isLoadDeployments isWarning]);
    bool_to_order; repeat split; bool_to_order; lia.
Qed.

Lemma go_accounts (events : list Event) (run : Run) :
  accounts run -> accounts (go events run).
Proof.
  revert run. induction events as [|ev events IH]; intros run Hrun; [exact Hrun|].
  cbn [fold_left]. by apply IH, step_accounts.
Qed.

(** Once the interval is cleared, or the function returned without
    setting it, no request goes out any more. *)
Lemma step_quiet (run : Run) (ev : Event) :
  intervalRunning (phase run) = false -> phase run <> FirstCheck ->
  intervalRunning (phase (step templateName run ev)) = false /\
  phase (step templateName run ev) <> FirstCheck /\
  checks (monitor (step templateName run ev)) = checks (monitor run).
Proof.
  destruct run as [m p]. unfold step. cbn [monitor phase].
  destruct p as [| |n|[|n]], ev as [|reply]; cbn [intervalRunning monitor phase];
    try done.
  intros _ _. pose proof (settleStatus_counts reply m) as Hone.
  destruct (settleStatus templateName reply m) as [[|] m'];
    cbn [intervalRunning monitor phase]; rewrite ?checks_emit; cbn;
    (split; [reflexivity|]); (split; [discriminate|]); lia.
Qed.

Lemma go_quiet (events : list Event) (run : Run) :
  intervalRunning (phase run) = false -> phase run <> FirstCheck ->
  checks (monitor (go events run)) = checks (monitor run).
Proof.
  revert run. induction events as [|ev events IH]; intros run Hoff Hfirst; [reflexivity|].
  cbn [fold_left]. destruct (step_quiet run ev Hoff Hfirst) as (Hoff' & Hfirst' & <-).
  by apply IH.
Qed.

(** With answers in time [clearInterval] is called once at most. *)
Lemma pairs_clear_once (replies : nat -> StatusReply) (ticks : nat) :
  forall (k : nat) (m : Monitor),
    count isClearInterval
      (monitor (go (flat_map (fun i => [Tick; Answer (replies i)]) (seq k ticks))
                  {| monitor := m; phase := Polling 0 |}))
    <= S (count isClearInterval m).
Proof.
  induction ticks as [|ticks IH]; intros k m; [cbn; lia|].
  rewrite go_pairs_S. unfold checkStatus.
  pose proof (settleStatus_counts (replies k) (requestStatus m)) as Hone.
  pose proof (requestStatus_counts m) as Hreq.
  destruct (settleStatus templateName (replies k) (requestStatus m)) as [[|] m'].
  - rewrite stopped_idle. cbn [monitor]. rewrite count_emit. cbn. lia.
  - etransitivity; [apply IH|]. lia.
Qed.

(** X18.  What a monitoring run leaves behind, whenever the answers
    arrive.  At every moment of a run: the interval timer was set at most
    once, and only after the initial check, when that did not settle the
    matter; [clearInterval] was called just when the interval is no
    longer running; the user got one verdict (success, failure or the
    timeout warning) for every time a check said stop, and with each
    verdict the deployment list was reloaded, except with the timeout
    warning; and once the interval is cleared, or the function returned
    without setting it, no further request goes out.  When every answer
    arrives before the interval fires again, the run ends with the
    interval cleared as often as it was set, exactly one verdict, and one
    reload or one warning. *)
Theorem monitoring_leaves_no_timer (events : list Event) :
  let run := monitorDeployment templateName events in
  count isSetInterval (monitor run) = (if intervalSet (phase run) then 1 else 0) /\
  (0 <? count isClearInterval (monitor run)) = intervalCleared (phase run) /\
  count isVerdict (monitor run)
  = count isClearInterval (monitor run) + (if returned (phase run) then 1 else 0) /\
  count isLoadDeployments (monitor run) + warnings (monitor run)
  = count isVerdict (monitor run) /\
  (intervalRunning (phase run) = false -> phase run <> FirstCheck ->
   forall more, checks (monitor (fold_left (step templateName) more run))
                = checks (monitor run)) /\
  (forall replies ticks,
     19 <= ticks ->
     let ended := monitorDeployment templateName (timely replies ticks) in
     phase ended = (if terminalState (replies 0) then Returned else Stopped 0) /\
     count isSetInterval (monitor ended) = (if terminalState (replies 0) then 0 else 1) /\
     count isClearInterval (monitor ended) = count isSetInterval (monitor ended) /\
     count isVerdict (monitor ended) = 1 /\
     count isLoadDeployments (monitor ended) + warnings (monitor ended) = 1).
Proof.
  assert (forall events, accounts (monitorDeployment templateName events)) as Hacc.
  { intros evs. unfold monitorDeployment. apply go_accounts. by vm_compute. }
  cbv zeta. destruct (Hacc events) as (Hset & Hclear & Hverdict & Hload).
  split; [exact Hset|]. split; [exact Hclear|]. split; [exact Hverdict|].
  split; [exact Hload|]. split.
  { intros Hoff Hfirst more. by apply go_quiet. }
  intros replies ticks Hticks.
  destruct (timely_run templateName replies) as (m & Hrun & _).
  destruct (Hacc (timely replies ticks)) as (Hset' & Hclear' & Hverdict' & Hload').
  assert (count isClearInterval
            (monitor (monitorDeployment templateName (timely replies ticks))) <= 1) as Honce.
  { rewrite monitorDeployment_timely. unfold checkStatus.
    pose proof (settleStatus_counts (replies 0)
                  (requestStatus {| attempts := 0; trace := [] |})) as Hone.
    destruct (settleStatus templateName (replies 0) _) as [[|] m1].
    - rewrite returned_idle. cbn [monitor].
      destruct Hone as (_ & _ & -> & _). cbn. lia.
    - etransitivity; [apply pairs_clear_once|].
      rewrite count_emit. destruct Hone as (_ & _ & -> & _). cbn. lia. }
  rewrite (Hrun ticks Hticks) in *. cbn [monitor phase] in *.
  split; [reflexivity|].
  destruct (terminalState (replies 0));
    cbn [intervalSet intervalCleared returned] in *.
  - apply Nat.ltb_ge in Hclear'. lia.
  - apply Nat.ltb_lt in Hclear'. lia.
Qed.

End MonitorTraceFacts.

(** ** The names that are collected *)

Section CollectedNames.
Import Utils.

Variable JSON_parse : JsString -> option value.

Lemma collectInput_names (parameters : gmap JsString value) (input : FormInput)
    (key : JsString) :
  is_Some (collectInput JSON_parse parameters input !! key) <->
  is_Some (parameters !! key) \/
  (input_name input = key /\ key <> [] /\ key <> js "__proto__").
Proof.
  destruct (decide (input_name input = key)) as [Heq|Hne].
  2:{ rewrite (collectInput_other JSON_parse) by done. tauto. }
  unfold collectInput, assignParam. rewrite Heq.
  destruct (bool_decide (key = [])) eqn:Eempty; cbn [negb].
  { apply bool_decide_eq_true in Eempty. tauto. }
  apply bool_decide_eq_false in Eempty.
  destruct (strEq key (js "tags")) eqn:Etags.
  { apply strEq_true in Etags as ->. rewrite lookup_insert_eq.
    split; [intros _; right; by repeat split | by eexists]. }
  destruct (existsb (strEq key) imageFields) eqn:Eimage.
  { rewrite lookup_insert_eq. split; [|by eexists]. intros _. right.
    split; [done|]. split; [done|]. intros ->. by vm_compute in Eimage. }
  destruct (strEq key (js "__proto__")) eqn:Eproto.
  - apply strEq_true in Eproto. tauto.
  - apply strEq_false in Eproto. rewrite lookup_insert_eq.
    split; [intros _; by right | by eexists].
Qed.

Lemma collectInputs_names (inputs : list FormInput) :
  forall (parameters : gmap JsString value) (key : JsString),
    is_Some (fold_left (collectInput JSON_parse) inputs parameters !! key) <->
    is_Some (parameters !! key) \/
    (exists input, input ∈ inputs /\ input_name input = key /\
                   key <> [] /\ key <> js "__proto__").
Proof.
  induction inputs as [|input inputs IH]; intros parameters key; cbn [fold_left].
  - split; [by left|]. intros [H | (input & Hin & _)]; [done|].
    by apply elem_of_nil in Hin.
  - rewrite IH, collectInput_names. split.
    + intros [[H | H] | (i & Hin & H)]; [by left | |].
      * right. exists input. split; [apply list_elem_of_here | done].
      * right. exists i. split; [by apply list_elem_of_further | done].
    + intros [H | (i & Hin & H)]; [by left; left|].
      apply elem_of_cons in Hin as [-> | Hin]; [left; by right|].
      right. by exists i.
Qed.

Lemma collectField_names (k : JsString) (field : option JsString)
    (parameters : gmap JsString value) (key : JsString) :
  is_Some (collectField k field parameters !! key) <->
  is_Some (parameters !! key) \/ (key = k /\ is_Some field).
Proof.
  destruct field as [text|]; cbn [collectField].
  - destruct (decide (k = key)) as [->|Hne].
    + rewrite lookup_insert_eq. split; [intros _; right; by split | by eexists].
    + rewrite lookup_insert_ne by done. split; [by left|].
      intros [H | [-> _]]; done.
  - split; [by left|]. intros [H | [_ [? ?]]]; done.
Qed.

(** X19.  Every named input is collected, filled in or not.  The names
    [collectParameters] returns are the three of the page's own fields
    that are on the page, and the names of the form's inputs; an input
    without a name is left out, and so is one named [__proto__], whose
    text never becomes a property. *)
Theorem every_named_input_is_collected (doc : Document) (key : JsString) :
  is_Some (collectParameters JSON_parse doc !! key) <->
  (key = js "resourceGroupName" /\ is_Some (resourceGroupField doc)) \/
  (key = js "location" /\ is_Some (locationField doc)) \/
  (key = js "subscription" /\ is_Some (subscriptionField doc)) \/
  (exists inputs input,
     parametersForm doc = Some inputs /\ input ∈ inputs /\
     input_name input = key /\ key <> [] /\ key <> js "__proto__").
Proof.
  unfold collectParameters.
  assert (is_Some (collectField (js "subscription") (subscriptionField doc)
                     (collectField (js "location") (locationField doc)
                        (collectField (js "resourceGroupName") (resourceGroupField doc)
                           ∅)) !! key) <->
          (key = js "resourceGroupName" /\ is_Some (resourceGroupField doc)) \/
          (key = js "location" /\ is_Some (locationField doc)) \/
          (key = js "subscription" /\ is_Some (subscriptionField doc))) as Hfields.
  { rewrite !collectField_names, lookup_empty.
    split; [intros [[[[? [=]] | H] | H] | H]; tauto | tauto]. }
  destruct (parametersForm doc) as [inputs|].
  - rewrite collectInputs_names, Hfields. split.
    + intros [H | (input & Hin & H)]; [tauto|].
      right. right. right. by exists inputs, input.
    + intros [H | [H | [H | (inputs' & input & [= <-] & Hin & H)]]]; try tauto.
      right. by exists input.
  - rewrite Hfields. split; [tauto|].
    intros [H | [H | [H | (inputs' & input & Hform & _)]]]; try tauto. done.
Qed.

End CollectedNames.

(** ** The credentials indicator *)

Section CredentialsInfoFacts.
Import DeployPage CredentialsInfo Spec.

Variable JSON_parse : JsString -> option value.

(** X20.  The credentials indicator and the request agree.  When the
    page shows custom credentials for the selected template, the
    template's cloud is the one shown, and the payload [handleDeploy]
    sends carries the stored credential: the Azure subscription whose
    first eight characters are shown, or the GCP project that is shown.
    The one exception is a stored credential that is missing or empty:
    the indicator still says custom, and nothing is sent. *)
Theorem credentials_indicator_is_honoured
    (sessionStorage localStorage : gmap JsString JsString)
    (selectedTemplate : Template) (formData : list (JsString * value))
    (info : Info) (payload : list (JsString * value)) :
  getCredentialsInfo JSON_parse sessionStorage localStorage (Some selectedTemplate)
  = Some info ->
  handleDeploy JSON_parse sessionStorage localStorage selectedTemplate formData
  = Normal payload ->
  type info = js "Custom" /\
  exists credential,
    assoc payload (js "subscription_id") = present credential /\
    ((cloud_provider selectedTemplate = js "azure" /\ provider info = js "Azure" /\
      shortId credential = Normal (id info)) \/
     (cloud_provider selectedTemplate = js "gcp" /\ provider info = js "GCP" /\
      id info = credential)).
Proof.
  unfold getCredentialsInfo, handleDeploy.
  set (savedSettings := or_else (getItem sessionStorage (js "cloudCredentials"))
                                (getItem localStorage (js "cloudCredentials"))).
  destruct (truthy savedSettings) eqn:Hsaved; cbn [negb]; [|done].
  intros Hinfo.
  match goal with |- bind ?c _ = _ -> _ => destruct c as [crg|e] end;
    cbn [bind]; [|discriminate].
  intros [= <-].
  match goal with
  | |- context [tryCatch ?c VNull] => set (custom := tryCatch c VNull)
  end.
  enough (type info = js "Custom" /\
          ((cloud_provider selectedTemplate = js "azure" /\ provider info = js "Azure" /\
            shortId custom = Normal (id info)) \/
           (cloud_provider selectedTemplate = js "gcp" /\ provider info = js "GCP" /\
            id info = custom))) as [Htype Hcases].
  { split; [exact Htype|]. exists custom. split; [|exact Hcases]. apply payload_keys. }
  revert Hinfo. subst custom. unfold readInfo, readCustomCredential.
  destruct (parseSettings JSON_parse savedSettings) as [settings|]; [|done].
  cbn [bind tryCatch]. unfold providerTypeOf.
  destruct (isString (VString (cloud_provider selectedTemplate)) (js "azure")) eqn:Hazure.
  - apply strEq_true in Hazure. rewrite Hazure.
    change (or_else (lookupProp providerTypeMap (js "azure")) (VString (js "azure")))
      with (VString (js "terraform-azure")).
    unfold customMode, customSection.
    change (callIncludes (VString (js "terraform-azure")) (js "azure")) with (Normal true).
    change (callIncludes (VString (js "terraform-azure")) (js "gcp")) with (Normal false).
    cbn [bind].
    destruct (getProp settings (js "azure")) as [section|]; [|done]. cbn [bind].
    destruct (getPropOpt section (js "mode")) as [mode|]; [|done]. cbn [bind].
    destruct (isString mode (js "custom")); cbn [bind].
    + destruct (getProp section (js "subscriptionId")) as [sub|]; [|done].
      cbn [bind tryCatch].
      destruct (shortId sub) as [short|] eqn:Hshort; [|done]. cbn [bind tryCatch].
      intros [= <-]. split; [reflexivity|]. left. by repeat split.
    + change (isString (VString (js "azure")) (js "gcp")) with false. done.
  - cbn [bind].
    destruct (isString (VString (cloud_provider selectedTemplate)) (js "gcp")) eqn:Hgcp;
      [|done].
    apply strEq_true in Hgcp. rewrite Hgcp.
    change (or_else (lookupProp providerTypeMap (js "gcp")) (VString (js "gcp")))
      with (VString (js "terraform-gcp")).
    unfold customMode, customSection.
    change (callIncludes (VString (js "terraform-gcp")) (js "azure")) with (Normal false).
    change (callIncludes (VString (js "terraform-gcp")) (js "gcp")) with (Normal true).
    cbn [bind].
    destruct (getProp settings (js "gcp")) as [section|]; [|done]. cbn [bind].
    destruct (getPropOpt section (js "mode")) as [mode|]; [|done]. cbn [bind].
    destruct (isString mode (js "custom")); cbn [bind]; [|done].
    destruct (getProp section (js "projectId")) as [project|]; [|done].
    cbn [bind tryCatch].
    intros [= <-]. split; [reflexivity|]. right. by repeat split.
Qed.

End CredentialsInfoFacts.

(** X20 with an Azure subscription stored in custom mode. *)
Lemma credentials_indicator_is_honoured_witness :
  let settings :=
    VObject [ (js "azure", VObject [ (js "mode", VString (js "custom"));
                                     (js "subscriptionId", VString (js "0123456789abcdef")) ]) ] in
  let storage : gmap JsString JsString := {[ js "cloudCredentials" := js "{...}" ]} in
  let template := DeployPage.mkTemplate (VString (js "storage")) (js "azure") in
  exists info payload,
    CredentialsInfo.getCredentialsInfo (fun _ => Some settings) storage ∅ (Some template)
    = Some info /\
    DeployPage.handleDeploy (fun _ => Some settings) storage ∅ template [] = Normal payload /\
    CredentialsInfo.type info = js "Custom" /\
    CredentialsInfo.id info = VString (js "01234567...") /\
    assoc payload (js "subscription_id") = Some (VString (js "0123456789abcdef")).
Proof.
  intros settings storage template. eexists _, _.
  split; [reflexivity|]. split; [reflexivity|]. split; [|split; reflexivity].
  exact (proj1 (credentials_indicator_is_honoured (fun _ => Some settings) storage ∅
                  template [] _ _ eq_refl eq_refl)).
Defined.

(** ** The deployment details page *)

Section DeploymentDetailsFacts.
Import Deployments Auth DeploymentDetails.

Lemma or_else_truthy (a b : value) :
  truthy b = true -> truthy (or_else a b) = true.
Proof. intros Hb. unfold or_else. by destruct (truthy a) eqn:E. Qed.

Lemma isString_true (v : value) (lit : JsString) :
  isString v lit = true <-> v = VString lit.
Proof.
  destruct v; cbn [isString]; try (split; [done | discriminate]).
  rewrite strEq_true. split; [by intros -> | by intros [= ->]].
Qed.

(** X21.  The backend's provider types are never shown.  Whatever the
    provider type is, what [formatProviderType] gives is not empty and is
    none of [bicep], [terraform-azure], [azure], [terraform-gcp] and
    [gcp]; and formatting it again changes nothing. *)
Theorem backend_provider_types_are_hidden (providerType : value) :
  truthy (formatProviderType providerType) = true /\
  (forall name, name ∈ backendProviderTypes ->
                formatProviderType providerType <> VString name) /\
  formatProviderType (formatProviderType providerType)
  = formatProviderType providerType.
Proof.
  assert ((exists lit, lit ∈ [js "Unknown"; js "Azure"; js "Google Cloud"] /\
                       formatProviderType providerType = VString lit) \/
          (formatProviderType providerType = providerType /\
           truthy providerType = true /\
           forall name, name ∈ backendProviderTypes -> providerType <> VString name))
    as [(lit & Hlit & ->) | (-> & Ht & Hnone)].
  { unfold formatProviderType.
    destruct (truthy providerType) eqn:Ht; cbn [negb].
    2:{ left. eexists. split; [|reflexivity]. apply list_elem_of_here. }
    destruct (isString providerType (js "bicep")) eqn:E1; cbn [orb].
    { left. eexists. split; [|reflexivity]. apply list_elem_of_further, list_elem_of_here. }
    destruct (isString providerType (js "terraform-azure")) eqn:E2; cbn [orb].
    { left. eexists. split; [|reflexivity]. apply list_elem_of_further, list_elem_of_here. }
    destruct (isString providerType (js "azure")) eqn:E3; cbn [orb].
    { left. eexists. split; [|reflexivity]. apply list_elem_of_further, list_elem_of_here. }
    destruct (isString providerType (js "terraform-gcp")) eqn:E4; cbn [orb].
    { left. eexists. split; [|reflexivity].
      apply list_elem_of_further, list_elem_of_further, list_elem_of_here. }
    destruct (isString providerType (js "gcp")) eqn:E5; cbn [orb].
    { left. eexists. split; [|reflexivity].
      apply list_elem_of_further, list_elem_of_further, list_elem_of_here. }
    right. split; [reflexivity|]. split; [reflexivity|].
    intros name Hin ->. cbn [isString] in E1, E2, E3, E4, E5.
    apply strEq_false in E1, E2, E3, E4, E5. revert Hin.
    unfold backendProviderTypes. rewrite !elem_of_cons, elem_of_nil.
    intros [H | [H | [H | [H | [H | []]]]]]; done. }
  - revert Hlit. rewrite !elem_of_cons, elem_of_nil.
    intros [-> | [-> | [-> | []]]];
      (split; [reflexivity|]; split; [|reflexivity]);
      intros name Hin [= <-]; revert Hin;
      unfold backendProviderTypes; rewrite !elem_of_cons, elem_of_nil;
      intros [H | [H | [H | [H | [H | []]]]]]; discriminate H.
  - split; [exact Ht|]. split; [exact Hnone|].
    unfold formatProviderType. rewrite Ht. cbn [negb].
    assert (forall name, name ∈ backendProviderTypes ->
              isString providerType name = false) as Hno.
    { intros name Hin. apply not_true_iff_false. intros H%isString_true.
      by apply (Hnone name). }
    rewrite !Hno; [reflexivity | | | | |]; unfold backendProviderTypes;
      rewrite !elem_of_cons; tauto.
Qed.

Section TemplateNames.

Variable toUpperCase : JsString -> JsString.

(** Upper case has no dash where the text had none. *)
Hypothesis toUpperCase_dash : forall w, dash ∉ w -> dash ∉ toUpperCase w.

Lemma split_words (s : JsString) : Forall (fun w => dash ∉ w) (split dash s).
Proof.
  induction s as [|c rest IH]; cbn [split].
  - constructor; [apply not_elem_of_nil | constructor].
  - destruct (c =? dash)%N eqn:E.
    + constructor; [apply not_elem_of_nil | exact IH].
    + apply N.eqb_neq in E.
      destruct (split dash rest) as [|word words].
      * constructor; [|constructor]. intros H%list_elem_of_singleton. done.
      * inversion IH as [|? ? Hword Hwords]; subst. constructor; [|exact Hwords].
        intros [H | H]%elem_of_cons; [by apply E | by apply Hword].
Qed.

Lemma join_words (words : list JsString) :
  Forall (fun w => dash ∉ w) words -> dash ∉ join (js " ") words.
Proof.
  induction 1 as [|w words Hw Hwords IH]; cbn [join]; [apply not_elem_of_nil|].
  destruct words as [|w' words']; [exact Hw|].
  rewrite !elem_of_app. intros [H | [H | H]]; [by apply Hw | | by apply IH].
  apply list_elem_of_singleton in H. discriminate H.
Qed.

(** X22.  A template name is shown without dashes: for every name that
    is a text [formatTemplateName] gives a text, and no dash is left in
    it. *)
Theorem template_name_is_shown_without_dashes (name : JsString) :
  exists shown,
    formatTemplateName toUpperCase (VString name) = Normal (VString shown) /\
    dash ∉ shown.
Proof using Type*.
  unfold formatTemplateName. destruct (truthy (VString name)) eqn:Ht; cbn [negb].
  - eexists. split; [reflexivity|]. apply join_words.
    apply Forall_forall. intros w (word & -> & Hin)%list_elem_of_fmap.
    pose proof (split_words name) as Hwords. rewrite Forall_forall in Hwords.
    specialize (Hwords word Hin). unfold capitalize.
    rewrite elem_of_app. intros [H | H].
    + revert H. apply toUpperCase_dash. intros H. apply Hwords.
      destruct word as [|c word]; [by apply elem_of_nil in H|].
      cbn in H. apply list_elem_of_singleton in H as ->. apply list_elem_of_here.
    + apply Hwords. destruct word as [|c word]; [done|]. cbn in H.
      by apply list_elem_of_further.
  - exists name. split; [reflexivity|].
    cbn in Ht. apply negb_false_iff, bool_decide_eq_true in Ht. subst.
    apply not_elem_of_nil.
Qed.

End TemplateNames.

Section Fetching.

Variable typeErrorMessage : JsString.

Local Abbreviation fetchDeployment := (DeploymentDetails.fetchDeployment typeErrorMessage).

(** What the outer [catch] makes of an error that is an object. *)
Lemma caught_object (err : value) (st : DetailsState) :
  err <> VUndefined -> err <> VNull ->
  exists e d m,
    responseData err (js "error") = Normal e /\
    responseData err (js "detail") = Normal d /\
    getProp err (js "message") = Normal m /\
    caught err st
    = Normal (setError (or_else (or_else (or_else e d) m)
                          (VString (js "Failed to fetch deployment"))) st).
Proof.
  intros Hu Hn.
  destruct (responseData_returns err (js "error") Hu Hn) as [e He].
  destruct (responseData_returns err (js "detail") Hu Hn) as [d Hd].
  destruct (getProp_present err (js "message") Hu Hn) as [m Hm].
  exists e, d, m. unfold caught. by rewrite He, Hd, Hm.
Qed.

(** The engine's own error has a message and nothing else. *)
Lemma caught_engineError (st : DetailsState) :
  caught (engineError typeErrorMessage) st
  = Normal (setError (or_else (VString typeErrorMessage)
                        (VString (js "Failed to fetch deployment"))) st).
Proof. reflexivity. Qed.

(** X23.  Loading the deployment always ends the loading state, and a
    failing task-status request is not an error.  Whatever the two
    requests come to, [loading] is off afterwards.  When the first answer
    holds a deployment, it is stored and no error is shown, whatever
    becomes of the task status.  In every other case an error text is
    shown, unless the promise rejects: when the first request fails with
    an error object, the text is the error's [response.data.error], else
    its [response.data.detail], else its message, else the fixed text,
    and the deployment stays as it was; when the first answer holds no
    deployment, the text is the message of the engine's error, or the
    fixed text when that is empty.  The promise rejects, with the error
    state left as it was, just when the first request fails with
    [undefined] or [null]. *)
Theorem fetchDeployment_ends_loading (getById : ApiOutcome)
    (getTaskStatus : value -> ApiOutcome) (st : DetailsState) :
  let result := fetchDeployment getById getTaskStatus st in
  loading (fst result) = false /\
  (forall response data deploymentData,
     getById = Fulfilled response ->
     getProp response (js "data") = Normal data ->
     getProp data (js "data") = Normal deploymentData ->
     deploymentData <> VUndefined -> deploymentData <> VNull ->
     deployment (fst result) = deploymentData /\ error (fst result) = VNull /\
     snd result = false) /\
  (forall err,
     getById = RejectedWith err -> err <> VUndefined -> err <> VNull ->
     exists e d m,
       responseData err (js "error") = Normal e /\
       responseData err (js "detail") = Normal d /\
       getProp err (js "message") = Normal m /\
       error (fst result)
       = or_else (or_else (or_else e d) m) (VString (js "Failed to fetch deployment")) /\
       truthy (error (fst result)) = true /\
       deployment (fst result) = deployment st /\
       snd result = false) /\
  (forall err,
     getById = RejectedWith err -> err = VUndefined \/ err = VNull ->
     snd result = true /\ error (fst result) = error st /\
     deployment (fst result) = deployment st) /\
  (forall response,
     getById = Fulfilled response ->
     (forall data deploymentData,
        getProp response (js "data") = Normal data ->
        getProp data (js "data") = Normal deploymentData ->
        deploymentData = VUndefined \/ deploymentData = VNull) ->
     error (fst result)
     = or_else (VString typeErrorMessage) (VString (js "Failed to fetch deployment")) /\
     truthy (error (fst result)) = true /\
     snd result = false) /\
  (snd result = false ->
   error (fst result) = VNull \/ truthy (error (fst result)) = true).
Proof.
  cbv zeta. unfold DeploymentDetails.fetchDeployment.
  assert (forall info s, loading (fetchTaskInfo info s) = loading s /\
                         deployment (fetchTaskInfo info s) = deployment s /\
                         error (fetchTaskInfo info s) = error s) as Htask.
  { intros [response | err] s; [|done]. unfold fetchTaskInfo.
    destruct (getProp response (js "data")) as [data|]; [|done]. cbn [bind].
    destruct (getProp data (js "success")) as [success|]; [|done]. cbn [bind].
    destruct (truthy success); [|done].
    by destruct (getProp data (js "data")). }
  assert (forall err s,
            match caught err s with
            | Normal s' => truthy (error s') = true
            | Throw _ => True
            end) as Hcaught.
  { intros err s. unfold caught.
    destruct (responseData err (js "error")) as [e|]; [|done]. cbn [bind].
    destruct (responseData err (js "detail")) as [d|]; [|done]. cbn [bind].
    destruct (getProp err (js "message")) as [m|]; [|done]. cbn [bind setError error].
    by apply or_else_truthy. }
  split; [|split; [|split; [|split; [|split]]]].
  - destruct getById as [response | err].
    + destruct (getProp response (js "data")) as [data|]; cbn [bind];
        [destruct (getProp data (js "data")) as [d|]; cbn [bind];
         [destruct (getProp d (js "celery_task_id")) as [taskId|]; cbn [bind];
          [destruct (getProp d (js "status")) as [status|]; cbn [bind]|]|]|];
        repeat match goal with
               | |- context [caught ?e ?s] => destruct (caught e s)
               end; reflexivity.
    + by destruct (caught err st).
  - intros response data d -> Hdata Hd Hu Hn. rewrite Hdata. cbn [bind]. rewrite Hd.
    destruct (getProp_present d (js "celery_task_id") Hu Hn) as [taskId ->].
    destruct (getProp_present d (js "status") Hu Hn) as [status ->].
    cbn [bind fst snd setLoading setError deployment error].
    destruct (truthy taskId && inProgress status); [|done].
    destruct (Htask (getTaskStatus taskId) (setDeployment d st)) as (_ & -> & _). done.
  - intros err -> Hu Hn.
    destruct (caught_object err st Hu Hn) as (e & d & m & He & Hd & Hm & ->).
    exists e, d, m. cbn [fst snd setLoading setError error deployment].
    repeat split; try assumption. by apply or_else_truthy.
  - intros err -> [-> | ->]; by cbn.
  - intros response -> Hnone.
    destruct (getProp response (js "data")) as [data|] eqn:Hdata; cbn [bind].
    2:{ rewrite caught_engineError. cbn [fst snd setLoading setError error].
        repeat split. by apply or_else_truthy. }
    destruct (getProp data (js "data")) as [d|] eqn:Hd; cbn [bind].
    2:{ rewrite caught_engineError. cbn [fst snd setLoading setError error].
        repeat split. by apply or_else_truthy. }
    destruct (Hnone data d eq_refl Hd) as [-> | ->]; cbn [getProp bind];
      rewrite caught_engineError; cbn [fst snd setLoading setError error];
      repeat split; by apply or_else_truthy.
  - destruct getById as [response | err].
    + destruct (getProp response (js "data")) as [data|]; cbn [bind];
        [destruct (getProp data (js "data")) as [d|]; cbn [bind];
         [destruct (getProp d (js "celery_task_id")) as [taskId|]; cbn [bind];
          [destruct (getProp d (js "status")) as [status|]; cbn [bind]|]|]|];
        try (left; reflexivity);
        match goal with
        | |- context [caught ?e ?s] =>
            pose proof (Hcaught e s) as Hc; destruct (caught e s)
        end; cbn [fst snd]; solve [ by right | discriminate ].
    + pose proof (Hcaught err st) as Hc. destruct (caught err st); cbn [fst snd];
        solve [ by right | discriminate ].
Qed.

End Fetching.

(** X24.  The step before the active one is shown as pending.  For the
    five steps of the progress display: no step is at once active and
    completed, so circle, label and icon always agree; and with the task
    in the phase of step [k], step [k] looks active, the steps more than
    one place before it look completed, and the step just before it, like
    those after it, looks pending. *)
Theorem step_before_active_looks_pending (taskInfo : value) :
  (forall name, name ∈ phaseSteps ->
                circleOf taskInfo name = iconOf taskInfo name) /\
  (forall k j phase name,
     phaseSteps !! k = Some phase -> phaseSteps !! j = Some name ->
     truthy taskInfo = true ->
     getProp taskInfo (js "phase") = Normal (VString phase) ->
     circleOf taskInfo name
     = if j =? k then ActiveLook
       else if S j <? k then CompletedLook else PendingLook).
Proof.
  assert (forall k, truthy taskInfo = true ->
            getPropOpt taskInfo k = getProp taskInfo k) as Hopt.
  { intros k. by destruct taskInfo. }
  split.
  - intros name Hin. unfold circleOf, iconOf.
    destruct (isActive taskInfo name) eqn:Ha, (isCompleted taskInfo name) eqn:Hc;
      try reflexivity.
    exfalso. unfold isActive, isCompleted in *.
    apply andb_true_iff in Hc as [Ht Hc]. rewrite (Hopt _ Ht) in Ha.
    destruct (getProp taskInfo (js "phase")) as [phase|]; [|done].
    apply isString_true in Ha as ->. revert Hin Hc.
    unfold phaseSteps. rewrite !elem_of_cons, elem_of_nil.
    intros [-> | [-> | [-> | [-> | [-> | []]]]]]; by vm_compute.
  - intros k j phase name Hk Hj Ht Hphase. unfold circleOf, isActive, isCompleted.
    rewrite (Hopt _ Ht), Hphase, Ht. cbn [andb].
    destruct k as [|[|[|[|[|k]]]]]; try discriminate Hk; injection Hk as <-;
      (destruct j as [|[|[|[|[|j]]]]]; try discriminate Hj; injection Hj as <-);
      by vm_compute.
Qed.

End DeploymentDetailsFacts.

(** X22 on [storage-account], with the ASCII case mapping. *)
Lemma template_name_is_shown_without_dashes_witness :
  DeploymentDetails.formatTemplateName Spec.asciiUpper (VString (js "storage-account"))
  = Normal (VString (js "Storage Account")).
Proof.
  destruct (template_name_is_shown_without_dashes Spec.asciiUpper) with
    (name := js "storage-account") as (shown & Hshown & _).
  - intros w Hw (c & Hc & Hin)%list_elem_of_fmap.
    destruct ((97 <=? c) && (c <=? 122))%N eqn:E.
    + apply andb_true_iff in E as [E1 E2]. apply N.leb_le in E1, E2.
      unfold DeploymentDetails.dash in Hc. lia.
    + by subst.
  - reflexivity.
Defined.

(** X24 with the task in its planning phase: [validating], the step
    just before, is not shown as completed. *)
Lemma step_before_active_looks_pending_witness :
  let taskInfo := VObject [ (js "phase", VString (js "planning")) ] in
  DeploymentDetails.circleOf taskInfo (js "initializing") = DeploymentDetails.CompletedLook /\
  DeploymentDetails.circleOf taskInfo (js "validating") = DeploymentDetails.PendingLook /\
  DeploymentDetails.circleOf taskInfo (js "planning") = DeploymentDetails.ActiveLook.
Proof.
  intros taskInfo.
  pose proof (proj2 (step_before_active_looks_pending taskInfo)) as H.
  split; [|split].
  - exact (H 2 0 _ _ eq_refl eq_refl eq_refl eq_refl).
  - exact (H 2 1 _ _ eq_refl eq_refl eq_refl eq_refl).
  - exact (H 2 2 _ _ eq_refl eq_refl eq_refl eq_refl).
Defined.

(** ** The service catalog *)

Section ServiceCatalogFacts.
Import ServiceCatalog.

Variable toLowerCase : JsString -> JsString.
Variable provider : JsString.

Local Abbreviation categoryOf := (fun template => getTemplateCategory provider (name template)).

Local Abbreviation inCategory :=
  (fun categoryKey template => strEq (categoryOf template) categoryKey).

Lemma groupOf_pushTo (groups : list (JsString * list Template))
    (category : JsString) (template : Template) (k : JsString) :
  groupOf (pushTo groups category template) k
  = if strEq category k then Some (default [] (groupOf groups k) ++ [template])
    else groupOf groups k.
Proof.
  induction groups as [|[k' members] rest IH]; cbn [pushTo groupOf].
  - destruct (strEq category k); reflexivity.
  - destruct (strEq k' category) eqn:E1; cbn [groupOf].
    + apply strEq_true in E1 as ->. by destruct (strEq category k).
    + destruct (strEq k' k) eqn:E2; [|exact IH].
      apply strEq_true in E2 as ->.
      rewrite (proj2 (strEq_false category k)); [reflexivity|].
      apply strEq_false in E1. congruence.
Qed.

Lemma groupOf_grouped (filtered : list Template) :
  forall (groups : list (JsString * list Template)) (k : JsString),
    groupOf (fold_left (fun groups template =>
                          pushTo groups (categoryOf template) template)
                       filtered groups) k
    = match groupOf groups k with
      | Some members => Some (members ++ List.filter (inCategory k) filtered)
      | None =>
          match List.filter (inCategory k) filtered with
          | [] => None
          | more => Some more
          end
      end.
Proof.
  induction filtered as [|template filtered IH]; intros groups k; cbn [fold_left List.filter].
  - destruct (groupOf groups k); [by rewrite app_nil_r | reflexivity].
  - rewrite IH, groupOf_pushTo. destruct (strEq (categoryOf template) k).
    + destruct (groupOf groups k); cbn [default app]; [|reflexivity].
      by rewrite <- app_assoc.
    + reflexivity.
Qed.

Lemma groupOf_sections (groups : list (JsString * list Template)) (k : JsString) :
  groupOf (sections groups) k = if isCategory k then groupOf groups k else None.
Proof.
  induction groups as [|[k' members] rest IH]; cbn [sections List.filter groupOf fst].
  - by destruct (isCategory k).
  - fold (sections rest). destruct (strEq k' k) eqn:E.
    + apply strEq_true in E as ->. destruct (isCategory k); cbn [groupOf].
      * by rewrite strEq_refl.
      * exact IH.
    + destruct (isCategory k'); cbn [groupOf]; [rewrite E|]; exact IH.
Qed.

Lemma pushTo_keys (groups : list (JsString * list Template))
    (category : JsString) (template : Template) (P : JsString -> Prop) :
  Forall (fun group => P (fst group)) groups -> P category ->
  Forall (fun group => P (fst group)) (pushTo groups category template).
Proof.
  intros Hall Hc. induction Hall as [|[k members] rest Hk Hrest IH]; cbn [pushTo].
  - by repeat constructor.
  - destruct (strEq k category); constructor; done.
Qed.

Lemma grouped_keys (filtered : list Template) (P : JsString -> Prop) :
  Forall (fun template => P (categoryOf template)) filtered ->
  forall groups,
    Forall (fun group => P (fst group)) groups ->
    Forall (fun group => P (fst group))
      (fold_left (fun groups template =>
                    pushTo groups (categoryOf template) template)
                 filtered groups).
Proof.
  induction 1 as [|template filtered Ht Hfiltered IH]; intros groups Hg; [exact Hg|].
  cbn [fold_left]. apply IH. by apply pushTo_keys.
Qed.

(** X25.  Templates outside the category lists are never shown.  The
    grid has one section for each category that has templates among the
    filtered ones, holding exactly those, in their order; the templates
    whose name is in no list of the chosen cloud fall into the group
    [other], which is not rendered.  When all filtered templates are of
    that kind the grid is empty, and the [No templates found] message is
    not shown either. *)
Theorem uncategorised_templates_are_never_shown
    (searchQuery selectedCategory : JsString) (templates : list Template) :
  let filtered :=
    filteredTemplates toLowerCase provider searchQuery selectedCategory templates in
  let shown := sections (groupedTemplates provider filtered) in
  (forall categoryKey,
     groupOf shown categoryKey
     = if isCategory categoryKey then
         match List.filter (inCategory categoryKey) filtered with
         | [] => None
         | members => Some members
         end
       else None) /\
  (filtered <> [] ->
   Forall (fun template => categoryOf template = js "other") filtered ->
   shown = [] /\ noResults filtered = false).
Proof.
  cbv zeta. split.
  - intros categoryKey. rewrite groupOf_sections. unfold groupedTemplates.
    rewrite groupOf_grouped. reflexivity.
  - intros Hsome Hother. split.
    + pose proof (grouped_keys _ (fun k => k = js "other") Hother [] (List.Forall_nil _)) as Hkeys.
      unfold groupedTemplates.
      induction Hkeys as [|[k members] rest Hk Hrest IH]; [reflexivity|].
      cbn [sections List.filter fst] in *. rewrite Hk.
      change (isCategory (js "other")) with false. exact IH.
    + unfold noResults.
      destruct (filteredTemplates toLowerCase provider searchQuery selectedCategory templates);
        done.
Qed.

End ServiceCatalogFacts.

(** X25 on a catalog that holds one Azure template the lists do not
    name. *)
Lemma uncategorised_templates_are_never_shown_witness :
  let templates := [ ServiceCatalog.mkTemplate (js "event-hub") (js "Event Hub") ] in
  let filtered := ServiceCatalog.filteredTemplates Spec.asciiLower (js "azure") [] (js "all")
                    templates in
  filtered = templates /\
  ServiceCatalog.sections (ServiceCatalog.groupedTemplates (js "azure") filtered) = [] /\
  ServiceCatalog.noResults filtered = false.
Proof.
  intros templates filtered. split; [reflexivity|].
  apply (proj2 (uncategorised_templates_are_never_shown Spec.asciiLower (js "azure")
                  [] (js "all") templates)).
  - discriminate.
  - repeat constructor.
Defined.

(** ** The global error boundary *)

Section MainFacts.
Import Main.

Local Abbreviation detailed := (fun b => length (List.filter isDetailed (shown b))).

Lemma handle_budget (b : Boundary) (h : Happening) :
  detailed (handle b h) + (maxErrors - errorCount (handle b h))
  = detailed b + (maxErrors - errorCount b)
    + (if isResetTick h then errorCount b `min` maxErrors else 0) /\
  length (shown (handle b h))
  = length (shown b)
    + (if isErrorEvent h then 1
       else if isResetTick h then 0
       else if S (errorCount b) <=? maxErrors then 1 else 0).
Proof.
  destruct h as [error | reason |]; cbn [handle isResetTick isErrorEvent].
  - unfold onError. cbn [errorCount shown].
    rewrite List.filter_app, !length_app. cbn [List.filter length].
    destruct (S (errorCount b) <=? maxErrors) eqn:E; cbn [isDetailed length].
    + apply Nat.leb_le in E. unfold maxErrors in *. lia.
    + apply Nat.leb_gt in E. unfold maxErrors in *. lia.
  - unfold onUnhandledRejection. cbn [errorCount shown].
    rewrite List.filter_app, !length_app.
    destruct (S (errorCount b) <=? maxErrors) eqn:E; cbn [List.filter isDetailed length].
    + apply Nat.leb_le in E. unfold maxErrors in *. lia.
    + apply Nat.leb_gt in E. unfold maxErrors in *. lia.
  - cbn [resetErrorCount errorCount shown]. unfold maxErrors. lia.
Qed.

(** X26.  The error boundary shows at most five detailed messages
    between two resets of its counter, the two handlers sharing the
    budget: after any sequence of error events, unhandled rejections and
    resets, the number of detailed toasts is at most five times the
    number of resets plus one; and every error event shows a toast,
    detailed or not. *)
Theorem error_boundary_keeps_its_budget (happenings : list Happening) :
  let b := fold_left handle happenings (mkBoundary 0 []) in
  length (List.filter isDetailed (shown b))
  <= maxErrors * S (length (List.filter isResetTick happenings)) /\
  length (List.filter isErrorEvent happenings) <= length (shown b) /\
  length (shown b) + length (List.filter isResetTick happenings) <= length happenings.
Proof.
  cbv zeta.
  assert (forall hs b,
            let b' := fold_left handle hs b in
            detailed b' + (maxErrors - errorCount b')
            <= detailed b + (maxErrors - errorCount b)
               + maxErrors * length (List.filter isResetTick hs) /\
            length (shown b) + length (List.filter isErrorEvent hs) <= length (shown b') /\
            length (shown b') + length (List.filter isResetTick hs)
            <= length (shown b) + length hs) as Hrun.
  { induction hs as [|h hs IH]; intros b; cbn [fold_left List.filter length].
    - lia.
    - destruct (IH (handle b h)) as (H1 & H2 & H3).
      destruct (handle_budget b h) as (Hb & Hl). cbv zeta in *.
      destruct h as [error | reason |]; cbn [isResetTick isErrorEvent length] in *.
      + lia.
      + destruct (S (errorCount b) <=? maxErrors); lia.
      + assert (errorCount b `min` maxErrors <= maxErrors) by lia. lia. }
  destruct (Hrun happenings (mkBoundary 0 [])) as (H1 & H2 & H3).
  cbn [shown errorCount List.filter length] in *. unfold maxErrors in *. lia.
Qed.

(** X27.  The page knows whether it is offline.  After any sequence of
    status updates, the body has the class [offline] exactly when the
    last update found the browser off line (or, with no update yet, when
    it had the class before); and [Connection restored] is shown at most
    once for each time the page went off line. *)
Theorem connection_restored_only_after_offline (updates : list bool) (n : Network) :
  let n' := fold_left (fun n onLine => updateNetworkStatus onLine n) updates n in
  offline n' = match last updates with
               | Some onLine => negb onLine
               | None => offline n
               end /\
  length (List.filter isRestored (notices n')) + (if offline n' then 1 else 0)
  <= length (List.filter isRestored (notices n)) + (if offline n then 1 else 0)
     + length (List.filter negb updates).
Proof.
  cbv zeta. revert n. induction updates as [|onLine updates IH] using rev_ind; intros n.
  - cbn. split; [reflexivity|]. lia.
  - rewrite fold_left_app, last_snoc, List.filter_app, length_app. cbn [fold_left].
    destruct (IH n) as [_ Hcount].
    set (n1 := fold_left (fun n onLine => updateNetworkStatus onLine n) updates n) in *.
    unfold updateNetworkStatus. destruct onLine; cbn [negb List.filter length].
    + destruct (offline n1) eqn:E; cbn [offline notices].
      * split; [reflexivity|]. rewrite List.filter_app, length_app.
        cbn [List.filter isRestored length]. lia.
      * split; [exact E|]. rewrite E. lia.
    + cbn [offline notices]. split; [reflexivity|].
      rewrite List.filter_app, length_app. cbn [List.filter isRestored length].
      destruct (offline n1); lia.
Qed.

End MainFacts.

(** ** Resource groups *)

Section ResourceGroupFacts.
Import Deployments ResourceGroups.

Variable create : JsString -> JsString -> JsString -> FetchOutcome.
Variable delete : JsString -> JsString -> FetchOutcome.
Variable uriErrorMessage : JsString.

(** X28.  A resource group is created only from a complete form, and
    the form is emptied only after success.  Whenever
    [createResourceGroup] runs to its end it shows exactly one toast; it
    makes at most one request, and makes it exactly when the name, the
    location and the subscription (the modal's, or else the main form's)
    are all filled in, sending them as they are; and the three fields of
    the modal are emptied exactly when the toast is the success one. *)
Theorem create_needs_a_complete_form (modalInstance : bool) (form form' : CreateForm)
    (actions : list Action) :
  createResourceGroup create modalInstance form = Normal (actions, form') ->
  exists name location chosen,
    newResourceGroupName form = Some name /\
    newResourceGroupLocation form = Some location /\
    (exists modal, newResourceGroupSubscription form = Some modal /\
       if bool_decide (modal = []) then subscription form = Some chosen
       else chosen = modal) /\
    length (List.filter isToast actions) = 1 /\
    List.filter isRequest actions
    = (if bool_decide (name = []) || bool_decide (location = [])
          || bool_decide (chosen = [])
       then [] else [ CreateRequest name location chosen ]) /\
    (if existsb isSuccess actions
     then form' = mkCreateForm (Some []) (Some []) (Some []) (subscription form)
     else form' = form).
Proof.
  unfold createResourceGroup.
  destruct (newResourceGroupName form) as [name|] eqn:Hname; [|done].
  destruct (newResourceGroupLocation form) as [location|] eqn:Hloc; [|done].
  destruct (newResourceGroupSubscription form) as [modal|] eqn:Hmodal; [|done].
  cbn [valueOf bind].
  destruct (if bool_decide (modal = []) then valueOf (subscription form) else Normal modal)
    as [chosen|] eqn:Hchosen; [|done].
  cbn [bind]. intros Hrun. exists name, location, chosen.
  split; [reflexivity|]. split; [reflexivity|]. split.
  { exists modal. split; [reflexivity|].
    destruct (bool_decide (modal = [])); [|by injection Hchosen].
    revert Hchosen. destruct (subscription form); cbn [valueOf]; [by intros [= ->] | done]. }
  revert Hrun.
  destruct (bool_decide (name = []) || bool_decide (location = [])); cbn [orb].
  { intros [= <- <-]. repeat split; reflexivity. }
  destruct (bool_decide (chosen = [])).
  { intros [= <- <-]. repeat split; reflexivity. }
  destruct (create name location chosen) as [m | [|] text [m | result]];
    intros [= <- <-]; try (repeat split; reflexivity).
  cbn [cleared]. destruct modalInstance; repeat split; reflexivity.
Qed.

(** X29.  Nothing is deleted without confirmation and a subscription.
    The listener of a [Delete] button makes at most one request; it makes
    it exactly when the dialog was confirmed and the main form names a
    subscription that is well-formed text, for the resource group of the
    button and that subscription.  The progress dialog, once shown, is
    closed again, whatever the answer is, and one toast follows; for a
    subscription with a lone surrogate it is closed without any request,
    and the toast reports the [URIError]. *)
Theorem delete_needs_confirmation (confirmed : bool)
    (subscriptionElement : option JsString) (rgName : JsString) :
  let actions := deleteClicked delete uriErrorMessage confirmed subscriptionElement rgName in
  let subscription := default [] subscriptionElement in
  List.filter isRequest actions
  = (if confirmed && negb (bool_decide (subscription = [])) && wellFormed subscription
     then [ DeleteRequest rgName subscription ] else []) /\
  (In ShowProgressDialog actions ->
   confirmed = true /\ subscription <> [] /\
   exists after,
     actions
     = [ ConfirmDialog rgName; ShowProgressDialog ]
       ++ (if wellFormed subscription then [ DeleteRequest rgName subscription ] else [])
       ++ CloseProgressDialog :: after /\
     length (List.filter isToast after) = 1 /\
     List.filter isRequest after = []) /\
  (confirmed = true -> subscription <> [] -> wellFormed subscription = false ->
   actions = [ ConfirmDialog rgName; ShowProgressDialog; CloseProgressDialog;
               ShowError (js "Failed to delete resource group: " ++ uriErrorMessage) ]) /\
  (confirmed = false -> actions = [ ConfirmDialog rgName ]).
Proof.
  cbv zeta. unfold deleteClicked.
  destruct confirmed; cbn [negb andb].
  2:{ split; [reflexivity|]. split; [|split; [done|done]].
      intros [H | []]. discriminate H. }
  destruct (bool_decide (default [] subscriptionElement = [])) eqn:Hsub; cbn [negb andb].
  { apply bool_decide_eq_true in Hsub.
    split; [reflexivity|]. split; [|split; [done|done]].
    intros [H | [H | []]]; discriminate H. }
  apply bool_decide_eq_false in Hsub.
  destruct (wellFormed (default [] subscriptionElement)); cbn [negb].
  - split; [|split; [|split; [done|done]]].
    + destruct (delete rgName (default [] subscriptionElement)) as [m | [|] text json];
        reflexivity.
    + intros _. split; [reflexivity|]. split; [exact Hsub|].
      destruct (delete rgName (default [] subscriptionElement)) as [m | [|] text json];
        eexists; (split; [reflexivity|]); split; reflexivity.
  - split; [reflexivity|]. split; [|split; [done|done]].
    intros _. split; [reflexivity|]. split; [exact Hsub|].
    eexists. split; [reflexivity|]. split; reflexivity.
Qed.

End ResourceGroupFacts.

(** X28 on a form whose name holds a space only, which no validation
    of the deploy form would accept: it is sent as it is. *)
Lemma create_needs_a_complete_form_witness :
  let form := ResourceGroups.mkCreateForm (Some (js " ")) (Some (js "westeurope"))
                (Some []) (Some (js "sub-1")) in
  let create := fun _ _ _ => Deployments.Response true [] (inr (VObject [])) in
  exists actions form',
    ResourceGroups.createResourceGroup create true form = Normal (actions, form') /\
    List.filter ResourceGroups.isRequest actions
    = [ ResourceGroups.CreateRequest (js " ") (js "westeurope") (js "sub-1") ] /\
    form' = ResourceGroups.mkCreateForm (Some []) (Some []) (Some []) (Some (js "sub-1")).
Proof.
  intros form create. eexists _, _. split; [reflexivity|].
  destruct (create_needs_a_complete_form create true form _ _ eq_refl)
    as (name & location & chosen & Hname & Hloc & (modal & Hmodal & Hchosen) & _ & Hreq & Hform).
  injection Hname as <-. injection Hloc as <-. injection Hmodal as <-.
  cbn in Hchosen. injection Hchosen as <-.
  split; [exact Hreq | exact Hform].
Defined.

(** ** Loading the subscriptions *)

Section SubscriptionFacts.
Import Utils Deployments Subscriptions.

Variable String_of : value -> JsString.
Variable typeErrorMessage : JsString.

Local Abbreviation loadSubscriptions :=
  (Subscriptions.loadSubscriptions String_of typeErrorMessage).

(** X30.  The subscription drop-down is never left disabled.  Whatever
    the request comes to, a drop-down that is on the page is enabled
    afterwards, its first option is the one of empty value, and that is
    the option it shows, so that no subscription counts as chosen; at
    most one error is reported; and what the function gives back is the
    empty list unless the answer was read, in which case nothing is
    reported. *)
Theorem subscription_select_is_enabled_again (outcome : FetchOutcome)
    (selectElement : option SubscriptionSelect) :
  let '(after, result, errors) := loadSubscriptions outcome selectElement in
  match selectElement, after with
  | Some _, Some s =>
      disabled s = false /\ head (options (element s)) = Some [] /\
      selectValue (element s) = []
  | None, None => True
  | _, _ => False
  end /\
  length errors <= 1 /\
  (result = VArray [] \/
   errors = [] /\ exists text, outcome = Response true text (inr result)).
Proof.
  unfold Subscriptions.loadSubscriptions.
  destruct outcome as [m | [|] text [m | subscriptions]];
    destruct selectElement as [s|]; cbn [option_map];
    try (split; [done|]; split; [cbn; lia|]; by left).
  - destruct (optionValues String_of subscriptions) as [values|]; cbn [option_map].
    + split; [done|]. split; [cbn; lia|]. right. split; [done|]. by eexists.
    + split; [done|]. split; [cbn; lia|]. by left.
  - split; [done|]. split; [cbn; lia|]. right. split; [done|]. by eexists.
Qed.

End SubscriptionFacts.

(** ** The further properties on examples *)

(** X14 with [Windows] chosen: the user picks the tier [Standard], and
    the tier is [Free] again. *)
Lemma child_choice_is_discarded_witness :
  let dom := Utils.mkCascade (Utils.mkSelect [js "Windows"; js "Linux"] (Some 0))
                             (Utils.mkSelect [] None) (Utils.mkSelect [] None) in
  let updated := Utils.updateAppServicePlanDropdowns Utils.APP_SERVICE_PLANS dom in
  Utils.selectValue (Utils.childSelect (CascadeListeners.chooseChild (js "Standard") updated))
  = js "Standard" /\
  Utils.selectValue
    (Utils.childSelect
       (CascadeListeners.onTierChange Utils.APP_SERVICE_PLANS (js "Standard") updated))
  = js "Free".
Proof.
  intros dom updated. split; [reflexivity|].
  destruct (child_choice_is_discarded Utils.APP_SERVICE_PLANS [] [] (js "Standard") dom)
    as [(Hsame & _) _].
  fold updated in Hsame. rewrite Hsame. reflexivity.
Defined.

(** X18 on a status endpoint whose requests all fail, answered in time:
    the timer is set once and cleared once, with one verdict. *)
Lemma monitoring_leaves_no_timer_witness :
  let ended := Deployments.monitorDeployment (js "storage")
                 (Deployments.timely (fun _ => Deployments.StatusRejected) 19) in
  Deployments.phase ended = Deployments.Stopped 0 /\
  MonitorTrace.count MonitorTrace.isSetInterval (Deployments.monitor ended) = 1 /\
  MonitorTrace.count MonitorTrace.isClearInterval (Deployments.monitor ended) = 1 /\
  MonitorTrace.count MonitorTrace.isVerdict (Deployments.monitor ended) = 1.
Proof.
  intros ended.
  destruct (monitoring_leaves_no_timer (js "storage") []) as (_ & _ & _ & _ & _ & Htimely).
  destruct (Htimely (fun _ => Deployments.StatusRejected) 19 ltac:(lia))
    as (Hphase & Hset & Hclear & Hverdict & _).
  fold ended in Hphase, Hset, Hclear, Hverdict.
  split; [exact Hphase|]. split; [exact Hset|].
  split; [by rewrite Hclear | exact Hverdict].
Defined.

(** X19 on a form with one input that has a name and one that has none. *)
Lemma every_named_input_is_collected_witness :
  let doc := Utils.mkDocument None None None
               (Some [Utils.mkInput (js "sku") []; Utils.mkInput [] (js "lost")]) in
  is_Some (Utils.collectParameters (fun _ => None) doc !! js "sku") /\
  ~ is_Some (Utils.collectParameters (fun _ => None) doc !! js "resourceGroupName").
Proof.
  intros doc. split.
  - apply (every_named_input_is_collected (fun _ => None) doc (js "sku")).
    right. right. right.
    exists [Utils.mkInput (js "sku") []; Utils.mkInput [] (js "lost")],
           (Utils.mkInput (js "sku") []).
    split; [reflexivity|]. split; [apply list_elem_of_here|].
    split; [reflexivity|]. split; discriminate.
  - intros H.
    apply (every_named_input_is_collected (fun _ => None) doc (js "resourceGroupName")) in H.
    destruct H as [[_ [? H]] | [[H _] | [[H _] | (inputs & input & Hform & Hin & Hname & _)]]];
      try discriminate H.
    injection Hform as <-.
    apply elem_of_cons in Hin as [-> | Hin]; [discriminate Hname|].
    apply list_elem_of_singleton in Hin as ->. discriminate Hname.
Defined.

(** X21 on [terraform-gcp], which is shown as [Google Cloud]. *)
Lemma backend_provider_types_are_hidden_witness :
  DeploymentDetails.formatProviderType (VString (js "terraform-gcp"))
  = VString (js "Google Cloud") /\
  DeploymentDetails.formatProviderType (VString (js "terraform-gcp"))
  <> VString (js "terraform-gcp").
Proof.
  split; [reflexivity|].
  apply (proj1 (proj2 (backend_provider_types_are_hidden (VString (js "terraform-gcp"))))).
  apply (bool_decide_unpack _). by vm_compute.
Defined.

(** X23 on a running deployment whose task status cannot be fetched. *)
Lemma fetchDeployment_ends_loading_witness :
  let deploymentData := VObject [ (js "status", VString (js "running"));
                                  (js "celery_task_id", VString (js "t-1")) ] in
  let response := VObject [ (js "data", VObject [ (js "data", deploymentData) ]) ] in
  let st := DeploymentDetails.mkDetails VNull true VNull VNull in
  let result := DeploymentDetails.fetchDeployment [] (Auth.Fulfilled response)
                  (fun _ => Auth.RejectedWith VNull) st in
  DeploymentDetails.loading (fst result) = false /\
  DeploymentDetails.deployment (fst result) = deploymentData /\
  DeploymentDetails.error (fst result) = VNull /\
  snd result = false.
Proof.
  intros deploymentData response st result.
  destruct (fetchDeployment_ends_loading [] (Auth.Fulfilled response)
              (fun _ => Auth.RejectedWith VNull) st) as (Hloading & Hstored & _).
  split; [exact Hloading|].
  apply (Hstored response (VObject [ (js "data", deploymentData) ]) deploymentData);
    (reflexivity || discriminate).
Defined.

(** X26 on six errors in a row: five detailed messages, then the
    general one. *)
Lemma error_boundary_keeps_its_budget_witness :
  let b := fold_left Main.handle (repeat (Main.ErrorEvent VUndefined) 6)
             (Main.mkBoundary 0 []) in
  length (List.filter Main.isDetailed (Main.shown b)) <= 5 /\
  6 <= length (Main.shown b).
Proof.
  intros b.
  destruct (error_boundary_keeps_its_budget (repeat (Main.ErrorEvent VUndefined) 6))
    as (Hbudget & Hshown & _).
  split; [exact Hbudget | exact Hshown].
Defined.

(** X27 on a connection that drops and comes back, twice reported as
    back. *)
Lemma connection_restored_only_after_offline_witness :
  let n := fold_left (fun n onLine => Main.updateNetworkStatus onLine n)
             [false; true; true] (Main.mkNetwork false []) in
  Main.offline n = false /\
  length (List.filter Main.isRestored (Main.notices n)) <= 1.
Proof.
  intros n.
  destruct (connection_restored_only_after_offline [false; true; true]
              (Main.mkNetwork false [])) as (Hoff & Hcount).
  split; [exact Hoff|]. fold n in Hcount. cbn in Hcount |- *. lia.
Defined.

(** X29 on a confirmed deletion with a subscription chosen, and with
    a subscription that is a lone surrogate. *)
Lemma delete_needs_confirmation_witness :
  let delete := fun _ _ => Deployments.Response true [] (inl []) in
  let actions :=
    ResourceGroups.deleteClicked delete (js "URI malformed") true (Some (js "sub-1"))
      (js "rg-1") in
  let refused :=
    ResourceGroups.deleteClicked delete (js "URI malformed") true (Some [0xD800%N])
      (js "rg-1") in
  List.filter ResourceGroups.isRequest actions
  = [ ResourceGroups.DeleteRequest (js "rg-1") (js "sub-1") ] /\
  In ResourceGroups.CloseProgressDialog actions /\
  List.filter ResourceGroups.isRequest refused = [] /\
  In ResourceGroups.CloseProgressDialog refused.
Proof.
  intros delete actions refused.
  destruct (delete_needs_confirmation delete (js "URI malformed") true (Some (js "sub-1"))
              (js "rg-1")) as (Hrequest & Hclosed & _).
  destruct (delete_needs_confirmation delete (js "URI malformed") true (Some [0xD800%N])
              (js "rg-1")) as (Hnone & _ & Hrefused & _).
  split; [exact Hrequest|]. split.
  - destruct Hclosed as (_ & _ & after & Hactions & _).
    + right. left. reflexivity.
    + fold actions in Hactions. rewrite Hactions.
      apply in_or_app. right. right. left. reflexivity.
  - split; [exact Hnone|].
    fold refused in Hrefused. rewrite Hrefused by (reflexivity || discriminate).
    right. right. left. reflexivity.
Defined.

(** X30 on a request that fails: the drop-down is enabled again and
    shows its option of empty value. *)
Lemma subscription_select_is_enabled_again_witness :
  let select := Subscriptions.mkSubscriptionSelect
                  (Utils.mkSelect [js "sub-1"] (Some 0)) false in
  exists s,
    fst (fst (Subscriptions.loadSubscriptions (fun _ => []) []
                (Deployments.Rejected (js "offline")) (Some select))) = Some s /\
    Subscriptions.disabled s = false /\
    Utils.selectValue (Subscriptions.element s) = [].
Proof.
  intros select.
  pose proof (subscription_select_is_enabled_again (fun _ => []) []
                (Deployments.Rejected (js "offline")) (Some select)) as H.
  destruct (Subscriptions.loadSubscriptions (fun _ => []) []
              (Deployments.Rejected (js "offline")) (Some select))
    as [[[s|] result] errors].
  - destruct H as ((Henabled & _ & Hvalue) & _). exists s. by repeat split.
  - destruct H as ([] & _).
Defined.
